(** * AuraLogic: script delivery, pending virtual stock, and the lifecycle sweeps

    A shallow embedding of the Go services of the AuraLogic backend

    - [backend/internal/service/script_delivery_service.go]
    - [backend/internal/service/order_cancel_service.go]
    - [backend/internal/service/ticket_auto_close_service.go]

    together with the properties the design document states about them.
    Go values exported from the script runtime are an inductive type, Go maps
    that are only ranged over are association lists in iteration order, and
    the database tables are lists of rows.  What lies outside these three files
    is kept apart from them: the script interpreter and the HTTP client are
    classes of functions ([Interpreter], [Runtime]), and what the database and
    the repositories may refuse is a record of faults.

    The first part of the file is the embedding, the second part its
    properties. *)

From Stdlib Require Import ZArith String Ascii List Bool DecimalString DecimalFacts DecimalPos Lia.
From stdpp Require Import base option list gmap strings.

Open Scope Z_scope.
Open Scope string_scope.

#[local] Set Warnings "-register-all".

(** ** Go primitives shared by the services *)

Module Go.

(** [fmt.Sprintf("%d", n)]. *)
Definition fmt_d (n : Z) : string := NilZero.string_of_int (Z.to_int n).

(** Go's [int64] arithmetic wraps around. *)
Definition wrap64 (z : Z) : Z := (z + 2 ^ 63) mod 2 ^ 64 - 2 ^ 63.

(** [time.Hour], in nanoseconds, the unit of [time.Duration]. *)
Definition Hour : Z := 3600 * 1000000000.

(** [-time.Duration(hours) * time.Hour]: negation and product on [int64]. *)
Definition minus_hours (hours : Z) : Z := wrap64 (wrap64 (- wrap64 hours) * Hour).

(** [now.Add(d)] with instants counted in nanoseconds. *)
Definition time_Add (now d : Z) : Z := now + d.

(** [s[:n]] guarded by [len(s) > n], as the callers write it. *)
Definition truncate (n : nat) (s : string) : string :=
  if Nat.ltb n (String.length s) then String.substring 0 n s else s.

(** [strings.EqualFold(s, t)] for a [t] of ASCII bytes, which is how the
    services call it.  Bytes below [0x80] match when equal or when they are the
    two cases of one letter.  Outside ASCII, simple case folding relates only
    U+017F (bytes [C5 BF]) to [s]/[S] and U+212A (bytes [E2 84 AA]) to [k]/[K]. *)
Definition foldEqByte (a b : ascii) : bool :=
  let x := N.min (N_of_ascii a) (N_of_ascii b) in
  let y := N.max (N_of_ascii a) (N_of_ascii b) in
  N.eqb x y || (N.leb 65 x && N.leb x 90 && N.eqb y (x + 32)).

Definition isLetter (lower : N) (c : ascii) : bool :=
  N.eqb (N_of_ascii c) lower || N.eqb (N_of_ascii c + 32) lower.

Fixpoint EqualFold (s t : string) : bool :=
  match t with
  | EmptyString => match s with EmptyString => true | _ => false end
  | String ct t' =>
      match s with
      | EmptyString => false
      | String cs s' =>
          if N.ltb (N_of_ascii cs) 128 then foldEqByte cs ct && EqualFold s' t'
          else
            match s' with
            | String c2 s2 =>
                if N.eqb (N_of_ascii cs) 197 && N.eqb (N_of_ascii c2) 191 then
                  isLetter 115 ct && EqualFold s2 t'
                else
                  match s2 with
                  | String c3 s3 =>
                      N.eqb (N_of_ascii cs) 226 && N.eqb (N_of_ascii c2) 132
                      && N.eqb (N_of_ascii c3) 170 && isLetter 107 ct && EqualFold s3 t'
                  | EmptyString => false
                  end
            | EmptyString => false
            end
      end
  end.

(** A Go [error]: [None] is [nil]. *)
Definition error := option string.

End Go.

(** ** Values of the script runtime *)

(** What [goja.Value.Export()] hands to Go.  An exported plain object is a
    [map[string]interface{}]; its fields are listed once each, in the order a
    [range] over the map visits them.  A number is only ever passed on or
    tested for not being a boolean, a string, an array or an object, so it is
    kept as an integer. *)
Inductive Value : Type :=
| VUndefined
| VNull
| VBool (b : bool)
| VNumber (n : Z)
| VString (s : string)
| VArray (elems : list Value)
| VObject (fields : list (string * Value)).

(** [m[key]] on an exported object. *)
Fixpoint field (key : string) (fields : list (string * Value)) : option Value :=
  match fields with
  | [] => None
  | (k, v) :: rest => if String.eqb k key then Some v else field key rest
  end.

(** The type assertions [v.(bool)] and [v.(string)] on a map entry. *)
Definition as_bool (v : option Value) : option bool :=
  match v with Some (VBool b) => Some b | _ => None end.

Definition as_string (v : option Value) : option string :=
  match v with Some (VString s) => Some s | _ => None end.

Definition is_empty (s : string) : bool := String.eqb s "".

(** ** The rows the services read and write *)

(** The model structs live outside the three service files; the fields below
    are the ones the services touch, with the Go types they are used at. *)
Module Models.

Inductive OrderStatus : Type :=
| OrderStatusDraft
| OrderStatusPendingPayment
| OrderStatusNeedResubmit
| OrderStatusCompleted
| OrderStatusCancelled
| OrderStatusOther (name : string).

#[global] Instance OrderStatus_eq_dec : EqDecision OrderStatus.
Proof. solve_decision. Defined.

Inductive TicketStatus : Type :=
| TicketStatusOpen
| TicketStatusProcessing
| TicketStatusResolved
| TicketStatusClosed
| TicketStatusOther (name : string).

#[global] Instance TicketStatus_eq_dec : EqDecision TicketStatus.
Proof. solve_decision. Defined.

Record OrderItem := mkOrderItem {
  SKU : string;
  Name : string;
  Quantity : Z;
  ProductType : string
}.

Record Order := mkOrder {
  ID : N;
  OrderNo : string;
  Status : OrderStatus;
  AdminRemark : string;
  TotalAmount : Z;
  Currency : string;
  CreatedAt : Z;
  Items : list OrderItem;
  InventoryBindings : gmap Z N;
  PromoCodeID : option N;
  UserID : option N
}.

Record VirtualInventory := mkVirtualInventory {
  InventoryID : N;
  Script : string;
  ScriptConfig : string
}.

Record User := mkUser {
  UserName : string;
  Email : string;
  Locale : string
}.

End Models.

(** ** Script delivery service *)

Module ScriptDelivery.

Record ScriptDeliveryItem := mkItem { Content : string; Remark : string }.

Record ScriptDeliveryResult := mkResult {
  Success : bool;
  Items : list ScriptDeliveryItem;
  Message : string
}.

(** What a call leaves behind: the returned pointer ([None] is [nil]), the
    returned [error], and the lines handed to [log.Printf]. *)
Record Outcome := mkOutcome {
  ret : option ScriptDeliveryResult;
  err : Go.error;
  logged : list string
}.

(** One turn of the loop over [items]: an entry that is an object with a
    non-empty string [content] is appended, anything else is skipped. *)
Definition appendItem (acc : list ScriptDeliveryItem) (item : Value) : list ScriptDeliveryItem :=
  match item with
  | VObject itemMap =>
      let content := default "" (as_string (field "content" itemMap)) in
      let remark := default "" (as_string (field "remark" itemMap)) in
      if is_empty content then acc else acc ++ [mkItem content remark]
  | _ => acc
  end.

Definition parseItems (obj : list (string * Value)) : list ScriptDeliveryItem :=
  match field "items" obj with
  | Some (VArray arr) => fold_left appendItem arr []
  | _ => []
  end.

Definition mismatchWarning (expectedQty got : Z) : string :=
  "[ScriptDelivery] Warning: expected " ++ Go.fmt_d expectedQty ++ " items, got " ++ Go.fmt_d got.

(** [parseDeliveryResult]; [result = None] is the Go [nil] interface. *)
Definition parseDeliveryResult (result : option Value) (expectedQty : Z) : Outcome :=
  match result with
  | None | Some VUndefined | Some VNull =>
      mkOutcome None (Some "script returned empty result") []
  | Some (VObject obj) =>
      let success := default false (as_bool (field "success" obj)) in
      let message := default "" (as_string (field "message" obj)) in
      if negb success then
        let msg := if is_empty message then "script delivery failed" else message in
        mkOutcome (Some (mkResult success [] message))
                  (Some ("script delivery failed: " ++ msg)) []
      else
        let items := parseItems obj in
        if Nat.eqb (length items) 0 then
          mkOutcome (Some (mkResult success items message))
                    (Some "script returned no delivery items") []
        else
          mkOutcome (Some (mkResult success items message)) None
                    (if Z.eqb (Z.of_nat (length items)) expectedQty then []
                     else [mismatchWarning expectedQty (Z.of_nat (length items))])
  | Some _ =>
      mkOutcome None (Some "script must return an object with {success, items}") []
  end.

(** The items of the returned object as the design document words them: the
    entries of [items] that carry a non-empty [content]. *)
Definition validItem (item : Value) : option ScriptDeliveryItem :=
  match item with
  | VObject itemMap =>
      match as_string (field "content" itemMap) with
      | Some content =>
          if is_empty content then None
          else Some (mkItem content (default "" (as_string (field "remark" itemMap))))
      | None => None
      end
  | _ => None
  end.

Definition validItems (obj : list (string * Value)) : list ScriptDeliveryItem :=
  match field "items" obj with
  | Some (VArray arr) => omap validItem arr
  | _ => []
  end.

(** *** Outbound HTTP on behalf of a script *)

Record Request := mkRequest {
  Method : string;
  Url : string;
  Body : option string;
  Header : gmap string string
}.

(** What [client.Do] answers with: the status, [Header.Get("Content-Type")],
    the bytes of the body, and the error of reading them if there is one. *)
Record Response := mkResponse {
  StatusCode : Z;
  ContentType : string;
  RespBody : string;
  ReadError : Go.error
}.

(** A host function returns a value to the script, having handed some requests
    to the HTTP client, or panics (which the runtime raises in the script as an
    exception). *)
Inductive CallResult : Type :=
| Returns (v : Value) (sent : list Request)
| Panics.

(** [io.LimitReader(r, n)] followed by [io.ReadAll]. *)
Fixpoint limitBytes (n : N) (s : string) : string :=
  match s with
  | EmptyString => EmptyString
  | String c rest => if N.eqb n 0 then EmptyString else String c (limitBytes (N.pred n) rest)
  end.

(** [vm.ToValue(map[string]interface{}{"error": msg, "status": status})]. *)
Definition errorResult (msg : string) (status : Z) : Value :=
  VObject [("error", VString msg); ("status", VNumber status)].

(** [Export()] of an argument: [undefined] and [null] export as [nil]. *)
Definition Export (v : Value) : option Value :=
  match v with
  | VUndefined | VNull => None
  | _ => Some v
  end.

(** [headers[key]] on a [map[string]string], [""] when the key is absent. *)
Fixpoint headerValue (key : string) (headers : list (string * string)) : string :=
  match headers with
  | [] => ""
  | (k, v) :: rest => if String.eqb k key then v else headerValue key rest
  end.

(** [extractHeaders]: the string-valued entries of the object at [idx]. *)
Definition stringEntry (kv : string * Value) : option (string * string) :=
  match kv.2 with
  | VString s => Some (kv.1, s)
  | _ => None
  end.

Definition extractHeaders (args : list Value) (idx : nat) : list (string * string) :=
  if Nat.ltb idx (length args) then
    match args !! idx with
    | Some a =>
        match Export a with
        | Some (VObject h) => omap stringEntry h
        | _ => []
        end
    | None => []
    end
  else [].

(** The entries of the script's header map that the loop passes on to
    [req.Header.Set]: those named neither [Host] nor [Proxy-Authorization],
    whatever the case of the letters. *)
Definition forwarded (kv : string * string) : Prop :=
  Go.EqualFold kv.1 "Host" = false /\ Go.EqualFold kv.1 "Proxy-Authorization" = false.

#[global] Instance forwarded_dec kv : Decision (forwarded kv).
Proof. unfold forwarded. apply _. Defined.

(** The Go standard library and the script runtime, as far as [doHTTPRequest]
    and the [http] functions call them.  A [string + string] result is a value
    or the text of the error.  [validateExternalURL] and the client of
    [newPaymentHTTPClient] are defined in the payment service; here they are
    the egress check and the network. *)
Class Runtime := mkRuntime {
  URL : Type;
  url_Parse : string -> URL + string;
  url_String : URL -> string;
  strings_TrimSpace : string -> string;
  strings_Contains : string -> string -> bool;
  json_Marshal : Value -> string + string;
  json_Unmarshal : string -> option Value;
  http_NewRequest_error : string -> string -> Go.error;
  canonicalHeaderKey : string -> string;
  Value_String : Value -> string;
  validateExternalURL : URL -> Go.error;
  client_Do : Request -> Response + string
}.

Section Http.

Context {rt : Runtime}.

(** The request body and the content type chosen for it. *)
Definition prepareBody (body : option Value) : (option string * string) + string :=
  match body with
  | None => inl (None, "")
  | Some (VString v) =>
      if String.prefix "{" (strings_TrimSpace v) || String.prefix "[" (strings_TrimSpace v)
      then inl (Some v, "application/json")
      else inl (Some v, "text/plain")
  | Some v =>
      match json_Marshal v with
      | inr e => inr e
      | inl jsonBytes => inl (Some jsonBytes, "application/json")
      end
  end.

(** [req.Header.Set(k, v)]. *)
Definition Header_Set (k v : string) (h : gmap string string) : gmap string string :=
  <[canonicalHeaderKey k := v]> h.

Definition skippedHeader (k : string) : bool :=
  Go.EqualFold k "Host" || Go.EqualFold k "Proxy-Authorization".

(** The loop [for k, v := range headers], in the order the range visits the map. *)
Definition setHeader (h : gmap string string) (kv : string * string) : gmap string string :=
  if skippedHeader kv.1 then h else Header_Set kv.1 kv.2 h.

Definition setHeaders (h : gmap string string) (headers : list (string * string)) : gmap string string :=
  fold_left setHeader headers h.

(** The request as it stands just before [client.Do(req)]. *)
Definition buildRequest (method url : string) (reqBody : option string) (contentType : string)
    (headers : list (string * string)) : Request :=
  let h0 := Header_Set "User-Agent" "AuraLogic-ScriptDelivery/1.0" ∅ in
  let h1 := if negb (is_empty contentType) && is_empty (headerValue "Content-Type" headers)
            then Header_Set "Content-Type" contentType h0 else h0 in
  mkRequest method url reqBody (setHeaders h1 headers).

(** The value built from a response that was read in full. *)
Definition responseValue (resp : Response) : Value :=
  let respBody := limitBytes 10485760 (RespBody resp) in
  let result := [("status", VNumber (StatusCode resp)); ("body", VString respBody)] in
  let jsonData := if strings_Contains (ContentType resp) "application/json"
                  then json_Unmarshal respBody else None in
  match jsonData with
  | Some d => VObject (result ++ [("data", d)])
  | None => VObject result
  end.

(** [doHTTPRequest]: the value returned to the script and the requests handed
    to the client. *)
Definition doHTTPRequest (method urlStr : string) (body : option Value)
    (headers : list (string * string)) : Value * list Request :=
  match url_Parse urlStr with
  | inr e => (errorResult ("Invalid URL: " ++ e) 0, [])
  | inl parsedURL =>
      match validateExternalURL parsedURL with
      | Some _ => (errorResult "URL is not allowed" 0, [])
      | None =>
          match prepareBody body with
          | inr e => (errorResult ("Failed to encode body: " ++ e) 0, [])
          | inl (reqBody, contentType) =>
              match http_NewRequest_error method (url_String parsedURL) with
              | Some e => (errorResult ("Failed to create request: " ++ e) 0, [])
              | None =>
                  let req := buildRequest method (url_String parsedURL) reqBody contentType headers in
                  match client_Do req with
                  | inr e => (errorResult ("Request failed: " ++ e) 0, [req])
                  | inl resp =>
                      match ReadError resp with
                      | Some e =>
                          (errorResult ("Failed to read response: " ++ e) (StatusCode resp), [req])
                      | None => (responseValue resp, [req])
                      end
                  end
              end
          end
      end
  end.

Definition returned (r : Value * list Request) : CallResult := Returns r.1 r.2.

(** [AuraLogic.http.get(url, headers?)]. *)
Definition http_get (args : list Value) : CallResult :=
  if Nat.ltb (length args) 1 then Returns (errorResult "URL is required" 0) []
  else
    match args !! 0%nat with
    | None => Panics
    | Some url => returned (doHTTPRequest "GET" (Value_String url) None (extractHeaders args 1))
    end.

(** [AuraLogic.http.post(url, body?, headers?)]. *)
Definition http_post (args : list Value) : CallResult :=
  if Nat.ltb (length args) 1 then Returns (errorResult "URL is required" 0) []
  else
    let body := if Nat.ltb 1 (length args) then args !! 1%nat ≫= Export else None in
    match args !! 0%nat with
    | None => Panics
    | Some url => returned (doHTTPRequest "POST" (Value_String url) body (extractHeaders args 2))
    end.

(** [AuraLogic.http.request(method, url, body?, headers?)]. *)
Definition http_request (args : list Value) : CallResult :=
  if Nat.ltb (length args) 2 then Returns (errorResult "method and URL are required" 0) []
  else
    let body := if Nat.ltb 2 (length args) then args !! 2%nat ≫= Export else None in
    match args !! 0%nat, args !! 1%nat with
    | Some method, Some url =>
        returned (doHTTPRequest (Value_String method) (Value_String url) body (extractHeaders args 3))
    | _, _ => Panics
    end.

End Http.

(** *** Running the delivery script *)

(** What [vm.RunString(script)] leaves in the runtime: an error, or the global
    [onDeliver] if the script defined one as a function.  Calling it yields a
    value ([None] for a Go [nil]) or the error of the call, the interrupt of
    the ten second timer included. *)
Inductive Loaded : Type :=
| LoadError (e : string)
| LoadOk (onDeliver : option (Value -> Value -> option Value + string)).

(** The interpreter and the formatting functions [ExecuteDeliveryScript]
    relies on. *)
Class Interpreter := mkInterpreter {
  vm_RunString : string -> Loaded;
  json_Unmarshal_map : string -> list (string * Value) + string;
  time_Format_RFC3339 : Z -> string;
  OrderStatus_text : Models.OrderStatus -> string
}.

Section Script.

Context {vm : Interpreter}.

(** [orderToJS]. *)
Definition orderToJS (order : Models.Order) (quantity : Z) : Value :=
  VObject [
    ("id", VNumber (Z.of_N (Models.ID order)));
    ("order_no", VString (Models.OrderNo order));
    ("status", VString (OrderStatus_text (Models.Status order)));
    ("total_amount", VNumber (Models.TotalAmount order));
    ("currency", VString (Models.Currency order));
    ("quantity", VNumber quantity);
    ("created_at", VString (time_Format_RFC3339 (Models.CreatedAt order)))
  ].

(** [parseScriptConfig]: the configuration map and the warnings it logs. *)
Definition parseScriptConfig (configJSON : string) : list (string * Value) * list string :=
  if is_empty configJSON then ([], [])
  else
    match json_Unmarshal_map configJSON with
    | inl config => (config, [])
    | inr e => ([], ["[ScriptDelivery] Warning: failed to parse script_config JSON: " ++ e])
    end.

Definition failure (e : string) (lines : list string) : Outcome := mkOutcome None (Some e) lines.

Definition withLog (lines : list string) (o : Outcome) : Outcome :=
  mkOutcome (ret o) (err o) (lines ++ logged o).

(** [ExecuteDeliveryScript].  [registerAPIs] parses the configuration once for
    [AuraLogic.config]; it is parsed again for the argument of [onDeliver]. *)
Definition ExecuteDeliveryScript (inventory : Models.VirtualInventory) (order : Models.Order)
    (quantity : Z) : Outcome :=
  if is_empty (Models.Script inventory) then
    failure ("inventory " ++ Go.fmt_d (Z.of_N (Models.InventoryID inventory)) ++ " has no script") []
  else
    let registered := (parseScriptConfig (Models.ScriptConfig inventory)).2 in
    match vm_RunString (Models.Script inventory) with
    | LoadError e => failure ("script execution error: " ++ e) registered
    | LoadOk None => failure "onDeliver function not found in script" registered
    | LoadOk (Some fn) =>
        let orderData := orderToJS order quantity in
        let configData := parseScriptConfig (Models.ScriptConfig inventory) in
        match fn orderData (VObject configData.1) with
        | inr e => failure ("onDeliver execution error: " ++ e) (registered ++ configData.2)
        | inl result => withLog (registered ++ configData.2) (parseDeliveryResult result quantity)
        end
    end.

End Script.

(** *** The configuration API *)

Section ConfigAPI.

Context {rt : Runtime} {vm : Interpreter}.

(** [AuraLogic.config.get(key?, default?)] as [registerAPIs] defines it over
    the parsed [script_config]. *)
Definition config_get (configJSON : string) (args : list Value) : CallResult :=
  let configData := (parseScriptConfig configJSON).1 in
  if Nat.ltb (length args) 1 then Returns (VObject configData) []
  else
    match args !! 0%nat with
    | None => Panics
    | Some key =>
        match field (Value_String key) configData with
        | Some val => Returns val []
        | None =>
            if Nat.ltb 1 (length args) then
              match args !! 1%nat with
              | Some fallback => Returns fallback []
              | None => Panics
              end
            else Returns VUndefined []
        end
    end.

End ConfigAPI.

(** A runtime to evaluate the calls in: URLs parse to themselves, the egress
    check refuses the loopback and the link-local metadata address, and every
    request is answered with status 200. *)
Module Demo.

Definition same (s : string) : string := s.
Definition text (v : Value) : string := match v with VString s => s | _ => "" end.
Definition validate (u : string) : Go.error :=
  if String.prefix "http://127.0.0.1" u || String.prefix "http://169.254.169.254" u
  then Some "destination is not allowed" else None.
Definition answer (r : Request) : Response + string := inl (mkResponse 200 "text/plain" "ok" None).

Definition runtime : Runtime :=
  mkRuntime string inl same same (fun _ _ => false) (fun _ => inl "{}") (fun _ => None)
    (fun _ _ => None) same text validate answer.

End Demo.

(** An interpreter to evaluate the calls in: the script defines an [onDeliver]
    that hands out one key, and only the configuration [{'region':'eu'}]
    parses. *)
Module Keys.

Definition onDeliver (order config : Value) : option Value + string :=
  inl (Some (VObject [("success", VBool true);
                      ("items", VArray [VObject [("content", VString "KEY-001")]])])).

Definition unmarshal (s : string) : list (string * Value) + string :=
  if String.eqb s "{'region':'eu'}" then inl [("region", VString "eu")]
  else inr "invalid character".

Definition interpreter : Interpreter :=
  mkInterpreter (fun _ => LoadOk (Some onDeliver)) unmarshal
    (fun _ => "2026-01-01T00:00:00Z") (fun _ => "paid").

Definition inventory (config : string) : Models.VirtualInventory :=
  Models.mkVirtualInventory 7 "function onDeliver() { ... }" config.

Definition order : Models.Order :=
  Models.mkOrder 1 "A-1" (Models.OrderStatusOther "paid") "" 100 "USD" 0 [] ∅ None None.

End Keys.

End ScriptDelivery.

(** ** The stock ledger and the pending delivery quantity *)

(** [virtual_inventory_service.go] is not among the files embedded here.  Its
    data and the operations below follow the design document (sections 3, 4.1
    to 4.3) and the script delivery notes, where an order's bindings map an
    item index to a pool and the quantity is the one of the order item. *)
Module VirtualInventory.

(** Modelled from the spec: the kind of an [InventoryPool] (section 3). *)
Inductive PoolKind : Type := Static | Script.

(** Modelled from the spec: the status of a [StockItem] (section 3). *)
Inductive StockStatus : Type := Available | Reserved | Sold | Invalid.

#[global] Instance PoolKind_eq_dec : EqDecision PoolKind.
Proof. solve_decision. Defined.

#[global] Instance StockStatus_eq_dec : EqDecision StockStatus.
Proof. solve_decision. Defined.

(** Modelled from the spec: an [InventoryPool] (section 3), with its
    identifier, its kind and its running sold counter. *)
Record InventoryPool := mkPool {
  PoolID : N;
  Kind : PoolKind;
  SoldCount : Z
}.

(** Modelled from the spec: a [StockItem] (section 3), with its pool, content,
    remark, status and optional order reference. *)
Record StockItem := mkStock {
  StockPool : N;
  StockContent : string;
  StockRemark : string;
  StockStatusOf : StockStatus;
  OrderRef : option string
}.

(** Modelled from the spec: a [Binding] (section 3).  The item of the order
    at [ItemIndex] is fulfilled from the script pool [BoundPool], in the
    quantity [BoundQuantity]. *)
Record Binding := mkBinding {
  ItemIndex : Z;
  BoundPool : N;
  BoundQuantity : Z
}.

(** Modelled from the spec: the durable state the core owns (section 6), the
    inventory pools and the stock items. *)
Record Ledger := mkLedger {
  Pools : list InventoryPool;
  Stock : list StockItem
}.

(** Modelled from the spec: the kind of the pool a stock item belongs to. *)
Definition poolKind (L : Ledger) (pool : N) : option PoolKind :=
  Kind <$> head (filter (fun p => PoolID p = pool) (Pools L)).

(** Modelled from the spec: the legacy path of [PendingDeliveryQuantity]
    (section 4.3), the stock rows with status [reserved] whose pool is of kind
    [script] and whose order reference matches. *)
Definition legacyPlaceholder (L : Ledger) (orderNo : string) (s : StockItem) : Prop :=
  StockStatusOf s = Reserved /\ OrderRef s = Some orderNo /\ poolKind L (StockPool s) = Some Script.

#[global] Instance legacyPlaceholder_dec L orderNo s : Decision (legacyPlaceholder L orderNo s).
Proof. unfold legacyPlaceholder. apply _. Defined.

(** Modelled from the spec: the count of the legacy path (section 4.3). *)
Definition legacyReserved (L : Ledger) (orderNo : string) : Z :=
  Z.of_nat (length (filter (legacyPlaceholder L orderNo) (Stock L))).

(** Modelled from the spec: the sold quantity the Binding Tracker obtains from
    the ledger, filtered by order reference and pool (section 4.2). *)
Definition soldTo (orderNo : string) (pool : N) (s : StockItem) : Prop :=
  StockStatusOf s = Sold /\ OrderRef s = Some orderNo /\ StockPool s = pool.

#[global] Instance soldTo_dec orderNo pool s : Decision (soldTo orderNo pool s).
Proof. unfold soldTo. apply _. Defined.

(** Modelled from the spec: the already-sold quantity of a pool for an order
    (section 4.2). *)
Definition soldFor (L : Ledger) (orderNo : string) (pool : N) : Z :=
  Z.of_nat (length (filter (soldTo orderNo pool) (Stock L))).

(** Modelled from the spec: the bindings of an order grouped by pool, each
    pool with the sum of the quantities bound to it. *)
Definition addBinding (b : Binding) (m : gmap N Z) : gmap N Z :=
  <[BoundPool b := BoundQuantity b + default 0 (m !! BoundPool b)]> m.

(** Modelled from the spec: the bound quantity of every pool an order is
    bound to (section 4.2). *)
Definition boundQuantities (bindings : list Binding) : gmap N Z :=
  foldr addBinding ∅ bindings.

(** Modelled from the spec: [PendingFor] of the Binding Tracker (section 4.2),
    per pool the bound quantity minus the quantity already sold to the order. *)
Definition PendingFor (L : Ledger) (orderNo : string) (bindings : list Binding) : gmap N Z :=
  map_imap (fun pool bound => Some (bound - soldFor L orderNo pool)) (boundQuantities bindings).

(** Modelled from the spec: "summed across pools" (section 4.3). *)
Definition sumAcrossPools (m : gmap N Z) : Z :=
  map_fold (fun _ q acc => q + acc) 0 m.

(** Modelled from the spec: [PendingDeliveryQuantity] of the Allocation
    Service (section 4.3), the legacy count plus [PendingFor] summed across
    pools.  The function it stands for is [HasPendingVirtualStock] and its
    helpers in [virtual_inventory_service.go]. *)
Definition PendingDeliveryQuantity (L : Ledger) (orderNo : string) (bindings : list Binding) : Z :=
  legacyReserved L orderNo + sumAcrossPools (PendingFor L orderNo bindings).

(** Modelled from the spec: [CreateSold] of the Stock Ledger (section 4.1),
    rows inserted already [sold] and the pool's sold counter advanced. *)
Definition soldRow (pool : N) (orderNo : string) (di : ScriptDelivery.ScriptDeliveryItem) : StockItem :=
  mkStock pool (ScriptDelivery.Content di) (ScriptDelivery.Remark di) Sold (Some orderNo).

(** Modelled from the spec: the increment of the pool's sold counter by
    [CreateSold] (section 4.1). *)
Definition countSold (pool : N) (n : Z) (p : InventoryPool) : InventoryPool :=
  if N.eqb (PoolID p) pool then mkPool (PoolID p) (Kind p) (SoldCount p + n) else p.

(** Modelled from the spec: [CreateSold] (section 4.1). *)
Definition CreateSold (L : Ledger) (pool : N) (orderNo : string)
    (items : list ScriptDelivery.ScriptDeliveryItem) : Ledger :=
  mkLedger (countSold pool (Z.of_nat (length items)) <$> Pools L)
           (Stock L ++ (soldRow pool orderNo <$> items)).

(** The quantities the properties compare with: the sum of a list, the
    quantity bound to one pool, and the rows sold to an order from the pools
    it is bound to. *)
Definition sumZ (l : list Z) : Z := foldr Z.add 0 l.

Definition boundFor (bindings : list Binding) (pool : N) : Z :=
  sumZ (BoundQuantity <$> filter (fun b => BoundPool b = pool) bindings).

Definition soldInBoundPools (orderNo : string) (bindings : list Binding) (s : StockItem) : Prop :=
  StockStatusOf s = Sold /\ OrderRef s = Some orderNo /\ StockPool s ∈ (BoundPool <$> bindings).

#[global] Instance soldInBoundPools_dec orderNo bindings s :
  Decision (soldInBoundPools orderNo bindings s).
Proof. unfold soldInBoundPools. apply _. Defined.

(** *** Delivering from a script pool *)

Section ScriptPools.

Context {vm : ScriptDelivery.Interpreter}.

(** Modelled from the spec: the script phase of [Deliver] for one pool
    (section 4.3).  The script runs once for the pending quantity; its
    validated items become [sold] rows through [CreateSold]; a failed attempt
    is reported to the caller and creates no rows (section 4.4, step 6).  The
    function it stands for is [executeScriptDelivery] in
    [virtual_inventory_service.go]. *)
Definition deliverScriptPool (L : Ledger) (inventory : Models.VirtualInventory)
    (order : Models.Order) (quantity : Z) : Ledger * Go.error :=
  let o := ScriptDelivery.ExecuteDeliveryScript inventory order quantity in
  match ScriptDelivery.err o with
  | Some e => (L, Some e)
  | None =>
      let items := from_option ScriptDelivery.Items [] (ScriptDelivery.ret o) in
      (CreateSold L (Models.InventoryID inventory) (Models.OrderNo order) items, None)
  end.

End ScriptPools.

(** The script of the design document's scenario, which reports "no stock". *)
Module NoStock.

Definition onDeliver (order config : Value) : option Value + string :=
  inl (Some (VObject [("success", VBool false); ("message", VString "no stock")])).

Definition interpreter : ScriptDelivery.Interpreter :=
  ScriptDelivery.mkInterpreter
    (fun _ => ScriptDelivery.LoadOk (Some onDeliver)) (fun _ => inl [])
    (fun _ => "2026-01-01T00:00:00Z") (fun _ => "paid").

Definition inventory : Models.VirtualInventory :=
  Models.mkVirtualInventory 7 "function onDeliver() { return {success: false, message: 'no stock'} }" "".
Definition order : Models.Order :=
  Models.mkOrder 1 "A-1" (Models.OrderStatusOther "paid") "" 100 "USD" 0 [] ∅ None None.
Definition ledger : Ledger := mkLedger [mkPool 7 Script 0] [].

End NoStock.

End VirtualInventory.

(** ** Order auto-cancel service *)

Module OrderCancel.

Import Models.

Definition defaultAutoCancelHours : Z := 72.

(** The service: [cfg.Order.AutoCancelHours], and which of the optional
    collaborators are set (not [nil]). *)
Record OrderCancelService := mkService {
  AutoCancelHours : Z;
  virtualInventorySvc : bool;
  promoCodeRepo : bool;
  serialService : bool
}.

(** The calls [cancelOrder] makes to release what an order holds. *)
Inductive Call : Type :=
| InventoryReleaseReserve (inventoryID : N) (quantity : Z) (orderNo : string)
| VirtualReleaseStock (orderNo : string)
| PromoCodeReleaseReserve (promoCodeID : N) (orderNo : string)
| DeleteSerialsByOrderID (orderID : N).

(** What may go wrong outside the service during one run: the query of the
    sweep, the status update of an order, and each release call. *)
Record Faults := mkFaults {
  queryError : Go.error;
  updateError : Order -> Go.error;
  callError : Call -> Go.error
}.

(** What a run leaves behind besides the orders table, in program order. *)
Inductive Event : Type :=
| Attempt (c : Call) (result : Go.error)
| Printf (line : string)
| PaymentOperation (action : string) (orderID : N) (orderNo : string)
| SystemOperation (action : string) (cancelledCount : Z) (hours : Z) (cutoffTime : Z).

(** [getAutoCancelHours]. *)
Definition getAutoCancelHours (s : OrderCancelService) : Z :=
  if Z.ltb 0 (AutoCancelHours s) then AutoCancelHours s else defaultAutoCancelHours.

(** [db.Model(order).Where("status = ?", OrderStatusPendingPayment).Updates(...)]:
    the rows with the primary key of [order] whose status is still
    [pending_payment] get the new status and remark; [RowsAffected] counts them. *)
Definition stillPending (order row : Order) : bool :=
  N.eqb (ID row) (ID order) && bool_decide (Status row = OrderStatusPendingPayment).

Definition cancelled (adminRemark : string) (row : Order) : Order :=
  mkOrder (ID row) (OrderNo row) OrderStatusCancelled adminRemark (TotalAmount row)
          (Currency row) (CreatedAt row) (Items row) (InventoryBindings row)
          (PromoCodeID row) (UserID row).

Definition updateRow (order : Order) (adminRemark : string) (row : Order) : Order :=
  if stillPending order row then cancelled adminRemark row else row.

Definition conditionalCancel (order : Order) (adminRemark : string) (rows : list Order) : list Order :=
  updateRow order adminRemark <$> rows.

Definition RowsAffected (order : Order) (rows : list Order) : nat :=
  length (filter (fun row => stillPending order row = true) rows).

(** A release call, and the line logged when it fails. *)
Definition attempt (f : Faults) (c : Call) (line : string -> string) : list Event :=
  match callError f c with
  | Some e => [Attempt c (Some e); Printf (line e)]
  | None => [Attempt c None]
  end.

(** The loop over [order.Items]: item [i] is released when
    [order.InventoryBindings[i]] exists and is positive. *)
Definition releaseItem (f : Faults) (order : Order) (i : nat) (item : OrderItem) : list Event :=
  match InventoryBindings order !! Z.of_nat i with
  | Some inventoryID =>
      if N.ltb 0 inventoryID then
        attempt f (InventoryReleaseReserve inventoryID (Quantity item) (OrderNo order))
          (fun e => "[OrderCancel] Order " ++ OrderNo order ++ " failed to release inventory "
                    ++ Go.fmt_d (Z.of_N inventoryID) ++ ": " ++ e)
      else []
  | None => []
  end.

Definition releaseInventory (f : Faults) (order : Order) : list Event :=
  mjoin (imap (releaseItem f order) (Items order)).

Definition releaseVirtualStock (s : OrderCancelService) (f : Faults) (order : Order) : list Event :=
  if virtualInventorySvc s then
    attempt f (VirtualReleaseStock (OrderNo order))
      (fun e => "[OrderCancel] Order " ++ OrderNo order ++ " failed to release virtual stock: " ++ e)
  else [].

Definition releasePromoCode (s : OrderCancelService) (f : Faults) (order : Order) : list Event :=
  match PromoCodeID order with
  | Some promoCodeID =>
      if promoCodeRepo s then
        attempt f (PromoCodeReleaseReserve promoCodeID (OrderNo order))
          (fun e => "[OrderCancel] Order " ++ OrderNo order ++ " failed to release promo code: " ++ e)
      else []
  | None => []
  end.

Definition deleteSerials (s : OrderCancelService) (f : Faults) (order : Order) : list Event :=
  if serialService s then
    attempt f (DeleteSerialsByOrderID (ID order))
      (fun e => "[OrderCancel] Order " ++ OrderNo order ++ " failed to delete serials: " ++ e)
  else [].

Definition orderAutoCancelled (order : Order) : Event :=
  PaymentOperation "order_auto_cancelled" (ID order) (OrderNo order).

(** Everything [cancelOrder] does once the status is updated. *)
Definition releaseResources (s : OrderCancelService) (f : Faults) (order : Order) : list Event :=
  (releaseInventory f order ++ releaseVirtualStock s f order ++ releasePromoCode s f order
   ++ deleteSerials s f order ++ [orderAutoCancelled order])%list.

Definition cancelError (order : Order) (e : string) : Event :=
  Printf ("[OrderCancel] Error cancelling order " ++ OrderNo order ++ ": " ++ e).

(** [cancelOrder]: the orders table afterwards, the returned error, and the
    events of the call. *)
Definition cancelOrder (s : OrderCancelService) (f : Faults) (rows : list Order)
    (order : Order) (autoCancelHours : Z) : list Order * Go.error * list Event :=
  let adminRemark :=
    "System auto-cancelled: order unpaid after " ++ Go.fmt_d autoCancelHours ++ " hours" in
  match updateError f order with
  | Some e => (rows, Some e, [])
  | None =>
      if Nat.eqb (RowsAffected order rows) 0 then
        (conditionalCancel order adminRemark rows, None, [])
      else
        (conditionalCancel order adminRemark rows, None, releaseResources s f order)
  end.

(** The sweep's query: [status = pending_payment AND created_at < cutoff],
    at most 100 rows. *)
Definition expired (cutoffTime : Z) (row : Order) : Prop :=
  Status row = OrderStatusPendingPayment /\ CreatedAt row < cutoffTime.

#[global] Instance expired_dec cutoffTime row : Decision (expired cutoffTime row).
Proof. unfold expired. apply _. Defined.

Definition expiredOrders (cutoffTime : Z) (rows : list Order) : list Order :=
  take 100 (filter (expired cutoffTime) rows).

(** The loop of [cancelExpiredOrders] over the orders it found. *)
Definition cancelNext (s : OrderCancelService) (f : Faults) (autoCancelHours : Z)
    (acc : list Order * list Event * Z) (order : Order) : list Order * list Event * Z :=
  let '(rows, events, cancelledCount) := acc in
  match cancelOrder s f rows order autoCancelHours with
  | (rows', Some e, evs) =>
      (rows', (events ++ evs ++ [cancelError order e])%list, cancelledCount)
  | (rows', None, evs) => (rows', (events ++ evs)%list, cancelledCount + 1)
  end.

Definition cutoff (now autoCancelHours : Z) : Z :=
  Go.time_Add now (Go.minus_hours autoCancelHours).

(** [cancelExpiredOrders] at the instant [now]. *)
Definition cancelExpiredOrders (s : OrderCancelService) (f : Faults) (now : Z)
    (rows : list Order) : list Order * list Event :=
  let autoCancelHours := getAutoCancelHours s in
  let cutoffTime := cutoff now autoCancelHours in
  match queryError f with
  | Some e => (rows, [Printf ("[OrderCancel] Error querying expired orders: " ++ e)])
  | None =>
      let orders := expiredOrders cutoffTime rows in
      if Nat.eqb (length orders) 0 then (rows, [])
      else
        let '(rows', events, cancelledCount) :=
          fold_left (cancelNext s f autoCancelHours) orders (rows, [], 0) in
        (rows',
         if Z.ltb 0 cancelledCount
         then (events ++ [SystemOperation "order_auto_cancel" cancelledCount
                            autoCancelHours cutoffTime])%list
         else events)
  end.

(** *** What the properties count *)

(** The release calls among the events, in order. *)
Definition attempted (e : Event) : option Call :=
  match e with
  | Attempt c _ => Some c
  | _ => None
  end.

Definition releases (events : list Event) : list Call := omap attempted events.

(** The releases [cancelOrder] is to attempt for an order, read off the order
    and the service alone. *)
Definition plannedItem (order : Order) (i : nat) (item : OrderItem) : list Call :=
  match InventoryBindings order !! Z.of_nat i with
  | Some inventoryID =>
      if decide (0 < inventoryID)%N
      then [InventoryReleaseReserve inventoryID (Quantity item) (OrderNo order)] else []
  | None => []
  end.

Definition plannedReleases (s : OrderCancelService) (order : Order) : list Call :=
  (mjoin (imap (plannedItem order) (Items order))
   ++ (if virtualInventorySvc s then [VirtualReleaseStock (OrderNo order)] else [])
   ++ (match PromoCodeID order with
       | Some promoCodeID =>
           if promoCodeRepo s then [PromoCodeReleaseReserve promoCodeID (OrderNo order)] else []
       | None => []
       end)
   ++ (if serialService s then [DeleteSerialsByOrderID (ID order)] else []))%list.

(** How many times the events record the cancellation of the order [i]. *)
Definition isCancellation (i : N) (e : Event) : bool :=
  match e with
  | PaymentOperation _ orderID _ => N.eqb orderID i
  | _ => false
  end.

Definition cancellations (i : N) (events : list Event) : nat :=
  length (filter (fun e => isCancellation i e = true) events).

(** Whether the table holds a row of the order [i] that is still pending. *)
Definition pendingRow (i : N) (row : Order) : bool :=
  N.eqb (ID row) i && bool_decide (Status row = OrderStatusPendingPayment).

Definition hasPending (i : N) (rows : list Order) : bool := existsb (pendingRow i) rows.

Definition adminRemark (autoCancelHours : Z) : string :=
  "System auto-cancelled: order unpaid after " ++ Go.fmt_d autoCancelHours ++ " hours".

(** The line logged when the release [c] of [order] fails with [e]. *)
Definition failureLine (order : Order) (c : Call) (e : string) : string :=
  match c with
  | InventoryReleaseReserve inventoryID _ _ =>
      "[OrderCancel] Order " ++ OrderNo order ++ " failed to release inventory "
      ++ Go.fmt_d (Z.of_N inventoryID) ++ ": " ++ e
  | VirtualReleaseStock _ =>
      "[OrderCancel] Order " ++ OrderNo order ++ " failed to release virtual stock: " ++ e
  | PromoCodeReleaseReserve _ _ =>
      "[OrderCancel] Order " ++ OrderNo order ++ " failed to release promo code: " ++ e
  | DeleteSerialsByOrderID _ =>
      "[OrderCancel] Order " ++ OrderNo order ++ " failed to delete serials: " ++ e
  end.

(** A planned release as it shows in the events: the attempt, followed by a
    log line when it failed. *)
Definition outcome (f : Faults) (order : Order) (c : Call) : list Event :=
  attempt f c (failureLine order c).

(** The orders of a batch whose status update did not fail. *)
Definition updated (f : Faults) (orders : list Order) : list Order :=
  filter (fun o => updateError f o = None) orders.

(** A row after a batch has been processed: cancelled when it was pending and
    an order of the batch with its primary key was updated, untouched
    otherwise. *)
Definition sweptRow (remark : string) (processed : list Order) (row : Order) : Order :=
  if bool_decide (Status row = OrderStatusPendingPayment)
     && existsb (fun o => N.eqb (ID row) (ID o)) processed
  then cancelled remark row else row.

(** One when the table holds a pending row of the order [i], zero otherwise. *)
Definition pendingUnits (i : N) (rows : list Order) : nat :=
  if hasPending i rows then 1%nat else 0%nat.

(** The orders the events record as cancelled, and the summaries written by
    [LogSystemOperation], both in program order. *)
Definition cancelledOrder (e : Event) : option N :=
  match e with
  | PaymentOperation _ orderID _ => Some orderID
  | _ => None
  end.

Definition cancelledOrders (events : list Event) : list N := omap cancelledOrder events.

Definition summary (e : Event) : option (string * Z * Z * Z) :=
  match e with
  | SystemOperation action cancelledCount hours cutoffTime =>
      Some (action, cancelledCount, hours, cutoffTime)
  | _ => None
  end.

Definition summaries (events : list Event) : list (string * Z * Z * Z) := omap summary events.

(** *** A shop with one stale order *)

Module Shop.

Definition service : OrderCancelService := mkService 0 true true true.

(** Order 1 was created at instant 0 and never paid; it holds two units of
    inventory 5 for its first item and a promo code.  Order 2 is completed. *)
Definition stale : Order :=
  mkOrder 1 "A-1" OrderStatusPendingPayment "" 1999 "USD" 0
    [mkOrderItem "sku-1" "Key" 2 "virtual"; mkOrderItem "sku-2" "Box" 1 "physical"]
    {[0 := 5%N]} (Some 9%N) None.

Definition done : Order :=
  mkOrder 2 "A-2" OrderStatusCompleted "" 500 "USD" 0 [] ∅ None None.

Definition orders : list Order := [stale; done].

(** Eighty hours later. *)
Definition now : Z := 80 * Go.Hour.

(** The database answers, and releasing the virtual stock fails. *)
Definition faults : Faults :=
  mkFaults None (fun _ => None)
    (fun c => match c with VirtualReleaseStock _ => Some "connection refused" | _ => None end).

End Shop.

End OrderCancel.

(** ** Ticket auto-close service *)

Module TicketAutoClose.

Import Models.

Record Ticket := mkTicket {
  TicketID : N;
  TicketNo : string;
  TicketStatusOf : TicketStatus;
  ClosedAt : option Z;
  LastMessageAt : option Z;
  LastMessagePreview : string;
  LastMessageBy : string;
  UnreadCountUser : Z;
  TicketUser : option User
}.

Record TicketMessage := mkTicketMessage {
  MessageTicketID : N;
  SenderType : string;
  SenderID : N;
  SenderName : string;
  MessageContent : string;
  MessageContentType : string;
  IsReadByUser : bool;
  IsReadByAdmin : bool
}.

(** The two tables the service writes. *)
Record DB := mkDB {
  tickets : list Ticket;
  messages : list TicketMessage
}.

(** What the database may refuse during one run. *)
Record Faults := mkFaults {
  queryError : Go.error;
  statusUpdateError : Ticket -> Go.error;
  createError : Ticket -> Go.error;
  counterUpdateError : Ticket -> Go.error;
  commitError : Ticket -> Go.error
}.

Inductive Event : Type :=
| Printf (line : string)
| SystemOperation (action : string) (closedCount : Z) (hours : Z) (cutoffTime : Z).

Definition activeStatuses : list TicketStatus :=
  [TicketStatusOpen; TicketStatusProcessing; TicketStatusResolved].

(** [ticketAutoCloseMessage]. *)
Definition ticketAutoCloseMessage (user : option User) (hours : Z) : string :=
  let locale := match user with Some u => Locale u | None => "" end in
  if String.eqb locale "zh"
  then "工单已超过 " ++ Go.fmt_d hours ++ " 小时无回复，系统自动关闭。"
  else "Ticket automatically closed after " ++ Go.fmt_d hours ++ " hours with no reply.".

(** [db.Transaction(fn)]: the writes of [fn] are kept when it returns [nil]
    and the commit succeeds, and are all undone otherwise. *)
Definition Transaction (db : DB) (commit : Go.error) (fn : DB -> DB * Go.error) : DB * Go.error :=
  match fn db with
  | (_, Some e) => (db, Some e)
  | (tx, None) =>
      match commit with
      | Some e => (db, Some e)
      | None => (tx, None)
      end
  end.

(** [tx.Model(ticket).Where("status IN ?", statuses).Updates(status, closed_at)]. *)
Definition stillActive (statuses : list TicketStatus) (ticket row : Ticket) : bool :=
  N.eqb (TicketID row) (TicketID ticket) && bool_decide (TicketStatusOf row ∈ statuses).

Definition closeRow (now : Z) (row : Ticket) : Ticket :=
  mkTicket (TicketID row) (TicketNo row) TicketStatusClosed (Some now) (LastMessageAt row)
           (LastMessagePreview row) (LastMessageBy row) (UnreadCountUser row) (TicketUser row).

Definition updateStatus (statuses : list TicketStatus) (ticket : Ticket) (now : Z)
    (rows : list Ticket) : list Ticket :=
  (fun row => if stillActive statuses ticket row then closeRow now row else row) <$> rows.

Definition RowsAffected (statuses : list TicketStatus) (ticket : Ticket) (rows : list Ticket) : nat :=
  length (filter (fun row => stillActive statuses ticket row = true) rows).

(** [tx.Model(ticket).Updates(unread_count_user + 1, last_message_at, ...)]. *)
Definition noteMessage (now : Z) (preview : string) (row : Ticket) : Ticket :=
  mkTicket (TicketID row) (TicketNo row) (TicketStatusOf row) (ClosedAt row) (Some now)
           preview "admin" (UnreadCountUser row + 1) (TicketUser row).

Definition updateCounters (ticket : Ticket) (now : Z) (preview : string)
    (rows : list Ticket) : list Ticket :=
  (fun row => if N.eqb (TicketID row) (TicketID ticket) then noteMessage now preview row else row)
    <$> rows.

Definition systemMessage (ticket : Ticket) (msgContent : string) : TicketMessage :=
  mkTicketMessage (TicketID ticket) "admin" 0 "System" msgContent "text" false true.

(** The function [closeTicket] runs inside the transaction. *)
Definition closeTicketTx (f : Faults) (ticket : Ticket) (autoCloseHours : Z) (now : Z)
    (statuses : list TicketStatus) (tx : DB) : DB * Go.error :=
  match statusUpdateError f ticket with
  | Some e => (tx, Some e)
  | None =>
      let tx1 := mkDB (updateStatus statuses ticket now (tickets tx)) (messages tx) in
      if Nat.eqb (RowsAffected statuses ticket (tickets tx)) 0 then (tx1, None)
      else
        let msgContent := ticketAutoCloseMessage (TicketUser ticket) autoCloseHours in
        match createError f ticket with
        | Some e => (tx1, Some e)
        | None =>
            let tx2 := mkDB (tickets tx1) (messages tx1 ++ [systemMessage ticket msgContent]) in
            let preview := Go.truncate 200 msgContent in
            match counterUpdateError f ticket with
            | Some e => (tx2, Some e)
            | None => (mkDB (updateCounters ticket now preview (tickets tx2)) (messages tx2), None)
            end
        end
  end.

(** [closeTicket]. *)
Definition closeTicket (f : Faults) (db : DB) (ticket : Ticket) (autoCloseHours : Z) (now : Z)
    (statuses : list TicketStatus) : DB * Go.error :=
  Transaction db (commitError f ticket) (closeTicketTx f ticket autoCloseHours now statuses).

(** The sweep's query: [status IN ? AND last_message_at IS NOT NULL AND
    last_message_at < ?], at most 100 rows. *)
Definition inactive (cutoff : Z) (row : Ticket) : Prop :=
  TicketStatusOf row ∈ activeStatuses /\
  match LastMessageAt row with
  | Some t => t < cutoff
  | None => False
  end.

#[global] Instance inactive_dec cutoff row : Decision (inactive cutoff row).
Proof. unfold inactive. destruct (LastMessageAt row); apply _. Defined.

Definition inactiveTickets (cutoff : Z) (rows : list Ticket) : list Ticket :=
  take 100 (filter (inactive cutoff) rows).

Definition closeNext (f : Faults) (autoCloseHours now : Z)
    (acc : DB * list Event * Z) (ticket : Ticket) : DB * list Event * Z :=
  let '(db, events, closedCount) := acc in
  match closeTicket f db ticket autoCloseHours now activeStatuses with
  | (db', Some e) =>
      (db', (events ++ [Printf ("[TicketAutoClose] Error closing ticket "
                                ++ TicketNo ticket ++ ": " ++ e)%string])%list, closedCount)
  | (db', None) => (db', events, closedCount + 1)
  end.

(** [closeInactiveTickets]; the clock is read twice, first for the cutoff
    ([clock1]) and then for the closing time ([clock2]). *)
Definition closeInactiveTickets (autoCloseHours : Z) (f : Faults) (clock1 clock2 : Z)
    (db : DB) : DB * list Event :=
  if Z.leb autoCloseHours 0 then (db, [])
  else
    let cutoff := Go.time_Add clock1 (Go.minus_hours autoCloseHours) in
    match queryError f with
    | Some e => (db, [Printf ("[TicketAutoClose] Error querying inactive tickets: " ++ e)])
    | None =>
        let found := inactiveTickets cutoff (tickets db) in
        if Nat.eqb (length found) 0 then (db, [])
        else
          let '(db', events, closedCount) :=
            fold_left (closeNext f autoCloseHours clock2) found (db, [], 0) in
          (db',
           if Z.ltb 0 closedCount
           then (events ++ [SystemOperation "ticket_auto_close" closedCount autoCloseHours cutoff])%list
           else events)
    end.

(** The database after a close that went through: the status update, the
    system message and the counter update, all three. *)
Definition closedDB (db : DB) (ticket : Ticket) (autoCloseHours now : Z) : DB :=
  let msgContent := ticketAutoCloseMessage (TicketUser ticket) autoCloseHours in
  mkDB (updateCounters ticket now (Go.truncate 200 msgContent)
          (updateStatus activeStatuses ticket now (tickets db)))
       (messages db ++ [systemMessage ticket msgContent]).

(** *** What the properties of a sweep speak of *)

(** The error [closeTicket] returns for a ticket whose status update affects
    a row: the first of the status update, the insert, the counter update and
    the commit that fails. *)
Definition closeError (f : Faults) (ticket : Ticket) : Go.error :=
  match statusUpdateError f ticket with
  | Some e => Some e
  | None =>
      match createError f ticket with
      | Some e => Some e
      | None =>
          match counterUpdateError f ticket with
          | Some e => Some e
          | None => commitError f ticket
          end
      end
  end.

Definition closedTickets (f : Faults) (found : list Ticket) : list Ticket :=
  filter (fun t => closeError f t = None) found.

Definition errorLine (f : Faults) (ticket : Ticket) : option Event :=
  match closeError f ticket with
  | Some e => Some (Printf ("[TicketAutoClose] Error closing ticket " ++ TicketNo ticket ++ ": " ++ e))
  | None => None
  end.

Definition errorLines (f : Faults) (found : list Ticket) : list Event := omap (errorLine f) found.

(** The system message of a ticket, and the row of a ticket after it was
    closed and the message was noted on it. *)
Definition autoCloseMessage (hours : Z) (ticket : Ticket) : TicketMessage :=
  systemMessage ticket (ticketAutoCloseMessage (TicketUser ticket) hours).

Definition closedRow (hours now : Z) (row : Ticket) : Ticket :=
  noteMessage now (Go.truncate 200 (ticketAutoCloseMessage (TicketUser row) hours))
    (closeRow now row).

Definition sameTicket (row ticket : Ticket) : bool := N.eqb (TicketID row) (TicketID ticket).

Definition sweptTicket (hours now : Z) (closed : list Ticket) (row : Ticket) : Ticket :=
  if existsb (sameTicket row) closed then closedRow hours now row else row.

(** *** A help desk with three tickets *)

Module Desk.

Definition reader : User := mkUser "Li" "li@example.com" "zh".

(** Ticket 1 went quiet at instant 0; ticket 2 never had a message; ticket 3
    is already closed. *)
Definition quiet : Ticket :=
  mkTicket 1 "T-1" TicketStatusOpen None (Some 0) "hello" "user" 0 (Some reader).
Definition silent : Ticket :=
  mkTicket 2 "T-2" TicketStatusOpen None None "" "" 0 None.
Definition closed : Ticket :=
  mkTicket 3 "T-3" TicketStatusClosed (Some 5) (Some 0) "bye" "user" 0 None.

Definition db : DB := mkDB [quiet; silent; closed] [].

Definition faults : Faults :=
  mkFaults None (fun _ => None) (fun _ => None) (fun _ => None) (fun _ => None).

Definition later : Z := 50 * Go.Hour.

End Desk.

End TicketAutoClose.

(** ** Business errors *)

(** [backend/internal/pkg/bizerr/bizerr.go], and Go errors as [errors.As]
    walks them: a business error, another error, or an error that wraps one
    ([fmt.Errorf] with [%w]). *)
Module bizerr.

Record Error := mkError {
  Key : string;
  Message : string;
  Params : option (list (string * Value))
}.

Definition New (key message : string) : Error := mkError key message None.

(** [WithParams] sets the parameters of the receiver and returns it. *)
Definition WithParams (e : Error) (params : list (string * Value)) : Error :=
  mkError (Key e) (Message e) (Some params).

Inductive error : Type :=
| Biz (e : Error)
| Plain (text : string)
| Wrap (text : string) (inner : error).

(** [err.Error()]. *)
Definition Error_string (err : error) : string :=
  match err with
  | Biz e => Message e
  | Plain text => text
  | Wrap text _ => text
  end.

(** [errors.As(err, &bizErr)] for a [*bizerr.Error] target: the first
    business error of the chain. *)
Fixpoint As (err : error) : option Error :=
  match err with
  | Biz e => Some e
  | Plain _ => None
  | Wrap _ inner => As inner
  end.

End bizerr.

(** ** The response helpers *)

(** Package [response] ([c.JSON(httpCode, Response{...})] is the value
    returned).  [Data] is an [interface{}]; here it is typed by what the
    caller passes. *)
Module response.

Record Response (A : Type) := mkResponse {
  HTTPStatus : Z;
  Code : Z;
  Message : string;
  Data : option A
}.

Arguments mkResponse {A}.
Arguments HTTPStatus {A}.
Arguments Code {A}.
Arguments Message {A}.
Arguments Data {A}.

Record Pagination := mkPagination {
  Page : Z;
  Limit : Z;
  Total : Z;
  TotalPages : Z;
  HasNext : bool;
  HasPrev : bool
}.

Record PaginatedResponse (A : Type) := mkPaginatedResponse {
  Items : A;
  PaginationOf : Pagination
}.

Arguments mkPaginatedResponse {A}.
Arguments Items {A}.
Arguments PaginationOf {A}.

Definition CodeSuccess : Z := 0.
Definition CodeParamError : Z := 10001.
Definition CodeUnauthorized : Z := 20001.
Definition CodeForbidden : Z := 30001.
Definition CodeNotFound : Z := 40001.
Definition CodeConflict : Z := 40901.
Definition CodeBusinessError : Z := 40010.
Definition CodeInternalError : Z := 50001.

Definition Success {A} (data : A) : Response A := mkResponse 200 CodeSuccess "success" (Some data).

Definition Error {A} (httpCode code : Z) (message : string) : Response A :=
  mkResponse httpCode code message None.

(** [c.DefaultQuery(key, def)] on the first values of the query string. *)
Definition DefaultQuery (query : gmap string string) (key def : string) : string :=
  default def (query !! key).

(** [GetPagination]; [Atoi] is [strconv.Atoi] with its error dropped. *)
Definition GetPagination (Atoi : string -> Z) (query : gmap string string) : Z * Z :=
  let page := Atoi (DefaultQuery query "page" "1") in
  let limit := Atoi (DefaultQuery query "limit" "20") in
  let page := if Z.ltb page 1 then 1 else page in
  let limit := if Z.ltb limit 1 then 20 else if Z.ltb 100 limit then 100 else limit in
  (page, limit).

(** [Paginated].  Go's [/] and [%] truncate towards zero and panic on a zero
    divisor: [None] is that panic. *)
Definition Paginated {A} (items : A) (page limit total : Z)
    : option (Response (PaginatedResponse A)) :=
  if Z.eqb limit 0 then None
  else
    let totalPages := Go.wrap64 (Z.quot total limit) in
    let totalPages := if Z.ltb 0 (Z.rem total limit) then totalPages + 1 else totalPages in
    Some (Success (mkPaginatedResponse items
            (mkPagination page limit total totalPages (Z.ltb page totalPages) (Z.ltb 1 page)))).

Definition Unauthorized {A} (message : string) : Response A :=
  Error 401 CodeUnauthorized (if is_empty message then "Unauthorized" else message).

Definition Forbidden {A} (message : string) : Response A :=
  Error 403 CodeForbidden (if is_empty message then "No permission to access" else message).

Definition NotFound {A} (message : string) : Response A :=
  Error 404 CodeNotFound (if is_empty message then "Resource not found" else message).

Definition InternalError {A} (message : string) : Response A :=
  Error 500 CodeInternalError (if is_empty message then "Internal server error" else message).

Definition BadRequest {A} (message : string) : Response A :=
  Error 400 CodeParamError (if is_empty message then "Invalid request parameters" else message).

Definition Conflict {A} (message : string) : Response A :=
  Error 409 CodeConflict (if is_empty message then "Resource already exists" else message).

(** [InternalServerError]: the response, and the line it logs. *)
Definition InternalServerError {A} (method path userMessage : string) (err : option bizerr.error)
    : Response A * list string :=
  (Error 500 CodeInternalError
     (if is_empty userMessage then "Internal server error" else userMessage),
   match err with
   | Some e => ["[ERROR] " ++ method ++ " " ++ path ++ ": " ++ userMessage ++ " - "
                ++ bizerr.Error_string e]
   | None => []
   end).

(** The [gin.H] of a business error. *)
Record BizData := mkBizData {
  error_key : string;
  params : option (list (string * Value))
}.

Definition BizError (message key : string) (params : option (list (string * Value)))
    : Response BizData :=
  mkResponse 400 CodeBusinessError message (Some (mkBizData key params)).

(** [HandleError]. *)
Definition HandleError (method path fallbackMsg : string) (err : option bizerr.error)
    : Response BizData * list string :=
  match err ≫= bizerr.As with
  | Some bizErr =>
      (BizError (bizerr.Message bizErr) (bizerr.Key bizErr) (bizerr.Params bizErr), [])
  | None => InternalServerError method path fallbackMsg err
  end.

End response.

(** ** The order handler of a user *)

(** The handler of package [user] that follows the order cancel service in
    its file.  The order service and the virtual inventory service are
    records of functions; a handler returns what it writes to the context
    and, where it matters, the service calls it makes behind its checks. *)
Module OrderHandler.

Import Models.

(** An order as the handlers read it: the row of the services, with the two
    further columns the handlers touch. *)
Record OrderRow := mkOrderRow {
  base :> Order;
  ActualAttributes : string;
  CompletedAt : option Z
}.

Module service.

Record OrderService := mkOrderService {
  ListUserOrders : N -> Z -> Z -> string -> (list OrderRow * Z) + string;
  GetSharedOrderIDs : list N -> gmap N bool;
  GetOrderByNo : string -> OrderRow + string;
  GetOrderByID : N -> option OrderRow;
  CompleteOrder : N -> N -> string -> string -> option bizerr.error;
  GetOrRefreshFormToken : OrderRow -> (string * Z) + string
}.

(** [GetStockByOrderNo] of the virtual inventory service. *)
Definition VirtualInventoryService : Type := string -> list Value + string.

End service.

Record Handler := mkHandler {
  orderService : service.OrderService;
  virtualInventoryService : option service.VirtualInventoryService;
  Atoi : string -> Z
}.

(** The service calls that change or disclose something. *)
Inductive Call : Type :=
| CallCompleteOrder (orderID userID : N) (feedback adminRemark : string)
| CallGetOrRefreshFormToken (orderID : N)
| CallGetStockByOrderNo (orderNo : string).

(** [order.UserID == nil || *order.UserID != userID]. *)
Definition notOwner (userID : N) (order : OrderRow) : bool :=
  match UserID order with
  | None => true
  | Some owner => negb (N.eqb owner userID)
  end.

(** *** [ListOrders] *)

Record OrderWithShared := mkOrderWithShared {
  Listed : OrderRow;
  SharedToSupport : bool
}.

Definition listed (sharedMap : gmap N bool) (order : OrderRow) : OrderWithShared :=
  let order :=
    if bool_decide (Status order = OrderStatusPendingPayment)
       || bool_decide (Status order = OrderStatusDraft)
       || bool_decide (Status order = OrderStatusNeedResubmit)
       || bool_decide (Status order = OrderStatusCancelled)
    then mkOrderRow (base order) "" (CompletedAt order) else order in
  mkOrderWithShared order (default false (sharedMap !! ID order)).

(** [None] is the panic of [response.Paginated]. *)
Definition ListOrders (h : Handler) (userID : N) (query : gmap string string)
    : option (response.Response (response.PaginatedResponse (list OrderWithShared))) :=
  let page := Atoi h (response.DefaultQuery query "page" "1") in
  let limit := Atoi h (response.DefaultQuery query "limit" "10") in
  let status := default "" (query !! "status") in
  let page := if Z.ltb page 1 then 1 else page in
  let limit := if Z.ltb 100 limit then 100 else limit in
  match service.ListUserOrders (orderService h) userID page limit status with
  | inr _ => Some (response.InternalError "Query failed")
  | inl (orders, total) =>
      let sharedMap := service.GetSharedOrderIDs (orderService h) (ID <$> (base <$> orders)) in
      response.Paginated (listed sharedMap <$> orders) page limit total
  end.

(** *** [CompleteOrder] *)

Inductive CompleteData : Type :=
| Completed (order_no : string) (status : OrderStatus) (completed_at : option Z)
| Refused (data : response.BizData).

Definition refused (r : response.Response response.BizData) : response.Response CompleteData :=
  response.mkResponse (response.HTTPStatus r) (response.Code r) (response.Message r)
    (Refused <$> response.Data r).

(** [req] is the feedback bound from the body, [None] when binding fails.
    The reply is [None] when the re-queried order is [nil]. *)
Definition CompleteOrder (h : Handler) (method path : string) (userID : N) (orderNo : string)
    (req : option string)
    : option (response.Response CompleteData) * list Call * list string :=
  if is_empty orderNo then
    (Some (response.BadRequest "Order number cannot be empty"), [], [])
  else
    match req with
    | None => (Some (response.BadRequest "Invalid request parameters"), [], [])
    | Some feedback =>
        match service.GetOrderByNo (orderService h) orderNo with
        | inr _ => (Some (response.NotFound "Order not found"), [], [])
        | inl order =>
            if notOwner userID order then
              (Some (response.Forbidden "No permission to operate this order"), [], [])
            else
              let call := CallCompleteOrder (ID order) userID feedback "" in
              match service.CompleteOrder (orderService h) (ID order) userID feedback "" with
              | Some err =>
                  let '(r, lines) :=
                    response.HandleError method path "Failed to complete order" (Some err) in
                  (Some (refused r), [call], lines)
              | None =>
                  match service.GetOrderByID (orderService h) (ID order) with
                  | None => (None, [call], [])
                  | Some order =>
                      (Some (response.Success
                               (Completed (OrderNo order) (Status order) (CompletedAt order))),
                       [call], [])
                  end
              end
        end
    end.

(** *** [GetOrRefreshFormToken] *)

Record FormTokenData := mkFormTokenData {
  form_token : string;
  expires_at : Z;
  order_no : string;
  order_id : N
}.

Definition GetOrRefreshFormToken (h : Handler) (userID : N) (orderNo : string)
    : response.Response FormTokenData * list Call :=
  if is_empty orderNo then (response.BadRequest "Order number cannot be empty", [])
  else
    match service.GetOrderByNo (orderService h) orderNo with
    | inr _ => (response.NotFound "Order not found", [])
    | inl order =>
        if notOwner userID order then
          (response.Forbidden "No permission to access this order", [])
        else if negb (bool_decide (Status order = OrderStatusDraft))
                && negb (bool_decide (Status order = OrderStatusNeedResubmit)) then
          (response.BadRequest "Order status does not require form submission", [])
        else
          match service.GetOrRefreshFormToken (orderService h) order with
          | inr _ =>
              (response.InternalError "Failed to get form token",
               [CallGetOrRefreshFormToken (ID order)])
          | inl (formToken, expiresAt) =>
              (response.Success (mkFormTokenData formToken expiresAt (OrderNo order) (ID order)),
               [CallGetOrRefreshFormToken (ID order)])
          end
    end.

(** *** [GetVirtualProducts] *)

Definition GetVirtualProducts (h : Handler) (userID : N) (orderNo : string)
    : response.Response (list Value) * list Call :=
  if is_empty orderNo then (response.BadRequest "Order number cannot be empty", [])
  else
    match service.GetOrderByNo (orderService h) orderNo with
    | inr _ => (response.NotFound "Order not found", [])
    | inl order =>
        if notOwner userID order then
          (response.Forbidden "No permission to access this order", [])
        else if bool_decide (Status order = OrderStatusPendingPayment)
                || bool_decide (Status order = OrderStatusDraft)
                || bool_decide (Status order = OrderStatusNeedResubmit) then
          (response.BadRequest "Virtual products are not available yet", [])
        else
          match virtualInventoryService h with
          | None => (response.Success [], [])
          | Some GetStockByOrderNo =>
              match GetStockByOrderNo orderNo with
              | inr _ =>
                  (response.InternalError "Failed to get virtual products",
                   [CallGetStockByOrderNo orderNo])
              | inl stocks => (response.Success stocks, [CallGetStockByOrderNo orderNo])
              end
          end
    end.

(** *** A shop front with two customers *)

Module Front.

Definition mine : OrderRow :=
  mkOrderRow (mkOrder 1 "A-1" OrderStatusCompleted "" 1999 "USD" 0 [] ∅ None (Some 7%N))
    "{'0':{'color':'red'}}" (Some 5).

Definition unpaid : OrderRow :=
  mkOrderRow (mkOrder 2 "A-2" OrderStatusPendingPayment "" 500 "USD" 0 [] ∅ None (Some 7%N))
    "{'0':{'color':'blue'}}" None.

Definition theirs : OrderRow :=
  mkOrderRow (mkOrder 3 "B-1" OrderStatusCompleted "" 100 "USD" 0 [] ∅ None (Some 8%N))
    "" (Some 6).

Definition byNo (orderNo : string) : OrderRow + string :=
  if String.eqb orderNo "A-1" then inl mine
  else if String.eqb orderNo "A-2" then inl unpaid
  else if String.eqb orderNo "B-1" then inl theirs
  else inr "record not found".

(** [strconv.Atoi] on the few strings the examples use. *)
Definition atoi (s : string) : Z :=
  if String.eqb s "1" then 1 else if String.eqb s "2" then 2
  else if String.eqb s "10" then 10 else if String.eqb s "20" then 20
  else if String.eqb s "500" then 500 else 0.

Definition orders : service.OrderService :=
  service.mkOrderService
    (fun _ _ _ _ => inl ([mine; unpaid], 2)) (fun _ => {[1%N := true]}) byNo
    (fun _ => Some mine) (fun _ _ _ _ => None) (fun _ => inl ("tok", 60)).

Definition stock (orderNo : string) : list Value + string := inl [VString "KEY-001"].

Definition handler : Handler := mkHandler orders (Some stock) atoi.

End Front.

End OrderHandler.

(** * Properties of the services *)

(** ** Case folding *)

Example EqualFold_examples :
  Go.EqualFold "hOsT" "Host" = true /\
  Go.EqualFold "PROXY-authorization" "Proxy-Authorization" = true /\
  Go.EqualFold "Hosts" "Host" = false /\
  Go.EqualFold "Hos" "Host" = false /\
  Go.EqualFold "Content-Type" "Host" = false /\
  Go.EqualFold (String "H" (String "o" (String (ascii_of_N 197) (String (ascii_of_N 191) "t")))) "Host" = true.
Proof. repeat split; reflexivity. Qed.

(** ** Durations *)

Example minus_hours_examples :
  Go.minus_hours 72 = -259200000000000 /\
  Go.minus_hours 1 = - Go.Hour /\
  Go.minus_hours 3000000 = 7646744073709551616.
Proof. repeat split; reflexivity. Qed.

(** ** Decimal printing *)

(** [%d] of a positive number below [10 ^ k] has at most [k] digits. *)
Module FmtFacts.

Lemma of_uint_acc_lower d : forall acc,
  (N.pos acc * 10 ^ N.of_nat (Decimal.nb_digits d) <= N.pos (Pos.of_uint_acc d acc))%N.
Proof.
  induction d as [|d IH|d IH|d IH|d IH|d IH|d IH|d IH|d IH|d IH|d IH]; intros acc;
    cbn [Pos.of_uint_acc Decimal.nb_digits];
    try (rewrite Nat2N.inj_succ, N.pow_succ_r';
         match goal with |- (_ <= N.pos (Pos.of_uint_acc _ ?a))%N => specialize (IH a) end;
         set (X := (10 ^ N.of_nat (Decimal.nb_digits d))%N) in *; nia).
  cbn. lia.
Qed.

Lemma of_uint_lower d :
  Decimal.nzhead d = d -> d <> Decimal.Nil ->
  (10 ^ N.of_nat (Nat.pred (Decimal.nb_digits d)) <= Pos.of_uint d)%N.
Proof.
  intros Hnz Hne.
  destruct d as [|d|d|d|d|d|d|d|d|d|d]; [contradiction| |..];
    try (cbn [Pos.of_uint Decimal.nb_digits Nat.pred];
         match goal with |- (_ <= N.pos (Pos.of_uint_acc _ ?a))%N =>
           pose proof (of_uint_acc_lower d a) as H end;
         set (X := (10 ^ N.of_nat (Decimal.nb_digits d))%N) in *; nia).
  exfalso. cbn [Decimal.nzhead] in Hnz.
  pose proof (nb_digits_nzhead d) as Hle. rewrite Hnz in Hle. cbn [Decimal.nb_digits] in Hle. lia.
Qed.

Lemma to_uint_nzhead p : Decimal.nzhead (Pos.to_uint p) = Pos.to_uint p.
Proof.
  pose proof (DecimalPos.Unsigned.to_of (Pos.to_uint p)) as H.
  rewrite DecimalPos.Unsigned.of_to in H. cbn [N.to_uint] in H.
  unfold Decimal.unorm in H.
  destruct (Decimal.nzhead (Pos.to_uint p)) eqn:Hn; try (symmetry; exact H).
  exfalso. exact (Unsigned.to_uint_nonzero p H).
Qed.

Lemma nb_digits_to_uint p (k : nat) :
  (N.pos p < 10 ^ N.of_nat k)%N -> (Decimal.nb_digits (Pos.to_uint p) <= k)%nat.
Proof.
  intros Hlt.
  pose proof (of_uint_lower (Pos.to_uint p) (to_uint_nzhead p) (Unsigned.to_uint_nonnil p)) as Hlow.
  rewrite DecimalPos.Unsigned.of_to in Hlow.
  destruct (Nat.le_gt_cases (Decimal.nb_digits (Pos.to_uint p)) k) as [Hle|Hgt]; [exact Hle|].
  exfalso.
  assert (10 ^ N.of_nat k <= 10 ^ N.of_nat (Nat.pred (Decimal.nb_digits (Pos.to_uint p))))%N.
  { apply N.pow_le_mono_r; lia. }
  lia.
Qed.

Lemma length_string_of_uint d :
  String.length (NilEmpty.string_of_uint d) = Decimal.nb_digits d.
Proof.
  induction d; cbn [NilEmpty.string_of_uint String.length Decimal.nb_digits]; congruence.
Qed.

Lemma fmt_d_length n (k : nat) :
  0 < n < 10 ^ Z.of_nat k -> (String.length (Go.fmt_d n) <= k)%nat.
Proof.
  intros [Hpos Hlt]. destruct n as [|p|p]; try lia.
  unfold Go.fmt_d. cbn [Z.to_int NilZero.string_of_int NilZero.string_of_uint].
  pose proof (Unsigned.to_uint_nonnil p) as Hne.
  assert (NilZero.string_of_uint (Pos.to_uint p) = NilEmpty.string_of_uint (Pos.to_uint p)) as ->.
  { unfold NilZero.string_of_uint. destruct (Pos.to_uint p); [contradiction|reflexivity..]. }
  rewrite length_string_of_uint. apply nb_digits_to_uint.
  change 10%N with (Z.to_N 10).
  assert (Z.of_N (N.pos p) < Z.of_N (Z.to_N 10 ^ N.of_nat k)) as H; [|lia].
  rewrite N2Z.inj_pow, nat_N_Z. exact Hlt.
Qed.

Lemma length_append (a b : string) :
  String.length (a ++ b) = (String.length a + String.length b)%nat.
Proof. induction a as [|c a IH]; simpl; [reflexivity|]. rewrite IH. reflexivity. Qed.

End FmtFacts.

(** ** Script delivery *)

Module ScriptDeliveryFacts.

Import ScriptDelivery.

(** *** The result of [onDeliver] *)

Lemma appendItem_validItem acc item :
  appendItem acc item = (acc ++ option_list (validItem item))%list.
Proof.
  destruct item as [| | | | |elems|itemMap]; simpl; try (symmetry; apply app_nil_r).
  destruct (as_string (field "content" itemMap)) as [content|]; simpl.
  - destruct (is_empty content); simpl; [symmetry; apply app_nil_r | reflexivity].
  - symmetry; apply app_nil_r.
Qed.

Lemma fold_appendItem arr : forall acc,
  fold_left appendItem arr acc = (acc ++ omap validItem arr)%list.
Proof.
  induction arr as [|item arr IH]; intros acc; simpl.
  - symmetry; apply app_nil_r.
  - rewrite IH, appendItem_validItem, <- app_assoc. f_equal.
    destruct (validItem item); reflexivity.
Qed.

Lemma parseItems_validItems obj : parseItems obj = validItems obj.
Proof.
  unfold parseItems, validItems.
  destruct (field "items" obj) as [[| | | | |arr|]|]; try reflexivity.
  apply fold_appendItem.
Qed.

Lemma validItem_content item di : validItem item = Some di -> Content di <> "".
Proof.
  destruct item as [| | | | | |itemMap]; simpl; try discriminate.
  destruct (as_string (field "content" itemMap)) as [content|]; try discriminate.
  unfold is_empty. destruct (String.eqb_spec content ""); try discriminate.
  intros [= <-]. assumption.
Qed.

(** C1. When the returned object has [success = true], [parseDeliveryResult]
    accepts it (returns no error) exactly when at least one entry of [items]
    with a non-empty [content] remains.  Whatever the expected quantity, the
    accepted result holds exactly the remaining items, a difference between
    their number and the expected quantity only adds a warning to the log, and
    the call fails, with "script returned no delivery items", only when no
    valid item remains. *)
Theorem parseDeliveryResult_accepts_iff_valid_item
    (obj : list (string * Value)) (expectedQty : Z) :
  field "success" obj = Some (VBool true) ->
  let o := parseDeliveryResult (Some (VObject obj)) expectedQty in
  let n := length (validItems obj) in
  (err o = None <-> (0 < n)%nat) /\
  ((0 < n)%nat ->
     ret o = Some (mkResult true (validItems obj) (default "" (as_string (field "message" obj)))) /\
     logged o = if decide (Z.of_nat n = expectedQty) then []
                else [mismatchWarning expectedQty (Z.of_nat n)]) /\
  (n = 0%nat -> err o = Some "script returned no delivery items" /\ logged o = []) /\
  (forall di, di ∈ validItems obj -> Content di <> "").
Proof.
  intros Hs o n. subst o n. unfold parseDeliveryResult.
  rewrite Hs, parseItems_validItems. cbn [as_bool default negb].
  assert (forall di, di ∈ validItems obj -> Content di <> "") as Hcontent.
  { unfold validItems. intros di Hin.
    destruct (field "items" obj) as [[| | | | |arr|]|];
      try (exfalso; eapply not_elem_of_nil; eassumption).
    apply list_elem_of_omap in Hin as (item & _ & Hitem).
    eapply validItem_content; eassumption. }
  destruct (Nat.eqb_spec (length (validItems obj)) 0) as [Hz|Hnz]; cbn [err ret logged].
  - rewrite Hz. repeat split; try discriminate; try lia; auto.
  - repeat split; try discriminate; try lia; auto.
    case_decide as Hq.
    + apply Z.eqb_eq in Hq. rewrite Hq. reflexivity.
    + apply Z.eqb_neq in Hq. rewrite Hq. reflexivity.
Qed.

(** The script of the design document's scenario: one item returned where
    three were requested. *)
Lemma parseDeliveryResult_accepts_iff_valid_item_witness :
  let obj := [("success", VBool true); ("items", VArray [VObject [("content", VString "A")]])] in
  let o := parseDeliveryResult (Some (VObject obj)) 3 in
  err o = None /\
  ret o = Some (mkResult true [mkItem "A" ""] "") /\
  logged o = ["[ScriptDelivery] Warning: expected 3 items, got 1"].
Proof.
  intros obj o.
  destruct (parseDeliveryResult_accepts_iff_valid_item obj 3 eq_refl) as (Hacc & Hok & _).
  split; [apply Hacc; simpl; lia|].
  destruct (Hok ltac:(simpl; lia)) as [Hret Hlog]. split; assumption.
Defined.

Example parseDeliveryResult_examples :
  parseDeliveryResult (Some VUndefined) 1
    = mkOutcome None (Some "script returned empty result") [] /\
  parseDeliveryResult (Some (VArray [])) 1
    = mkOutcome None (Some "script must return an object with {success, items}") [] /\
  parseDeliveryResult (Some (VObject [("success", VString "true")])) 1
    = mkOutcome (Some (mkResult false [] ""))
        (Some "script delivery failed: script delivery failed") [] /\
  parseDeliveryResult
    (Some (VObject [("success", VBool true);
                    ("items", VArray [VObject [("content", VString "")]; VNumber 7;
                                      VObject [("remark", VString "r")]])])) 1
    = mkOutcome (Some (mkResult true [] "")) (Some "script returned no delivery items") [] /\
  parseDeliveryResult
    (Some (VObject [("success", VBool true);
                    ("items", VArray [VObject [("content", VString "K1"); ("remark", VString "r")];
                                      VObject [("content", VString "")];
                                      VObject [("content", VString "K2")]])])) 2
    = mkOutcome (Some (mkResult true [mkItem "K1" "r"; mkItem "K2" ""] "")) None [].
Proof. repeat split; reflexivity. Qed.

(** *** Outbound HTTP *)

Section Http.

Context {rt : Runtime}.

(** **** The calls never raise *)

Lemma http_get_returns args : exists v sent, http_get args = Returns v sent.
Proof.
  unfold http_get, returned. destruct (Nat.ltb_spec (length args) 1) as [Hl|Hl]; [eauto|].
  destruct args as [|url rest]; [simpl in Hl; lia|]. simpl. eauto.
Qed.

Lemma http_post_returns args : exists v sent, http_post args = Returns v sent.
Proof.
  unfold http_post, returned. destruct (Nat.ltb_spec (length args) 1) as [Hl|Hl]; [eauto|].
  destruct args as [|url rest]; [simpl in Hl; lia|]. simpl. eauto.
Qed.

Lemma http_request_returns args : exists v sent, http_request args = Returns v sent.
Proof.
  unfold http_request, returned. destruct (Nat.ltb_spec (length args) 2) as [Hl|Hl]; [eauto|].
  destruct args as [|method [|url rest]]; try (simpl in Hl; lia). simpl. eauto.
Qed.

(** **** A destination that fails the egress check *)

Lemma doHTTPRequest_rejected method urlStr body headers u e :
  url_Parse urlStr = inl u ->
  validateExternalURL u = Some e ->
  doHTTPRequest method urlStr body headers = (errorResult "URL is not allowed" 0, []).
Proof. intros Hp Hv. unfold doHTTPRequest. rewrite Hp, Hv. reflexivity. Qed.

(** C4. When the destination of a script's HTTP call parses but fails
    [validateExternalURL], each of [http.get], [http.post] and [http.request]
    returns to the script the object [{error: "URL is not allowed", status: 0}]:
    the call returns (it does not panic), the value has an [error] field and
    status [0], and no request is handed to the HTTP client. *)
Theorem rejected_destination_returns_error_value
    (args : list Value) (url : Value) (u : URL) (e : string) :
  url_Parse (Value_String url) = inl u ->
  validateExternalURL u = Some e ->
  let blocked := errorResult "URL is not allowed" 0 in
  (args !! 0%nat = Some url ->
     http_get args = Returns blocked [] /\ http_post args = Returns blocked []) /\
  (args !! 1%nat = Some url -> http_request args = Returns blocked []) /\
  (forall method body headers,
     doHTTPRequest method (Value_String url) body headers = (blocked, [])) /\
  field "error" [("error", VString "URL is not allowed"); ("status", VNumber 0)]
    = Some (VString "URL is not allowed") /\
  field "status" [("error", VString "URL is not allowed"); ("status", VNumber 0)]
    = Some (VNumber 0).
Proof.
  intros Hp Hv blocked.
  assert (forall method body headers,
    doHTTPRequest method (Value_String url) body headers = (blocked, [])) as Hdo.
  { intros. eapply doHTTPRequest_rejected; eassumption. }
  split; [|split; [|split; [exact Hdo | split; reflexivity]]].
  - intros H0. destruct args as [|a rest]; [discriminate|]. injection H0 as ->. split.
    + unfold http_get, returned. simpl. rewrite Hdo. reflexivity.
    + unfold http_post, returned.
      cbn [length Nat.ltb Nat.leb lookup list_lookup]. rewrite Hdo. reflexivity.
  - intros H1. unfold http_request, returned.
    destruct args as [|m [|a rest]]; try discriminate. injection H1 as ->.
    cbn [length Nat.ltb Nat.leb lookup list_lookup]. rewrite Hdo. reflexivity.
Qed.

(** **** Headers the script may not set *)

Lemma forwarded_skipped kv : forwarded kv <-> skippedHeader kv.1 = false.
Proof. unfold forwarded, skippedHeader. rewrite orb_false_iff. reflexivity. Qed.

Lemma skipped_not_content_type k :
  skippedHeader k = true -> String.eqb k "Content-Type" = false.
Proof.
  intros Hs. destruct (String.eqb_spec k "Content-Type") as [->|]; [|reflexivity].
  vm_compute in Hs. discriminate.
Qed.

Lemma headerValue_forwarded headers :
  headerValue "Content-Type" (filter forwarded headers) = headerValue "Content-Type" headers.
Proof.
  induction headers as [|[k v] headers IH]; [reflexivity|].
  rewrite filter_cons. destruct (decide (forwarded (k, v))) as [Hf|Hf]; simpl.
  - rewrite IH. reflexivity.
  - rewrite IH. rewrite forwarded_skipped in Hf. apply not_false_is_true in Hf.
    simpl in Hf. rewrite (skipped_not_content_type k Hf). reflexivity.
Qed.

Lemma setHeaders_forwarded headers : forall h,
  setHeaders h (filter forwarded headers) = setHeaders h headers.
Proof.
  unfold setHeaders.
  induction headers as [|[k v] headers IH]; intros h; [reflexivity|].
  rewrite filter_cons. destruct (decide (forwarded (k, v))) as [Hf|Hf]; simpl.
  - apply IH.
  - rewrite IH. f_equal. unfold setHeader.
    rewrite forwarded_skipped in Hf. apply not_false_is_true in Hf.
    simpl in *. rewrite Hf. reflexivity.
Qed.

Lemma buildRequest_forwarded method url reqBody contentType headers :
  buildRequest method url reqBody contentType (filter forwarded headers)
  = buildRequest method url reqBody contentType headers.
Proof.
  unfold buildRequest. rewrite headerValue_forwarded, setHeaders_forwarded. reflexivity.
Qed.

Lemma doHTTPRequest_forwarded method urlStr body headers :
  doHTTPRequest method urlStr body (filter forwarded headers)
  = doHTTPRequest method urlStr body headers.
Proof.
  unfold doHTTPRequest.
  destruct (url_Parse urlStr) as [u|]; [|reflexivity].
  destruct (validateExternalURL u); [reflexivity|].
  destruct (prepareBody body) as [[reqBody contentType]|]; [|reflexivity].
  destruct (http_NewRequest_error method (url_String u)); [reflexivity|].
  cbv zeta. rewrite buildRequest_forwarded. reflexivity.
Qed.

(** C8. Two header maps that differ only in entries named [Host] or
    [Proxy-Authorization] (in any letter case) lead to the same request and the
    same result of [doHTTPRequest]: the loop skips every such entry, so
    [req.Header.Set] is never called for it, and the request is the one built
    from the remaining entries alone. *)
Theorem host_and_proxy_authorization_are_dropped
    (method urlStr : string) (body : option Value) (h1 h2 : list (string * string)) :
  filter forwarded h1 = filter forwarded h2 ->
  doHTTPRequest method urlStr body h1 = doHTTPRequest method urlStr body h2 /\
  (forall url reqBody contentType,
     buildRequest method url reqBody contentType h1
     = buildRequest method url reqBody contentType h2) /\
  (forall hdr k v,
     Go.EqualFold k "Host" = true \/ Go.EqualFold k "Proxy-Authorization" = true ->
     setHeader hdr (k, v) = hdr) /\
  doHTTPRequest method urlStr body h1 = doHTTPRequest method urlStr body (filter forwarded h1).
Proof.
  intros Heq. split; [|split; [|split]].
  - rewrite <- (doHTTPRequest_forwarded _ _ _ h1), <- (doHTTPRequest_forwarded _ _ _ h2), Heq.
    reflexivity.
  - intros. rewrite <- (buildRequest_forwarded _ _ _ _ h1), <- (buildRequest_forwarded _ _ _ _ h2), Heq.
    reflexivity.
  - intros hdr k v Hk. unfold setHeader, skippedHeader. simpl.
    destruct Hk as [-> | ->]; [reflexivity | rewrite orb_true_r; reflexivity].
  - symmetry. apply doHTTPRequest_forwarded.
Qed.

End Http.

Lemma rejected_destination_returns_error_value_witness :
  @http_get Demo.runtime [VString "http://169.254.169.254/latest/meta-data"]
  = Returns (errorResult "URL is not allowed" 0) [].
Proof.
  pose proof (@rejected_destination_returns_error_value Demo.runtime
    [VString "http://169.254.169.254/latest/meta-data"]
    (VString "http://169.254.169.254/latest/meta-data")
    "http://169.254.169.254/latest/meta-data" "destination is not allowed"
    eq_refl eq_refl) as (Hget & _).
  exact (proj1 (Hget eq_refl)).
Defined.

Lemma host_and_proxy_authorization_are_dropped_witness :
  @doHTTPRequest Demo.runtime "GET" "https://api.example.com/keys" None
    [("hOsT", "internal.example"); ("X-Token", "t"); ("proxy-authorization", "Basic eA==")]
  = @doHTTPRequest Demo.runtime "GET" "https://api.example.com/keys" None [("X-Token", "t")].
Proof.
  exact (proj1 (@host_and_proxy_authorization_are_dropped Demo.runtime
    "GET" "https://api.example.com/keys" None
    [("hOsT", "internal.example"); ("X-Token", "t"); ("proxy-authorization", "Basic eA==")]
    [("X-Token", "t")] eq_refl)).
Defined.

Example http_calls_without_destination :
  @http_get Demo.runtime [] = Returns (errorResult "URL is required" 0) [] /\
  @http_post Demo.runtime [] = Returns (errorResult "URL is required" 0) [] /\
  @http_request Demo.runtime [VString "GET"]
    = Returns (errorResult "method and URL are required" 0) [].
Proof. repeat split; reflexivity. Qed.

Example http_get_allowed_destination :
  @http_get Demo.runtime [VString "https://api.example.com/keys";
                          VObject [("Host", VString "internal.example"); ("X-Token", VString "t");
                                   ("Retries", VNumber 3)]]
  = Returns (VObject [("status", VNumber 200); ("body", VString "ok")])
      [mkRequest "GET" "https://api.example.com/keys" None
         {[ "User-Agent" := "AuraLogic-ScriptDelivery/1.0"; "X-Token" := "t" ]}].
Proof. vm_compute. reflexivity. Qed.

Example request_without_host_header :
  (@doHTTPRequest Demo.runtime "GET" "https://api.example.com/keys" None
     [("hOsT", "internal.example"); ("X-Token", "t"); ("proxy-authorization", "Basic eA==")]).2
  = [mkRequest "GET" "https://api.example.com/keys" None
       {[ "User-Agent" := "AuraLogic-ScriptDelivery/1.0"; "X-Token" := "t" ]}].
Proof. vm_compute. reflexivity. Qed.

(** *** More on the host functions *)

Section HostFunctions.

Context {rt : Runtime}.

(** X1. [extractHeaders] yields exactly the string-valued entries of the
    object at the given argument position; an argument that is missing,
    [undefined], [null] or not an object yields no header. *)
Theorem extractHeaders_string_entries (args : list Value) (idx : nat) (k v : string) :
  (k, v) ∈ extractHeaders args idx <->
  exists h, args !! idx = Some (VObject h) /\ (k, VString v) ∈ h.
Proof.
  unfold extractHeaders.
  destruct (Nat.ltb_spec idx (length args)) as [Hlt|Hge].
  - destruct (args !! idx) as [a|] eqn:Ha.
    + destruct a as [| | | | | |h]; cbn [Export];
        try (split; [intros Hin; exfalso; eapply not_elem_of_nil; exact Hin
                    | intros (h' & [=] & _)]).
      rewrite list_elem_of_omap. split.
      * intros ([k' v'] & Hin & Hs). exists h. split; [reflexivity|].
        unfold stringEntry in Hs. cbn [fst snd] in Hs.
        destruct v'; try discriminate. injection Hs as <- <-. exact Hin.
      * intros (h' & [= <-] & Hin). exists (k, VString v). split; [exact Hin | reflexivity].
    + split; [intros Hin; exfalso; eapply not_elem_of_nil; exact Hin | intros (h & [=] & _)].
  - split; [intros Hin; exfalso; eapply not_elem_of_nil; exact Hin|].
    intros (h & Hsome & _). apply lookup_lt_Some in Hsome. lia.
Qed.

Lemma prepareBody_content_type body reqBody contentType :
  prepareBody body = inl (reqBody, contentType) ->
  (reqBody = None <-> body = None) /\ (contentType = "" <-> body = None).
Proof.
  unfold prepareBody. destruct body as [v|].
  - destruct v; try (destruct (json_Marshal _); intros [= <- <-]; split; split; discriminate).
    destruct (String.prefix "{" _ || String.prefix "[" _);
      intros [= <- <-]; split; split; discriminate.
  - intros [= <- <-]. split; split; reflexivity.
Qed.

Lemma doHTTPRequest_at_most_one method urlStr body headers :
  (length (doHTTPRequest method urlStr body headers).2 <= 1)%nat.
Proof.
  unfold doHTTPRequest.
  destruct (url_Parse urlStr) as [u|e]; [|simpl; lia].
  destruct (validateExternalURL u); [simpl; lia|].
  destruct (prepareBody body) as [[reqBody contentType]|e]; [|simpl; lia].
  destruct (http_NewRequest_error method (url_String u)); [simpl; lia|].
  cbv zeta. destruct (client_Do _) as [resp|e]; [|simpl; lia].
  destruct (ReadError resp); simpl; lia.
Qed.

(** X2. Whatever happens, [doHTTPRequest] answers with an object that has a
    [status] and exactly one of [error] and [body]; it hands at most one
    request to the client, a [body] is only reported for a request that was
    sent, and when no request was sent the answer is an error with status 0. *)
Theorem doHTTPRequest_result_shape
    (method urlStr : string) (body : option Value) (headers : list (string * string)) :
  let r := doHTTPRequest method urlStr body headers in
  (exists fields,
     r.1 = VObject fields /\ is_Some (field "status" fields) /\
     ((exists msg, field "error" fields = Some (VString msg) /\ field "body" fields = None) \/
      (field "error" fields = None /\ (exists b, field "body" fields = Some (VString b)) /\
       length r.2 = 1%nat))) /\
  (length r.2 <= 1)%nat /\
  (r.2 = [] -> exists msg, r.1 = errorResult msg 0).
Proof.
  assert (forall msg status sent,
    exists fields, errorResult msg status = VObject fields /\ is_Some (field "status" fields) /\
     ((exists m, field "error" fields = Some (VString m) /\ field "body" fields = None) \/
      (field "error" fields = None /\ (exists b, field "body" fields = Some (VString b)) /\
       length (sent : list Request) = 1%nat))) as Herr.
  { intros msg status sent. eexists. split; [reflexivity|]. split; [eexists; reflexivity|].
    left. eexists. split; reflexivity. }
  intros r. subst r. unfold doHTTPRequest.
  destruct (url_Parse urlStr) as [u|e]; [|split; [apply Herr|split; [simpl; lia|eauto]]].
  destruct (validateExternalURL u); [split; [apply Herr|split; [simpl; lia|eauto]]|].
  destruct (prepareBody body) as [[reqBody contentType]|e];
    [|split; [apply Herr|split; [simpl; lia|eauto]]].
  destruct (http_NewRequest_error method (url_String u));
    [split; [apply Herr|split; [simpl; lia|eauto]]|].
  cbv zeta. destruct (client_Do _) as [resp|e];
    [|split; [apply Herr|split; [simpl; lia|discriminate]]].
  destruct (ReadError resp); [split; [apply Herr|split; [simpl; lia|discriminate]]|].
  cbn [fst snd]. split; [|split; [simpl; lia|discriminate]].
  unfold responseValue.
  destruct (if strings_Contains _ _ then _ else None).
  - eexists. split; [reflexivity|]. split; [eexists; reflexivity|].
    right. split; [reflexivity|]. split; [eexists; reflexivity | reflexivity].
  - eexists. split; [reflexivity|]. split; [eexists; reflexivity|].
    right. split; [reflexivity|]. split; [eexists; reflexivity | reflexivity].
Qed.

Lemma limitBytes_length (s : string) : forall n : N,
  N.of_nat (String.length (limitBytes n s)) = N.min n (N.of_nat (String.length s)).
Proof.
  induction s as [|c s IH]; intros n; cbn [limitBytes String.length].
  - lia.
  - destruct (N.eqb_spec n 0) as [->|Hn]; cbn [String.length]; [lia|].
    rewrite Nat2N.inj_succ, (IH (N.pred n)). lia.
Qed.

Lemma limitBytes_prefix (s : string) : forall n : N, String.prefix (limitBytes n s) s = true.
Proof.
  induction s as [|c s IH]; intros n; cbn [limitBytes]; [reflexivity|].
  destruct (N.eqb n 0); [reflexivity|]. cbn [String.prefix].
  destruct (ascii_dec c c); [apply IH | contradiction].
Qed.

Lemma limitBytes_whole (s : string) : forall n : N,
  (N.of_nat (String.length s) <= n)%N -> limitBytes n s = s.
Proof.
  induction s as [|c s IH]; intros n Hn; cbn [limitBytes]; [reflexivity|].
  cbn [String.length] in Hn. rewrite Nat2N.inj_succ in Hn.
  destruct (N.eqb_spec n 0) as [->|Hz]; [lia|]. f_equal. apply IH. lia.
Qed.

(** X3. The body [doHTTPRequest] reports for a response is the leading part of
    the bytes received, cut at 10 MiB: never longer than 10485760 bytes, and
    the whole body when that is not longer. *)
Theorem responseValue_body_capped (resp : Response) :
  exists fields b,
    responseValue resp = VObject fields /\
    field "body" fields = Some (VString b) /\
    field "status" fields = Some (VNumber (StatusCode resp)) /\
    String.prefix b (RespBody resp) = true /\
    N.of_nat (String.length b)
      = N.min 10485760 (N.of_nat (String.length (RespBody resp))) /\
    ((N.of_nat (String.length (RespBody resp)) <= 10485760)%N -> b = RespBody resp).
Proof.
  unfold responseValue.
  destruct (if strings_Contains _ _ then _ else None);
    eexists; eexists; (split; [reflexivity|]); (split; [reflexivity|]);
    (split; [reflexivity|]); (split; [apply limitBytes_prefix|]);
    (split; [apply limitBytes_length | apply limitBytes_whole]).
Qed.

Lemma setHeaders_keeps headers : forall (h : gmap string string) key,
  is_Some (h !! key) -> is_Some (setHeaders h headers !! key).
Proof.
  unfold setHeaders. induction headers as [|kv headers IH]; intros h key Hk; [exact Hk|].
  cbn [fold_left]. apply IH. unfold setHeader, Header_Set.
  destruct (skippedHeader kv.1); [exact Hk|].
  rewrite lookup_insert. case_decide; [eauto | exact Hk].
Qed.

Lemma setHeaders_sets headers : forall (h : gmap string string) k v,
  (k, v) ∈ headers -> skippedHeader k = false ->
  is_Some (setHeaders h headers !! canonicalHeaderKey k).
Proof.
  induction headers as [|kv headers IH]; intros h k v Hin Hs.
  - exfalso. eapply not_elem_of_nil. exact Hin.
  - apply elem_of_cons in Hin as [<-|Hin].
    + unfold setHeaders. cbn [fold_left]. apply setHeaders_keeps.
      unfold setHeader, Header_Set. cbn [fst snd]. rewrite Hs, lookup_insert_eq. eauto.
    + unfold setHeaders. cbn [fold_left]. eapply IH; eassumption.
Qed.

Lemma headerValue_elem key headers :
  headerValue key headers <> "" -> exists v, (key, v) ∈ headers.
Proof.
  induction headers as [|[k v] headers IH]; cbn [headerValue]; [congruence|].
  destruct (String.eqb_spec k key) as [->|Hne].
  - intros _. exists v. left.
  - intros Hv. destruct (IH Hv) as [v' Hin]. exists v'. right. exact Hin.
Qed.

Lemma buildRequest_headers method url reqBody contentType headers :
  let req := buildRequest method url reqBody contentType headers in
  is_Some (Header req !! canonicalHeaderKey "User-Agent") /\
  (contentType <> "" -> is_Some (Header req !! canonicalHeaderKey "Content-Type")).
Proof.
  unfold buildRequest. cbn [Header]. split.
  - apply setHeaders_keeps.
    destruct (negb (is_empty contentType) && is_empty (headerValue "Content-Type" headers));
      unfold Header_Set.
    + rewrite lookup_insert. case_decide; [eauto|]. rewrite lookup_insert_eq. eauto.
    + rewrite lookup_insert_eq. eauto.
  - intros Hct. unfold is_empty.
    destruct (String.eqb_spec contentType "") as [|_]; [contradiction|]. cbn [negb andb].
    destruct (String.eqb_spec (headerValue "Content-Type" headers) "") as [He|Hne].
    + apply setHeaders_keeps. unfold Header_Set. rewrite lookup_insert_eq. eauto.
    + destruct (headerValue_elem _ _ Hne) as [v Hin].
      eapply setHeaders_sets; [exact Hin | reflexivity].
Qed.

(** X4. Every request [doHTTPRequest] hands to the client uses the method it
    was given, carries a [User-Agent] header, and carries a [Content-Type]
    header whenever it has a body. *)
Theorem sent_requests_are_labelled
    (method urlStr : string) (body : option Value) (headers : list (string * string))
    (req : Request) :
  req ∈ (doHTTPRequest method urlStr body headers).2 ->
  Method req = method /\
  is_Some (Header req !! canonicalHeaderKey "User-Agent") /\
  (Body req <> None -> is_Some (Header req !! canonicalHeaderKey "Content-Type")) /\
  (Body req = None <-> body = None).
Proof.
  unfold doHTTPRequest.
  destruct (url_Parse urlStr) as [u|e]; [|intros H; exfalso; eapply not_elem_of_nil; exact H].
  destruct (validateExternalURL u); [intros H; exfalso; eapply not_elem_of_nil; exact H|].
  destruct (prepareBody body) as [[reqBody contentType]|e] eqn:Hb;
    [|intros H; exfalso; eapply not_elem_of_nil; exact H].
  destruct (http_NewRequest_error method (url_String u));
    [intros H; exfalso; eapply not_elem_of_nil; exact H|].
  cbv zeta. set (built := buildRequest method (url_String u) reqBody contentType headers).
  assert (req ∈ [built] -> req = built) as Hone.
  { intros H. apply elem_of_cons in H as [H|H]; [exact H|].
    exfalso. eapply not_elem_of_nil. exact H. }
  pose proof (buildRequest_headers method (url_String u) reqBody contentType headers) as [Hua Hct].
  pose proof (prepareBody_content_type _ _ _ Hb) as [Hnone Hempty].
  assert (req = built ->
    Method req = method /\ is_Some (Header req !! canonicalHeaderKey "User-Agent") /\
    (Body req <> None -> is_Some (Header req !! canonicalHeaderKey "Content-Type")) /\
    (Body req = None <-> body = None)) as Hgoal.
  { intros ->. split; [reflexivity|]. split; [exact Hua|]. split; [|exact Hnone].
    intros Hbody. apply Hct. intros Hc. apply Hbody. apply Hnone, Hempty, Hc. }
  destruct (client_Do built) as [resp|e]; [destruct (ReadError resp)|];
    cbn [snd]; intros H; apply Hgoal, Hone, H.
Qed.

(** X5. The three [http] host functions return for every argument list: the
    length guards keep the argument reads in range, so none of them panics,
    and each hands at most one request to the client. *)
Theorem http_functions_always_return (args : list Value) :
  (exists v sent, http_get args = Returns v sent /\ (length sent <= 1)%nat) /\
  (exists v sent, http_post args = Returns v sent /\ (length sent <= 1)%nat) /\
  (exists v sent, http_request args = Returns v sent /\ (length sent <= 1)%nat).
Proof.
  pose proof doHTTPRequest_at_most_one as Hone.
  split; [|split].
  - unfold http_get, returned. destruct (Nat.ltb_spec (length args) 1) as [Hl|Hl].
    + eexists _, _. split; [reflexivity | simpl; lia].
    + destruct args as [|url rest]; [simpl in Hl; lia|]. cbn [lookup list_lookup].
      eexists _, _. split; [reflexivity | apply Hone].
  - unfold http_post, returned. destruct (Nat.ltb_spec (length args) 1) as [Hl|Hl].
    + eexists _, _. split; [reflexivity | simpl; lia].
    + destruct args as [|url rest]; [simpl in Hl; lia|]. cbn [lookup list_lookup].
      eexists _, _. split; [reflexivity | apply Hone].
  - unfold http_request, returned. destruct (Nat.ltb_spec (length args) 2) as [Hl|Hl].
    + eexists _, _. split; [reflexivity | simpl; lia].
    + destruct args as [|m [|url rest]]; try (simpl in Hl; lia). cbn [lookup list_lookup].
      eexists _, _. split; [reflexivity | apply Hone].
Qed.

End HostFunctions.

(** *** Running a delivery script *)

Section Scripts.

Context {rt : Runtime} {vm : Interpreter}.

Lemma validItems_content obj di : di ∈ validItems obj -> Content di <> "".
Proof.
  unfold validItems. intros Hin.
  destruct (field "items" obj) as [[| | | | |arr|]|];
    try (exfalso; eapply not_elem_of_nil; eassumption).
  apply list_elem_of_omap in Hin as (item & _ & Hitem).
  eapply validItem_content; eassumption.
Qed.

Lemma parseDeliveryResult_accepted result expectedQty :
  err (parseDeliveryResult result expectedQty) = None <->
  exists obj, result = Some (VObject obj) /\ field "success" obj = Some (VBool true) /\
              validItems obj <> [].
Proof.
  unfold parseDeliveryResult. split.
  - destruct result as [[| | | | | |obj]|]; cbn [err]; try discriminate.
    destruct (field "success" obj) as [[| |[|]| | | |]|] eqn:Hs;
      cbn [as_bool default negb err]; try discriminate.
    rewrite parseItems_validItems.
    destruct (validItems obj) as [|di items] eqn:Hv; cbn [length Nat.eqb err]; [discriminate|].
    intros _. exists obj. rewrite Hv. split; [reflexivity|]. split; [exact Hs | discriminate].
  - intros (obj & -> & Hs & Hv). rewrite Hs, parseItems_validItems. cbn [as_bool default negb].
    destruct (validItems obj); [contradiction | reflexivity].
Qed.

(** X6. [ExecuteDeliveryScript] returns without error exactly when the
    inventory has a script, the script loads and defines [onDeliver], and the
    call of [onDeliver] on the order and the parsed configuration returns an
    object with [success = true] and at least one item with a non-empty
    content.  The result then reports success and holds exactly those items,
    none with an empty content. *)
Theorem ExecuteDeliveryScript_accepts_iff
    (inventory : Models.VirtualInventory) (order : Models.Order) (quantity : Z) :
  let o := ExecuteDeliveryScript inventory order quantity in
  let config := VObject (parseScriptConfig (Models.ScriptConfig inventory)).1 in
  (err o = None <->
     Models.Script inventory <> "" /\
     exists fn obj,
       vm_RunString (Models.Script inventory) = LoadOk (Some fn) /\
       fn (orderToJS order quantity) config = inl (Some (VObject obj)) /\
       field "success" obj = Some (VBool true) /\ validItems obj <> []) /\
  (err o = None ->
     exists r, ret o = Some r /\ Success r = true /\ Items r <> [] /\
               forall di, di ∈ Items r -> Content di <> "").
Proof.
  intros o config. subst o config. unfold ExecuteDeliveryScript, is_empty.
  destruct (String.eqb_spec (Models.Script inventory) "") as [He|Hne].
  { split; [|discriminate]. split; [discriminate | intros [H _]; contradiction]. }
  destruct (vm_RunString (Models.Script inventory)) as [e|[fn|]].
  { split; [|discriminate]. split; [discriminate | intros (_ & fn & obj & [=] & _)]. }
  2:{ split; [|discriminate]. split; [discriminate | intros (_ & fn & obj & [=] & _)]. }
  cbv zeta.
  destruct (fn _ _) as [result|e] eqn:Hfn.
  2:{ split; [|discriminate]. split; [discriminate|].
      intros (_ & fn' & obj & [= <-] & Hcall & _). rewrite Hfn in Hcall. discriminate. }
  unfold withLog. cbn [err ret]. split.
  - rewrite parseDeliveryResult_accepted. split.
    + intros (obj & -> & Hs & Hv). split; [exact Hne|]. exists fn, obj. auto.
    + intros (_ & fn' & obj & [= <-] & Hcall & Hs & Hv). rewrite Hfn in Hcall.
      injection Hcall as ->. exists obj. auto.
  - intros Hok. apply parseDeliveryResult_accepted in Hok as (obj & -> & Hs & Hv).
    unfold parseDeliveryResult. rewrite Hs, parseItems_validItems. cbn [as_bool default negb].
    destruct (validItems obj) as [|di items] eqn:Hitems; [contradiction|].
    cbn [length Nat.eqb ret]. eexists. split; [reflexivity|]. cbn [Success Items].
    split; [reflexivity|]. split; [discriminate|].
    intros di' Hin. apply (validItems_content obj). rewrite Hitems. exact Hin.
Qed.

(** X7. [AuraLogic.config.get] returns for every argument list, without a
    request to the outside: the whole configuration when called without
    arguments, the stored value when the key (the first argument as a string)
    is present, and otherwise the second argument, or [undefined] when there
    is none. *)
Theorem config_get_always_returns (configJSON : string) (args : list Value) :
  let config := (parseScriptConfig configJSON).1 in
  exists v,
    config_get configJSON args = Returns v [] /\
    (args = [] -> v = VObject config) /\
    (forall key rest, args = key :: rest ->
       v = default (default VUndefined (head rest)) (field (Value_String key) config)).
Proof.
  intros config. subst config. unfold config_get.
  destruct args as [|key [|fallback rest]]; cbn [length Nat.ltb Nat.leb lookup list_lookup].
  - eexists. split; [reflexivity|]. split; [reflexivity | discriminate].
  - destruct (field (Value_String key) _) as [val|] eqn:Hf.
    + eexists. split; [reflexivity|]. split; [discriminate|].
      intros k r [= <- <-]. rewrite Hf. reflexivity.
    + eexists. split; [reflexivity|]. split; [discriminate|].
      intros k r [= <- <-]. rewrite Hf. reflexivity.
  - destruct (field (Value_String key) _) as [val|] eqn:Hf.
    + eexists. split; [reflexivity|]. split; [discriminate|].
      intros k r [= <- <-]. rewrite Hf. reflexivity.
    + eexists. split; [reflexivity|]. split; [discriminate|].
      intros k r [= <- <-]. rewrite Hf. reflexivity.
Qed.

(** X8. A [script_config] that does not parse is not an error of the
    delivery: the script runs with an empty configuration, [config.get] falls
    back to the default it is given, and a run that reaches [onDeliver] logs
    the parse warning twice, once for [registerAPIs] and once for the argument
    of [onDeliver], before anything else. *)
Theorem unparsable_config_is_empty_and_warned_twice
    (inventory : Models.VirtualInventory) (order : Models.Order) (quantity : Z)
    (e : string) (fn : Value -> Value -> option Value + string) (result : option Value) :
  Models.Script inventory <> "" ->
  Models.ScriptConfig inventory <> "" ->
  json_Unmarshal_map (Models.ScriptConfig inventory) = inr e ->
  vm_RunString (Models.Script inventory) = LoadOk (Some fn) ->
  fn (orderToJS order quantity) (VObject []) = inl result ->
  let warning := "[ScriptDelivery] Warning: failed to parse script_config JSON: " ++ e in
  ExecuteDeliveryScript inventory order quantity
    = withLog [warning; warning] (parseDeliveryResult result quantity) /\
  (forall key fallback,
     config_get (Models.ScriptConfig inventory) [key; fallback] = Returns fallback []) /\
  config_get (Models.ScriptConfig inventory) [] = Returns (VObject []) [].
Proof.
  intros Hs Hc Hjson Hload Hcall warning. subst warning.
  assert (parseScriptConfig (Models.ScriptConfig inventory)
          = ([], ["[ScriptDelivery] Warning: failed to parse script_config JSON: " ++ e])) as Hp.
  { unfold parseScriptConfig, is_empty.
    destruct (String.eqb_spec (Models.ScriptConfig inventory) ""); [contradiction|].
    rewrite Hjson. reflexivity. }
  split; [|split].
  - unfold ExecuteDeliveryScript, is_empty.
    destruct (String.eqb_spec (Models.Script inventory) ""); [contradiction|].
    rewrite Hload, Hp. cbn [fst snd]. rewrite Hcall. reflexivity.
  - intros key fallback. unfold config_get. rewrite Hp. reflexivity.
  - unfold config_get. rewrite Hp. reflexivity.
Qed.

End Scripts.

Lemma unparsable_config_is_empty_and_warned_twice_witness :
  let warning := "[ScriptDelivery] Warning: failed to parse script_config JSON: invalid character" in
  @ExecuteDeliveryScript Keys.interpreter (Keys.inventory "{region}") Keys.order 1
    = mkOutcome (Some (mkResult true [mkItem "KEY-001" ""] "")) None [warning; warning] /\
  @config_get Demo.runtime Keys.interpreter "{region}" [VString "region"; VString "us"]
    = Returns (VString "us") [].
Proof.
  intros warning.
  destruct (@unparsable_config_is_empty_and_warned_twice Demo.runtime Keys.interpreter
              (Keys.inventory "{region}") Keys.order 1 "invalid character" Keys.onDeliver
              (Some (VObject [("success", VBool true);
                              ("items", VArray [VObject [("content", VString "KEY-001")]])])))
    as (Hrun & Hget & _); try reflexivity; try discriminate.
  split; [rewrite Hrun; reflexivity | apply (Hget (VString "region") (VString "us"))].
Defined.

Lemma sent_requests_are_labelled_witness :
  let req := @buildRequest Demo.runtime "POST" "https://example.com/keys" (Some "{}")
               "application/json" [("X-Token", "t")] in
  Method req = "POST" /\
  is_Some (Header req !! "User-Agent") /\
  (Body req <> None -> is_Some (Header req !! "Content-Type")) /\
  (Body req = None <-> Some (VString "{}") = None).
Proof.
  intros req.
  apply (@sent_requests_are_labelled Demo.runtime "POST" "https://example.com/keys"
           (Some (VString "{}")) [("X-Token", "t")] req).
  apply list_elem_of_here.
Defined.

Example config_get_examples :
  @config_get Demo.runtime Keys.interpreter "{'region':'eu'}" [VString "region"; VString "us"]
    = Returns (VString "eu") [] /\
  @config_get Demo.runtime Keys.interpreter "{'region':'eu'}" [VString "zone"]
    = Returns VUndefined [] /\
  @config_get Demo.runtime Keys.interpreter "{'region':'eu'}" []
    = Returns (VObject [("region", VString "eu")]) [].
Proof. repeat split; reflexivity. Qed.

End ScriptDeliveryFacts.

(** ** Pending delivery quantity and script pools *)

Module VirtualInventoryFacts.

Import VirtualInventory.

Lemma boundFor_unbound bindings pool :
  pool ∉ (BoundPool <$> bindings) -> boundFor bindings pool = 0.
Proof.
  unfold boundFor. induction bindings as [|b bindings IH]; intros Hn; [reflexivity|].
  rewrite fmap_cons, not_elem_of_cons in Hn. destruct Hn as [Hne Hn].
  rewrite filter_cons. destruct (decide (BoundPool b = pool)); [congruence|]. auto.
Qed.

Lemma boundQuantities_lookup bindings pool :
  boundQuantities bindings !! pool =
    if decide (pool ∈ (BoundPool <$> bindings)) then Some (boundFor bindings pool) else None.
Proof.
  induction bindings as [|b bindings IH].
  - unfold boundQuantities. cbn [foldr]. rewrite lookup_empty.
    destruct (decide (pool ∈ BoundPool <$> [])) as [Hin|]; [|reflexivity].
    exfalso. eapply not_elem_of_nil; eassumption.
  - cbn [boundQuantities foldr]. fold (boundQuantities bindings). unfold addBinding.
    unfold boundFor. rewrite fmap_cons, filter_cons.
    destruct (decide (BoundPool b = pool)) as [->|Hne].
    + rewrite lookup_insert_eq. rewrite decide_True by (left; reflexivity).
      rewrite IH. f_equal. rewrite fmap_cons. unfold boundFor, sumZ. cbn [foldr]. f_equal.
      case_decide as Hin; [reflexivity|]. simpl.
      symmetry. apply (boundFor_unbound _ _ Hin).
    + rewrite lookup_insert_ne by assumption. rewrite IH.
      case_decide as Hin.
      * rewrite decide_True by (right; assumption). reflexivity.
      * rewrite decide_False; [reflexivity|].
        rewrite not_elem_of_cons. split; [congruence | assumption].
Qed.

Lemma sumAcrossPools_insert (m : gmap N Z) pool q :
  m !! pool = None -> sumAcrossPools (<[pool := q]> m) = q + sumAcrossPools m.
Proof.
  intros Hnone. unfold sumAcrossPools.
  apply (map_fold_insert_L (fun (_ : N) (q acc : Z) => q + acc)); [intros; lia | assumption].
Qed.

Lemma sumAcrossPools_update (m : gmap N Z) pool q :
  sumAcrossPools (<[pool := q]> m) = q + sumAcrossPools m - default 0 (m !! pool).
Proof.
  destruct (m !! pool) as [q0|] eqn:Hm; simpl.
  - rewrite <- (insert_delete_id m pool q0 Hm) at 2.
    rewrite <- insert_delete_eq.
    rewrite !sumAcrossPools_insert by apply lookup_delete_eq. lia.
  - rewrite sumAcrossPools_insert by assumption. lia.
Qed.

Lemma sumAcrossPools_bound bindings :
  sumAcrossPools (boundQuantities bindings) = sumZ (BoundQuantity <$> bindings).
Proof.
  induction bindings as [|b bindings IH]; [reflexivity|].
  cbn [boundQuantities foldr]. fold (boundQuantities bindings). unfold addBinding.
  rewrite sumAcrossPools_update, IH, fmap_cons. unfold sumZ. cbn [foldr]. lia.
Qed.

(** Summing "bound minus sold" over the pools of a map separates into the sum
    of the bound quantities and the sum of the sold quantities. *)
Lemma sumAcrossPools_minus (sold : N -> Z) (m : gmap N Z) :
  sumAcrossPools (map_imap (fun pool bound => Some (bound - sold pool)) m)
  = sumAcrossPools m - map_fold (fun pool (_ : Z) acc => sold pool + acc) 0 m.
Proof.
  induction m as [|pool q m Hnone IH] using map_ind.
  - rewrite map_imap_empty. unfold sumAcrossPools. rewrite !map_fold_empty. reflexivity.
  - rewrite (map_imap_insert_Some _ _ _ _ (q - sold pool)) by reflexivity.
    rewrite !sumAcrossPools_insert; [|assumption|rewrite map_lookup_imap, Hnone; reflexivity].
    rewrite (map_fold_insert_L (fun pool (_ : Z) acc => sold pool + acc));
      [|intros; lia|assumption].
    rewrite IH. lia.
Qed.

Lemma length_filter_split {A} (P Q R : A -> Prop)
    `{!forall x, Decision (P x)} `{!forall x, Decision (Q x)} `{!forall x, Decision (R x)}
    (l : list A) :
  (forall x, P x <-> Q x \/ R x) ->
  (forall x, Q x -> R x -> False) ->
  length (filter P l) = (length (filter Q l) + length (filter R l))%nat.
Proof.
  intros Hsplit Hdisjoint. induction l as [|x l IH]; [reflexivity|].
  rewrite !filter_cons.
  destruct (decide (P x)) as [HP|HP], (decide (Q x)) as [HQ|HQ], (decide (R x)) as [HR|HR];
    cbn [length]; rewrite IH; try lia; exfalso.
  - eauto.
  - apply Hsplit in HP. tauto.
  - apply HP, Hsplit. tauto.
  - apply HP, Hsplit. tauto.
  - apply HP, Hsplit. tauto.
Qed.

Lemma count_sold_insert (stock : list StockItem) orderNo (m : gmap N Z) pool q :
  m !! pool = None ->
  length (filter (fun s => StockStatusOf s = Sold /\ OrderRef s = Some orderNo
                           /\ is_Some (<[pool := q]> m !! StockPool s)) stock)
  = (length (filter (soldTo orderNo pool) stock)
     + length (filter (fun s => StockStatusOf s = Sold /\ OrderRef s = Some orderNo
                                /\ is_Some (m !! StockPool s)) stock))%nat.
Proof.
  intros Hnone. apply length_filter_split.
  - intros s. unfold soldTo. rewrite lookup_insert.
    destruct (decide (pool = StockPool s)) as [<-|Hne].
    + split; [intros (? & ? & _); left; auto | intros [(? & ? & _)|(? & ? & Hs)]; eauto].
    + split; [intros (? & ? & ?); right; auto | intros [(? & ? & ?)|?]; [congruence|auto]].
  - intros s (_ & _ & <-) (_ & _ & [? Hs]). congruence.
Qed.

Lemma sold_across_pools L orderNo (m : gmap N Z) :
  map_fold (fun pool (_ : Z) acc => soldFor L orderNo pool + acc) 0 m
  = Z.of_nat (length (filter (fun s => StockStatusOf s = Sold /\ OrderRef s = Some orderNo
                                       /\ is_Some (m !! StockPool s)) (Stock L))).
Proof.
  induction m as [|pool q m Hnone IH] using map_ind.
  - rewrite map_fold_empty.
    induction (Stock L) as [|s stock IHs]; [reflexivity|].
    rewrite filter_cons, lookup_empty. case_decide as H; [|assumption].
    destruct H as (_ & _ & [? Hs]). discriminate.
  - rewrite (map_fold_insert_L (fun pool (_ : Z) acc => soldFor L orderNo pool + acc));
      [|intros; lia|assumption].
    rewrite IH, count_sold_insert by assumption. unfold soldFor. lia.
Qed.

(** A sum across the pools of a map, taken pool by pool over any list that
    names each pool of the map once. *)
Lemma sumAcrossPools_list (pools : list N) : forall m : gmap N Z,
  NoDup pools ->
  (forall pool, pool ∈ pools <-> is_Some (m !! pool)) ->
  sumAcrossPools m = sumZ ((fun pool => default 0 (m !! pool)) <$> pools).
Proof.
  induction pools as [|p pools IH]; intros m Hnd Hdom.
  - assert (m = ∅) as ->; [|reflexivity].
    apply map_eq. intros pool. rewrite lookup_empty.
    destruct (m !! pool) eqn:Hm; [|reflexivity].
    exfalso. eapply not_elem_of_nil. apply Hdom. rewrite Hm. eauto.
  - apply NoDup_cons in Hnd as [Hp Hnd].
    destruct (proj1 (Hdom p) ltac:(left)) as [q Hq].
    rewrite <- (insert_delete_id m p q Hq) at 1.
    rewrite sumAcrossPools_insert by apply lookup_delete_eq.
    rewrite fmap_cons, Hq. unfold sumZ at 1. cbn [foldr default]. f_equal.
    rewrite (IH (delete p m) Hnd).
    + fold (sumZ ((fun pool => default 0 (m !! pool)) <$> pools)). f_equal.
      apply list_fmap_ext. intros i pool Hi.
      rewrite lookup_delete_ne; [reflexivity|].
      intros ->. apply Hp. eapply list_elem_of_lookup_2; eassumption.
    + intros pool. rewrite lookup_delete. case_decide as Heq.
      * subst pool. split; [contradiction | intros [? ?]; discriminate].
      * rewrite <- Hdom. rewrite elem_of_cons. split; [tauto | intros [?|?]; congruence].
Qed.

(** C2. The pending delivery quantity of an order is the number of reserved
    stock rows of script pools that reference the order (the legacy path) plus
    the sum, over the pools the order is bound to, of the bound quantity minus
    the quantity already sold to the order (the current path).  [PendingFor]
    holds that difference for each bound pool and nothing for other pools, and
    the sum across pools is the total bound quantity minus the rows already
    sold to the order from the bound pools. *)
Theorem PendingDeliveryQuantity_dual_path
    (L : Ledger) (orderNo : string) (bindings : list Binding) :
  (forall pool : N,
     PendingFor L orderNo bindings !! pool =
       if decide (pool ∈ (BoundPool <$> bindings))
       then Some (boundFor bindings pool - soldFor L orderNo pool) else None) /\
  PendingDeliveryQuantity L orderNo bindings
  = Z.of_nat (length (filter (legacyPlaceholder L orderNo) (Stock L)))
    + sumZ ((fun pool => boundFor bindings pool - soldFor L orderNo pool)
              <$> remove_dups (BoundPool <$> bindings)) /\
  PendingDeliveryQuantity L orderNo bindings
  = Z.of_nat (length (filter (legacyPlaceholder L orderNo) (Stock L)))
    + (sumZ (BoundQuantity <$> bindings)
       - Z.of_nat (length (filter (soldInBoundPools orderNo bindings) (Stock L)))).
Proof.
  assert (forall pool : N,
     PendingFor L orderNo bindings !! pool =
       if decide (pool ∈ (BoundPool <$> bindings))
       then Some (boundFor bindings pool - soldFor L orderNo pool) else None) as Hper.
  { intros pool. unfold PendingFor. rewrite map_lookup_imap, boundQuantities_lookup.
    case_decide; reflexivity. }
  split; [exact Hper|]. split.
  - unfold PendingDeliveryQuantity, legacyReserved. f_equal.
    rewrite (sumAcrossPools_list (remove_dups (BoundPool <$> bindings))).
    + f_equal. apply list_fmap_ext. intros i pool Hi.
      apply list_elem_of_lookup_2 in Hi. rewrite elem_of_remove_dups in Hi.
      rewrite Hper. destruct (decide (pool ∈ BoundPool <$> bindings)); [reflexivity | contradiction].
    + apply NoDup_remove_dups.
    + intros pool. rewrite elem_of_remove_dups, Hper.
      destruct (decide (pool ∈ BoundPool <$> bindings)) as [Hin|Hin].
      * split; eauto.
      * split; [contradiction | intros [? ?]; discriminate].
  - unfold PendingDeliveryQuantity, PendingFor, legacyReserved.
    rewrite sumAcrossPools_minus, sumAcrossPools_bound, sold_across_pools.
    do 4 f_equal. apply list_filter_iff. intros s. unfold soldInBoundPools.
    rewrite boundQuantities_lookup. case_decide as Hin.
    + split; intros (? & ? & ?); eauto.
    + split; intros (? & ? & Hs); [destruct Hs; discriminate | contradiction].
Qed.

(** The two fixtures of the design document: an order served by legacy
    placeholders, and an order that has bindings only. *)
Example pending_legacy_placeholder_order :
  let L := mkLedger [mkPool 7 Script 0; mkPool 8 Static 0]
             [mkStock 7 "" "" Reserved (Some "A-1"); mkStock 7 "" "" Reserved (Some "A-1");
              mkStock 8 "K" "" Reserved (Some "A-1"); mkStock 7 "" "" Reserved (Some "B-2")] in
  PendingDeliveryQuantity L "A-1" [] = 2.
Proof. vm_compute. reflexivity. Qed.

Example pending_bindings_only_order :
  let L := mkLedger [mkPool 7 Script 1]
             [mkStock 7 "KEY-001" "" Sold (Some "C-3")] in
  PendingDeliveryQuantity L "C-3" [mkBinding 0 7 2; mkBinding 1 7 1] = 2.
Proof. vm_compute. reflexivity. Qed.

(** *** A script that reports failure *)

Section ScriptPools.

Context {vm : ScriptDelivery.Interpreter}.

(** What [parseDeliveryResult] answers to an object whose [success] is not the
    boolean [true]. *)
Lemma parseDeliveryResult_unsuccessful obj quantity :
  as_bool (field "success" obj) <> Some true ->
  let m := default "" (as_string (field "message" obj)) in
  ScriptDelivery.parseDeliveryResult (Some (VObject obj)) quantity
  = ScriptDelivery.mkOutcome
      (Some (ScriptDelivery.mkResult false [] m))
      (Some ("script delivery failed: " ++ (if is_empty m then "script delivery failed" else m)))
      [].
Proof.
  intros Hs m. unfold ScriptDelivery.parseDeliveryResult.
  destruct (as_bool (field "success" obj)) as [[|]|]; [congruence| |]; reflexivity.
Qed.

(** C3. When [onDeliver] returns an object whose [success] is [false] or
    absent, [ExecuteDeliveryScript] fails: its error is "script delivery
    failed: " followed by the script's [message], or by "script delivery
    failed" when the message is empty; the result it returns carries the
    message and no item; and the delivery of the pool leaves the ledger as it
    was, so no stock row is created. *)
Theorem unsuccessful_script_fails_delivery
    (L : Ledger) (inventory : Models.VirtualInventory) (order : Models.Order) (quantity : Z)
    (fn : Value -> Value -> option Value + string) (obj : list (string * Value)) :
  Models.Script inventory <> "" ->
  ScriptDelivery.vm_RunString (Models.Script inventory) = ScriptDelivery.LoadOk (Some fn) ->
  fn (ScriptDelivery.orderToJS order quantity)
     (VObject (ScriptDelivery.parseScriptConfig (Models.ScriptConfig inventory)).1)
    = inl (Some (VObject obj)) ->
  as_bool (field "success" obj) <> Some true ->
  let m := default "" (as_string (field "message" obj)) in
  let failure := "script delivery failed: " ++ (if is_empty m then "script delivery failed" else m) in
  let o := ScriptDelivery.ExecuteDeliveryScript inventory order quantity in
  ScriptDelivery.err o = Some failure /\
  ScriptDelivery.ret o = Some (ScriptDelivery.mkResult false [] m) /\
  deliverScriptPool L inventory order quantity = (L, Some failure) /\
  Stock (deliverScriptPool L inventory order quantity).1 = Stock L.
Proof.
  intros Hscript Hload Hcall Hs m failure o.
  assert (ScriptDelivery.err o = Some failure /\
          ScriptDelivery.ret o = Some (ScriptDelivery.mkResult false [] m)) as [Herr Hret].
  { subst o. unfold ScriptDelivery.ExecuteDeliveryScript.
    assert (is_empty (Models.Script inventory) = false) as ->.
    { unfold is_empty. destruct (String.eqb_spec (Models.Script inventory) ""); congruence. }
    rewrite Hload. cbv zeta. rewrite Hcall.
    rewrite (parseDeliveryResult_unsuccessful obj quantity Hs). split; reflexivity. }
  assert (deliverScriptPool L inventory order quantity = (L, Some failure)) as Hdeliver.
  { unfold deliverScriptPool. fold o. rewrite Herr. reflexivity. }
  repeat split; try assumption. rewrite Hdeliver. reflexivity.
Qed.

End ScriptPools.

Lemma unsuccessful_script_fails_delivery_witness :
  @deliverScriptPool NoStock.interpreter NoStock.ledger NoStock.inventory NoStock.order 1
  = (NoStock.ledger, Some "script delivery failed: no stock").
Proof.
  pose proof (@unsuccessful_script_fails_delivery NoStock.interpreter
    NoStock.ledger NoStock.inventory NoStock.order 1 NoStock.onDeliver
    [("success", VBool false); ("message", VString "no stock")]
    ltac:(discriminate) eq_refl eq_refl ltac:(discriminate)) as (_ & _ & H & _).
  exact H.
Defined.

End VirtualInventoryFacts.

(** ** Order auto-cancel *)

Module OrderCancelFacts.

Import Models OrderCancel.

(** *** The conditional update *)

Lemma updateRow_not_pending order remark row :
  Status row <> OrderStatusPendingPayment -> updateRow order remark row = row.
Proof.
  intros Hs. unfold updateRow, stillPending.
  rewrite (bool_decide_eq_false_2 _ Hs), andb_false_r. reflexivity.
Qed.

Lemma updateRow_other order remark row :
  ID row <> ID order -> updateRow order remark row = row.
Proof.
  intros Hid. unfold updateRow, stillPending.
  destruct (N.eqb_spec (ID row) (ID order)); [contradiction | reflexivity].
Qed.

Lemma stillPending_updateRow order remark o row :
  stillPending order (updateRow o remark row)
  = stillPending order row && negb (stillPending o row).
Proof.
  unfold updateRow. destruct (stillPending o row) eqn:Ho.
  - rewrite andb_false_r. unfold stillPending, cancelled. simpl. apply andb_false_r.
  - rewrite andb_true_r. reflexivity.
Qed.

Lemma RowsAffected_zero order rows :
  RowsAffected order rows = 0%nat <-> forall row, row ∈ rows -> stillPending order row = false.
Proof.
  unfold RowsAffected. induction rows as [|row rows IH].
  - split; [intros _ row Hin; exfalso; eapply not_elem_of_nil; eassumption | reflexivity].
  - rewrite filter_cons. destruct (decide (stillPending order row = true)) as [Hp|Hp].
    + split; [discriminate|]. intros H. rewrite (H row) in Hp by left. discriminate.
    + rewrite IH. apply not_true_is_false in Hp. split.
      * intros H r Hin. apply elem_of_cons in Hin as [->|Hin]; auto.
      * intros H r Hin. apply H. right. assumption.
Qed.

Lemma conditionalCancel_unaffected order remark rows :
  RowsAffected order rows = 0%nat -> conditionalCancel order remark rows = rows.
Proof.
  rewrite RowsAffected_zero. unfold conditionalCancel. intros H.
  induction rows as [|row rows IH]; [reflexivity|].
  rewrite fmap_cons. f_equal.
  - unfold updateRow. rewrite (H row) by left. reflexivity.
  - apply IH. intros r Hin. apply H. right. assumption.
Qed.

Lemma RowsAffected_after order remark rows :
  RowsAffected order (conditionalCancel order remark rows) = 0%nat.
Proof.
  apply RowsAffected_zero. intros row Hin. unfold conditionalCancel in Hin.
  apply list_elem_of_fmap in Hin as (r & -> & _).
  rewrite stillPending_updateRow. destruct (stillPending order r); reflexivity.
Qed.

Lemma conditionalCancel_lookup order remark rows (k : nat) :
  conditionalCancel order remark rows !! k =
    (fun row => if decide (ID row = ID order /\ Status row = OrderStatusPendingPayment)
                then cancelled remark row else row) <$> rows !! k.
Proof.
  unfold conditionalCancel. rewrite list_lookup_fmap.
  destruct (rows !! k) as [row|]; [|reflexivity]. simpl. f_equal.
  unfold updateRow, stillPending.
  destruct (N.eqb_spec (ID row) (ID order)) as [He|He]; simpl.
  - destruct (decide (Status row = OrderStatusPendingPayment)) as [Hs|Hs].
    + rewrite bool_decide_eq_true_2 by assumption. rewrite decide_True by auto. reflexivity.
    + rewrite bool_decide_eq_false_2 by assumption. rewrite decide_False by tauto. reflexivity.
  - rewrite decide_False by tauto. reflexivity.
Qed.

(** *** One call of [cancelOrder] *)

Lemma cancelOrder_skips s f rows order hours :
  updateError f order = None ->
  RowsAffected order rows = 0%nat ->
  cancelOrder s f rows order hours = (rows, None, []).
Proof.
  intros Hu Hz. unfold cancelOrder. rewrite Hu, Hz. simpl.
  rewrite conditionalCancel_unaffected by assumption. reflexivity.
Qed.

Lemma cancelOrder_rows s f rows order hours :
  (cancelOrder s f rows order hours).1.1 =
    match updateError f order with
    | Some _ => rows
    | None => conditionalCancel order (adminRemark hours) rows
    end.
Proof.
  unfold cancelOrder. fold (adminRemark hours).
  destruct (updateError f order); [reflexivity|].
  destruct (RowsAffected order rows =? 0)%nat; reflexivity.
Qed.

Lemma cancelOrder_again s f1 f2 rows order hours :
  updateError f1 order = None ->
  cancelOrder s f2 (cancelOrder s f1 rows order hours).1.1 order hours
  = ((cancelOrder s f1 rows order hours).1.1, updateError f2 order, []).
Proof.
  intros Hu. rewrite cancelOrder_rows, Hu.
  unfold cancelOrder at 1. destruct (updateError f2 order) as [e|]; [reflexivity|].
  rewrite RowsAffected_after. simpl.
  rewrite conditionalCancel_unaffected by apply RowsAffected_after. reflexivity.
Qed.

(** *** The releases after a successful update *)

Lemma mjoin_imap_bind {A B C} (g : nat -> A -> list B) (h : nat -> A -> list C)
    (k : C -> list B) (l : list A) :
  (forall i x, g i x = h i x ≫= k) ->
  mjoin (imap g l) = mjoin (imap h l) ≫= k.
Proof.
  revert g h. induction l as [|x l IH]; intros g h Hgh; [reflexivity|].
  cbn [imap mjoin list_join]. rewrite bind_app, Hgh. f_equal.
  apply IH. intros i y. apply Hgh.
Qed.

Lemma releaseItem_planned f order i item :
  releaseItem f order i item = plannedItem order i item ≫= outcome f order.
Proof.
  unfold releaseItem, plannedItem.
  destruct (InventoryBindings order !! Z.of_nat i) as [inventoryID|]; [|reflexivity].
  destruct (N.ltb_spec 0 inventoryID) as [Hlt|Hge].
  - rewrite decide_True by assumption. cbn [mbind list_bind]. rewrite app_nil_r. reflexivity.
  - rewrite decide_False by lia. reflexivity.
Qed.

Lemma releaseResources_planned s f order :
  releaseResources s f order
  = ((plannedReleases s order ≫= outcome f order) ++ [orderAutoCancelled order])%list.
Proof.
  unfold releaseResources, plannedReleases, releaseInventory.
  rewrite !bind_app, <- !app_assoc. f_equal; [|f_equal; [|f_equal; [|f_equal]]].
  - apply mjoin_imap_bind. intros. apply releaseItem_planned.
  - unfold releaseVirtualStock. destruct (virtualInventorySvc s); [|reflexivity].
    cbn [mbind list_bind]. rewrite app_nil_r. reflexivity.
  - unfold releasePromoCode. destruct (PromoCodeID order); [|reflexivity].
    destruct (promoCodeRepo s); [|reflexivity].
    cbn [mbind list_bind]. rewrite app_nil_r. reflexivity.
  - unfold deleteSerials. destruct (serialService s); [|reflexivity].
    cbn [mbind list_bind]. rewrite app_nil_r. reflexivity.
Qed.

Lemma releases_outcomes f order calls :
  releases (calls ≫= outcome f order) = calls.
Proof.
  unfold releases. induction calls as [|c calls IH]; [reflexivity|].
  cbn [mbind list_bind]. rewrite omap_app. fold (calls ≫= outcome f order). rewrite IH.
  unfold outcome, attempt. destruct (callError f c); reflexivity.
Qed.

Lemma releases_releaseResources s f order :
  releases (releaseResources s f order) = plannedReleases s order.
Proof.
  rewrite releaseResources_planned. unfold releases. rewrite omap_app.
  fold (releases (plannedReleases s order ≫= outcome f order)).
  rewrite releases_outcomes. apply app_nil_r.
Qed.

Lemma hasPending_false i rows :
  hasPending i rows = false <-> forall row, row ∈ rows -> pendingRow i row = false.
Proof.
  unfold hasPending. induction rows as [|row rows IH]; simpl.
  - split; [intros _ r Hin; exfalso; eapply not_elem_of_nil; eassumption | reflexivity].
  - rewrite orb_false_iff, IH. split.
    + intros [H1 H2] r Hin. apply elem_of_cons in Hin as [->|Hin]; auto.
    + intros H. split; [apply H; left | intros r Hin; apply H; right; assumption].
Qed.

Lemma hasPending_after order remark rows :
  hasPending (ID order) (conditionalCancel order remark rows) = false.
Proof.
  apply hasPending_false. intros row Hin.
  pose proof (RowsAffected_after order remark rows) as Hz.
  rewrite RowsAffected_zero in Hz. apply (Hz row Hin).
Qed.

(** C6. Once the conditional update of [cancelOrder] has succeeded, the call
    reports success and leaves the orders table as the update made it, with no
    pending row of the order, whatever the release calls answer.  The releases
    attempted are the planned ones (inventory of each bound item, virtual
    stock, promo code, serial numbers), each attempted whether or not an
    earlier one failed, and a release that fails is followed by its log line
    and nothing else. *)
Theorem release_failures_do_not_undo_cancellation
    (s : OrderCancelService) (f : Faults) (rows : list Order) (order : Order) (hours : Z) :
  updateError f order = None ->
  (0 < RowsAffected order rows)%nat ->
  let r := cancelOrder s f rows order hours in
  r.1.2 = None /\
  r.1.1 = conditionalCancel order (adminRemark hours) rows /\
  hasPending (ID order) r.1.1 = false /\
  releases r.2 = plannedReleases s order /\
  r.2 = ((plannedReleases s order ≫= outcome f order) ++ [orderAutoCancelled order])%list /\
  (forall c e, callError f c = Some e ->
     outcome f order c = [Attempt c (Some e); Printf (failureLine order c e)]).
Proof.
  intros Hu Haff r. subst r. unfold cancelOrder. fold (adminRemark hours). rewrite Hu.
  destruct (Nat.eqb_spec (RowsAffected order rows) 0) as [Hz|_]; [lia|]. cbn [fst snd].
  split; [reflexivity|]. split; [reflexivity|].
  split; [apply hasPending_after|].
  split; [apply releases_releaseResources|].
  split; [apply releaseResources_planned|].
  intros c e Hc. unfold outcome, attempt. rewrite Hc. reflexivity.
Qed.

(** *** The sweep *)

Lemma sweptRow_updateRow remark o processed row :
  sweptRow remark processed (updateRow o remark row) = sweptRow remark (o :: processed) row.
Proof.
  unfold sweptRow, updateRow, stillPending. cbn [existsb].
  destruct (N.eqb_spec (ID row) (ID o)) as [He|He]; cbn [andb orb].
  - destruct (decide (Status row = OrderStatusPendingPayment)) as [Hs|Hs].
    + rewrite (bool_decide_eq_true_2 _ Hs). reflexivity.
    + rewrite (bool_decide_eq_false_2 _ Hs). cbn [andb].
      rewrite (bool_decide_eq_false_2 _ Hs). reflexivity.
  - reflexivity.
Qed.

Lemma sweptRow_nil remark row : sweptRow remark [] row = row.
Proof. unfold sweptRow. cbn [existsb]. rewrite andb_false_r. reflexivity. Qed.

Lemma cancelNext_rows s f hours acc order :
  (cancelNext s f hours acc order).1.1 = (cancelOrder s f acc.1.1 order hours).1.1.
Proof.
  destruct acc as [[rows events] count]. unfold cancelNext. cbn [fst].
  destruct (cancelOrder s f rows order hours) as [[rows' [e|]] evs]; reflexivity.
Qed.

Lemma fold_cancelNext_rows s f hours orders : forall acc,
  (fold_left (cancelNext s f hours) orders acc).1.1
  = sweptRow (adminRemark hours) (updated f orders) <$> acc.1.1.
Proof.
  induction orders as [|o orders IH]; intros acc.
  - cbn [fold_left]. unfold updated. rewrite filter_nil.
    rewrite (list_fmap_ext _ id acc.1.1); [symmetry; apply list_fmap_id|].
    intros ? row _. apply sweptRow_nil.
  - cbn [fold_left]. rewrite IH, cancelNext_rows, cancelOrder_rows.
    unfold updated. rewrite filter_cons.
    destruct (updateError f o) as [e|] eqn:Hu.
    + rewrite decide_False by discriminate. reflexivity.
    + rewrite decide_True by reflexivity. unfold conditionalCancel.
      rewrite <- list_fmap_compose. apply list_fmap_ext.
      intros ? row _. apply sweptRow_updateRow.
Qed.

(** The rows of the orders table after a sweep. *)
Lemma cancelExpiredOrders_rows s f now rows :
  (cancelExpiredOrders s f now rows).1 =
    match queryError f with
    | Some _ => rows
    | None =>
        sweptRow (adminRemark (getAutoCancelHours s))
          (updated f (expiredOrders (cutoff now (getAutoCancelHours s)) rows)) <$> rows
    end.
Proof.
  unfold cancelExpiredOrders. destruct (queryError f); [reflexivity|]. cbv zeta.
  set (orders := expiredOrders _ rows).
  pose proof (fold_cancelNext_rows s f (getAutoCancelHours s) orders (rows, [], 0)) as Hfold.
  destruct (Nat.eqb_spec (length orders) 0) as [Hz|Hnz].
  - apply nil_length_inv in Hz. rewrite Hz in *. exact Hfold.
  - destruct (fold_left _ orders _) as [[rows' events] count]. exact Hfold.
Qed.

(** **** Counting cancellations *)

Lemma cancellations_app i a b :
  cancellations i (a ++ b) = (cancellations i a + cancellations i b)%nat.
Proof. unfold cancellations. rewrite filter_app, length_app. reflexivity. Qed.

Lemma cancellations_outcomes f order i calls :
  cancellations i (calls ≫= outcome f order) = 0%nat.
Proof.
  induction calls as [|c calls IH]; [reflexivity|].
  cbn [mbind list_bind]. fold (calls ≫= outcome f order).
  rewrite cancellations_app, IH.
  unfold outcome, attempt. destruct (callError f c); reflexivity.
Qed.

Lemma cancellations_releaseResources s f order i :
  cancellations i (releaseResources s f order) = if N.eqb (ID order) i then 1%nat else 0%nat.
Proof.
  rewrite releaseResources_planned, cancellations_app, cancellations_outcomes.
  unfold cancellations. rewrite filter_cons, filter_nil. cbn [isCancellation orderAutoCancelled].
  destruct (N.eqb (ID order) i); reflexivity.
Qed.

Lemma pendingRow_updateRow i order remark row :
  ID order <> i -> pendingRow i (updateRow order remark row) = pendingRow i row.
Proof.
  intros Hne. unfold updateRow, stillPending.
  destruct (N.eqb_spec (ID row) (ID order)) as [He|He]; [|reflexivity].
  destruct (bool_decide (Status row = OrderStatusPendingPayment)); [|reflexivity].
  unfold pendingRow. cbn [andb cancelled ID]. rewrite He.
  destruct (N.eqb_spec (ID order) i); [contradiction | reflexivity].
Qed.

Lemma hasPending_other i order remark rows :
  ID order <> i -> hasPending i (conditionalCancel order remark rows) = hasPending i rows.
Proof.
  intros Hne. unfold hasPending, conditionalCancel.
  induction rows as [|row rows IH]; [reflexivity|].
  rewrite fmap_cons. cbn [existsb]. rewrite IH, pendingRow_updateRow by assumption. reflexivity.
Qed.

Lemma hasPending_affected order rows :
  (0 < RowsAffected order rows)%nat -> hasPending (ID order) rows = true.
Proof.
  intros Haff. destruct (hasPending (ID order) rows) eqn:Hp; [reflexivity|].
  rewrite hasPending_false in Hp.
  assert (RowsAffected order rows = 0%nat) by (apply RowsAffected_zero; exact Hp). lia.
Qed.

(** A call of [cancelOrder] records a cancellation of the order [i] exactly
    when it takes the last pending row of [i] out of the table. *)
Lemma cancelOrder_conserves s f rows order hours i :
  (cancellations i (cancelOrder s f rows order hours).2
   + pendingUnits i (cancelOrder s f rows order hours).1.1)%nat
  = pendingUnits i rows.
Proof.
  unfold cancelOrder. fold (adminRemark hours).
  destruct (updateError f order); [reflexivity|].
  destruct (Nat.eqb_spec (RowsAffected order rows) 0) as [Hz|Hnz]; cbn [fst snd].
  - rewrite conditionalCancel_unaffected by assumption. reflexivity.
  - rewrite cancellations_releaseResources. unfold pendingUnits.
    destruct (N.eqb_spec (ID order) i) as [<-|Hne].
    + rewrite hasPending_after, hasPending_affected by lia. reflexivity.
    + rewrite hasPending_other by assumption. reflexivity.
Qed.

Lemma cancelNext_conserves s f hours i rows events count order :
  let acc' := cancelNext s f hours (rows, events, count) order in
  (cancellations i acc'.1.2 + pendingUnits i acc'.1.1)%nat
  = (cancellations i events + pendingUnits i rows)%nat.
Proof.
  pose proof (cancelOrder_conserves s f rows order hours i) as Hc.
  unfold cancelNext.
  destruct (cancelOrder s f rows order hours) as [[rows' [e|]] evs]; cbn [fst snd] in *.
  - rewrite !cancellations_app. unfold cancelError at 1.
    change (cancellations i [Printf _]) with 0%nat. lia.
  - rewrite cancellations_app. lia.
Qed.

Lemma fold_cancelNext_conserves s f hours i orders : forall acc,
  let acc' := fold_left (cancelNext s f hours) orders acc in
  (cancellations i acc'.1.2 + pendingUnits i acc'.1.1)%nat
  = (cancellations i acc.1.2 + pendingUnits i acc.1.1)%nat.
Proof.
  induction orders as [|o orders IH]; intros acc; [reflexivity|].
  cbn [fold_left]. cbv zeta in *. rewrite IH.
  destruct acc as [[rows events] count]. apply cancelNext_conserves.
Qed.

Lemma cancelExpiredOrders_conserves s f now rows i :
  (cancellations i (cancelExpiredOrders s f now rows).2
   + pendingUnits i (cancelExpiredOrders s f now rows).1)%nat
  = pendingUnits i rows.
Proof.
  unfold cancelExpiredOrders. destruct (queryError f); [reflexivity|]. cbv zeta.
  set (orders := expiredOrders _ rows).
  destruct (Nat.eqb_spec (length orders) 0) as [Hz|Hnz]; [reflexivity|].
  pose proof (fold_cancelNext_conserves s f (getAutoCancelHours s) i orders (rows, [], 0)) as Hfold.
  cbv zeta in Hfold.
  destruct (fold_left _ orders _) as [[rows' events] count]. cbn [fst snd] in *.
  destruct (Z.ltb 0 count); [|exact Hfold].
  rewrite cancellations_app. change (cancellations i [SystemOperation _ _ _ _]) with 0%nat.
  rewrite Nat.add_0_r. exact Hfold.
Qed.

Lemma pendingUnits_le i rows : (pendingUnits i rows <= 1)%nat.
Proof. unfold pendingUnits. destruct (hasPending i rows); lia. Qed.

Lemma expiredOrders_elem cutoffTime rows order :
  order ∈ expiredOrders cutoffTime rows ->
  order ∈ rows /\ Status order = OrderStatusPendingPayment /\ CreatedAt order < cutoffTime.
Proof.
  unfold expiredOrders. intros Hin.
  apply elem_of_take in Hin as (k & Hk & _).
  apply list_elem_of_lookup_2, list_elem_of_filter in Hk as [[Hs Hc] Hin]. auto.
Qed.

Lemma expiredOrders_all cutoffTime rows order :
  (length (filter (expired cutoffTime) rows) <= 100)%nat ->
  order ∈ rows -> Status order = OrderStatusPendingPayment -> CreatedAt order < cutoffTime ->
  order ∈ expiredOrders cutoffTime rows.
Proof.
  intros Hlen Hin Hs Hc. unfold expiredOrders. rewrite take_ge by exact Hlen.
  apply list_elem_of_filter. split; [split; assumption | assumption].
Qed.

Lemma hasPending_elem order rows :
  order ∈ rows -> Status order = OrderStatusPendingPayment -> hasPending (ID order) rows = true.
Proof.
  intros Hin Hs. destruct (hasPending (ID order) rows) eqn:Hp; [reflexivity|].
  rewrite hasPending_false in Hp. specialize (Hp order Hin). unfold pendingRow in Hp.
  rewrite N.eqb_refl, (bool_decide_eq_true_2 _ Hs) in Hp. discriminate.
Qed.

Lemma existsb_same_ID order processed :
  order ∈ processed -> existsb (fun o => N.eqb (ID order) (ID o)) processed = true.
Proof.
  intros Hin. apply existsb_exists. exists order.
  split; [apply list_elem_of_In; assumption | apply N.eqb_refl].
Qed.

Lemma sweptRow_processed remark processed order :
  order ∈ processed -> Status order = OrderStatusPendingPayment ->
  sweptRow remark processed order = cancelled remark order.
Proof.
  intros Hin Hs. unfold sweptRow.
  rewrite (bool_decide_eq_true_2 _ Hs), existsb_same_ID by assumption. reflexivity.
Qed.

Lemma sweptRow_cancelled remark remark' processed row :
  sweptRow remark' processed (cancelled remark row) = cancelled remark row.
Proof. reflexivity. Qed.

Lemma hasPending_swept remark processed order rows :
  order ∈ processed ->
  hasPending (ID order) (sweptRow remark processed <$> rows) = false.
Proof.
  intros Hin. apply hasPending_false. intros row Hrow.
  apply list_elem_of_fmap in Hrow as (r & -> & _).
  unfold sweptRow, pendingRow.
  destruct (decide (Status r = OrderStatusPendingPayment)) as [Hs|Hs].
  - rewrite (bool_decide_eq_true_2 _ Hs). cbn [andb].
    destruct (N.eqb_spec (ID r) (ID order)) as [He|He].
    + rewrite He, existsb_same_ID by assumption. apply andb_false_r.
    + destruct (existsb _ processed); cbn [cancelled ID];
        destruct (N.eqb_spec (ID r) (ID order)); try contradiction; reflexivity.
  - rewrite (bool_decide_eq_false_2 _ Hs). cbn [andb].
    rewrite (bool_decide_eq_false_2 _ Hs). apply andb_false_r.
Qed.

Lemma updated_elem f orders order :
  order ∈ orders -> updateError f order = None -> order ∈ updated f orders.
Proof. intros Hin Hu. unfold updated. apply list_elem_of_filter. auto. Qed.

(** The row of a processed order after the sweep. *)
Lemma cancelExpiredOrders_cancels s f now rows order (k : nat) :
  queryError f = None ->
  order ∈ expiredOrders (cutoff now (getAutoCancelHours s)) rows ->
  updateError f order = None ->
  rows !! k = Some order ->
  (cancelExpiredOrders s f now rows).1 !! k
  = Some (cancelled (adminRemark (getAutoCancelHours s)) order).
Proof.
  intros Hq Hin Hu Hk. rewrite cancelExpiredOrders_rows, Hq, list_lookup_fmap, Hk.
  cbn [fmap option_fmap option_map]. f_equal.
  apply sweptRow_processed; [apply updated_elem; assumption|].
  apply expiredOrders_elem in Hin. tauto.
Qed.

(** A row that is not pending is left alone by a sweep. *)
Lemma cancelExpiredOrders_keeps s f now rows row (k : nat) :
  rows !! k = Some row -> Status row <> OrderStatusPendingPayment ->
  (cancelExpiredOrders s f now rows).1 !! k = Some row.
Proof.
  intros Hk Hs. rewrite cancelExpiredOrders_rows.
  destruct (queryError f); [assumption|].
  rewrite list_lookup_fmap, Hk. cbn [fmap option_fmap option_map]. f_equal.
  unfold sweptRow. rewrite (bool_decide_eq_false_2 _ Hs). reflexivity.
Qed.

(** C5. [cancelOrder] changes the status by an update conditioned on the row
    still being [pending_payment]: exactly the pending rows with the order's
    primary key become [cancelled].  When no row is affected the call returns
    [nil], leaves the table as it was and attempts no release; a second call
    for the same order therefore changes nothing and releases nothing.  Over
    two sweeps in a row no order is recorded as cancelled more than once, and a
    stale pending order that the first sweep processes (without a database
    error) is cancelled by it exactly once, while the second sweep leaves its
    row alone. *)
Theorem auto_cancel_is_conditional_and_happens_once
    (s : OrderCancelService) (f1 f2 : Faults) (now1 now2 : Z)
    (rows : list Order) (order : Order) (hours : Z) :
  let once := cancelOrder s f1 rows order hours in
  let sweep1 := cancelExpiredOrders s f1 now1 rows in
  let sweep2 := cancelExpiredOrders s f2 now2 sweep1.1 in
  let remark := adminRemark (getAutoCancelHours s) in
  (updateError f1 order = None ->
     forall k : nat, once.1.1 !! k =
       (fun row => if decide (ID row = ID order /\ Status row = OrderStatusPendingPayment)
                   then cancelled (adminRemark hours) row else row) <$> rows !! k) /\
  (updateError f1 order = None -> RowsAffected order rows = 0%nat -> once = (rows, None, [])) /\
  (updateError f1 order = None ->
     cancelOrder s f2 once.1.1 order hours = (once.1.1, updateError f2 order, [])) /\
  (forall i, (cancellations i sweep1.2 + cancellations i sweep2.2 <= 1)%nat) /\
  (queryError f1 = None ->
   order ∈ expiredOrders (cutoff now1 (getAutoCancelHours s)) rows ->
   updateError f1 order = None ->
     cancellations (ID order) sweep1.2 = 1%nat /\
     cancellations (ID order) sweep2.2 = 0%nat /\
     hasPending (ID order) sweep1.1 = false /\
     (forall k : nat, rows !! k = Some order ->
        sweep1.1 !! k = Some (cancelled remark order) /\
        sweep2.1 !! k = Some (cancelled remark order))).
Proof.
  intros once sweep1 sweep2 remark.
  split; [|split; [|split; [|split]]].
  - intros Hu k. subst once. rewrite cancelOrder_rows, Hu. apply conditionalCancel_lookup.
  - intros Hu Hz. apply cancelOrder_skips; assumption.
  - intros Hu. apply cancelOrder_again. assumption.
  - intros i.
    pose proof (cancelExpiredOrders_conserves s f1 now1 rows i) as H1.
    pose proof (cancelExpiredOrders_conserves s f2 now2 sweep1.1 i) as H2.
    fold sweep1 in H1. fold sweep2 in H2.
    pose proof (pendingUnits_le i rows). lia.
  - intros Hq Hin Hu.
    pose proof (expiredOrders_elem _ _ _ Hin) as (Hrow & Hs & _).
    assert (hasPending (ID order) sweep1.1 = false) as Hnone.
    { subst sweep1. rewrite cancelExpiredOrders_rows, Hq.
      apply hasPending_swept, updated_elem; assumption. }
    pose proof (cancelExpiredOrders_conserves s f1 now1 rows (ID order)) as H1.
    pose proof (cancelExpiredOrders_conserves s f2 now2 sweep1.1 (ID order)) as H2.
    fold sweep1 in H1. fold sweep2 in H2. unfold pendingUnits in H1, H2.
    rewrite Hnone in H1, H2. rewrite (hasPending_elem _ _ Hrow Hs) in H1.
    split; [lia|]. split; [lia|]. split; [assumption|].
    intros k Hk.
    assert (sweep1.1 !! k = Some (cancelled remark order)) as Hk1.
    { apply cancelExpiredOrders_cancels; assumption. }
    split; [assumption|].
    apply cancelExpiredOrders_keeps; [assumption | discriminate].
Qed.

(** C9. When the configured auto-cancel hours are zero or negative the sweep
    runs with 72 hours: [getAutoCancelHours] answers 72, the cutoff is 72 hours
    before now, the sweep is the one of a service configured with 72, and a
    pending order created before that cutoff which the sweep processes without
    a database error ends up cancelled.  With at most 100 such orders the sweep
    processes them all. *)
Theorem unconfigured_hours_default_to_72
    (s : OrderCancelService) (f : Faults) (now : Z) (rows : list Order) :
  AutoCancelHours s <= 0 ->
  let cutoffTime := now - 72 * 3600 * 1000000000 in
  getAutoCancelHours s = 72 /\
  cutoff now (getAutoCancelHours s) = cutoffTime /\
  cancelExpiredOrders s f now rows
  = cancelExpiredOrders
      (mkService 72 (virtualInventorySvc s) (promoCodeRepo s) (serialService s)) f now rows /\
  (forall (k : nat) order,
     queryError f = None -> updateError f order = None ->
     rows !! k = Some order -> order ∈ expiredOrders cutoffTime rows ->
     (cancelExpiredOrders s f now rows).1 !! k
     = Some (cancelled "System auto-cancelled: order unpaid after 72 hours" order)) /\
  (forall order,
     (length (filter (expired cutoffTime) rows) <= 100)%nat ->
     order ∈ rows -> Status order = OrderStatusPendingPayment -> CreatedAt order < cutoffTime ->
     order ∈ expiredOrders cutoffTime rows).
Proof.
  intros Hh cutoffTime.
  assert (getAutoCancelHours s = 72) as Hget.
  { unfold getAutoCancelHours. destruct (Z.ltb_spec 0 (AutoCancelHours s)); [lia | reflexivity]. }
  assert (cutoff now (getAutoCancelHours s) = cutoffTime) as Hcut.
  { rewrite Hget. unfold cutoff, Go.time_Add, cutoffTime.
    change (Go.minus_hours 72) with (- (72 * 3600 * 1000000000)). lia. }
  split; [assumption|]. split; [assumption|]. split; [|split].
  - unfold cancelExpiredOrders. rewrite Hget.
    change (getAutoCancelHours (mkService 72 _ _ _)) with 72. reflexivity.
  - intros k order Hq Hu Hk Hin.
    rewrite (cancelExpiredOrders_cancels s f now rows order k Hq); [|rewrite Hcut|..]; try assumption.
    rewrite Hget. reflexivity.
  - intros order. apply expiredOrders_all.
Qed.

Example cancelOrder_with_failing_release :
  cancelOrder Shop.service Shop.faults Shop.orders Shop.stale 72
  = ([cancelled "System auto-cancelled: order unpaid after 72 hours" Shop.stale; Shop.done],
     None,
     [Attempt (InventoryReleaseReserve 5 2 "A-1") None;
      Attempt (VirtualReleaseStock "A-1") (Some "connection refused");
      Printf "[OrderCancel] Order A-1 failed to release virtual stock: connection refused";
      Attempt (PromoCodeReleaseReserve 9 "A-1") None;
      Attempt (DeleteSerialsByOrderID 1) None;
      PaymentOperation "order_auto_cancelled" 1 "A-1"]).
Proof. vm_compute. reflexivity. Qed.

Example sweep_twice :
  let sweep1 := cancelExpiredOrders Shop.service Shop.faults Shop.now Shop.orders in
  let sweep2 := cancelExpiredOrders Shop.service Shop.faults Shop.now sweep1.1 in
  sweep1.1 = [cancelled "System auto-cancelled: order unpaid after 72 hours" Shop.stale; Shop.done]
  /\ cancellations 1 sweep1.2 = 1%nat
  /\ sweep2 = (sweep1.1, []).
Proof. vm_compute. repeat split. Qed.

Lemma auto_cancel_is_conditional_and_happens_once_witness :
  let sweep1 := cancelExpiredOrders Shop.service Shop.faults Shop.now Shop.orders in
  let sweep2 := cancelExpiredOrders Shop.service Shop.faults Shop.now sweep1.1 in
  cancellations 1 sweep1.2 = 1%nat /\ cancellations 1 sweep2.2 = 0%nat /\
  hasPending 1 sweep1.1 = false.
Proof.
  intros sweep1 sweep2.
  destruct (auto_cancel_is_conditional_and_happens_once
    Shop.service Shop.faults Shop.faults Shop.now Shop.now Shop.orders Shop.stale 72)
    as (_ & _ & _ & _ & Honce).
  destruct (Honce eq_refl ltac:(vm_compute; apply list_elem_of_here) eq_refl)
    as (H1 & H2 & H3 & _).
  split; [exact H1|]. split; [exact H2 | exact H3].
Defined.

Lemma release_failures_do_not_undo_cancellation_witness :
  let r := cancelOrder Shop.service Shop.faults Shop.orders Shop.stale 72 in
  r.1.2 = None /\
  hasPending 1 r.1.1 = false /\
  releases r.2 = [InventoryReleaseReserve 5 2 "A-1"; VirtualReleaseStock "A-1";
                  PromoCodeReleaseReserve 9 "A-1"; DeleteSerialsByOrderID 1].
Proof.
  intros r.
  destruct (release_failures_do_not_undo_cancellation
    Shop.service Shop.faults Shop.orders Shop.stale 72 eq_refl
    ltac:(vm_compute; lia)) as (Herr & _ & Hpending & Hreleases & _).
  split; [exact Herr|]. split; [exact Hpending|]. exact Hreleases.
Defined.

Lemma unconfigured_hours_default_to_72_witness :
  getAutoCancelHours Shop.service = 72 /\
  (cancelExpiredOrders Shop.service Shop.faults Shop.now Shop.orders).1 !! 0%nat
  = Some (cancelled "System auto-cancelled: order unpaid after 72 hours" Shop.stale).
Proof.
  destruct (unconfigured_hours_default_to_72 Shop.service Shop.faults Shop.now Shop.orders
    ltac:(vm_compute; discriminate)) as (Hget & _ & _ & Hcancel & _).
  split; [exact Hget|].
  apply (Hcancel 0%nat Shop.stale eq_refl eq_refl eq_refl).
  vm_compute. apply list_elem_of_here.
Defined.

(** *** The cutoff *)

Lemma wrap64_small z : - 2 ^ 63 <= z < 2 ^ 63 -> Go.wrap64 z = z.
Proof. intros Hz. unfold Go.wrap64. rewrite Z.mod_small; lia. Qed.

Lemma minus_hours_exact h : 0 < h <= 2562047 -> Go.minus_hours h = - h * Go.Hour.
Proof.
  intros Hh. unfold Go.minus_hours, Go.Hour.
  rewrite (wrap64_small h) by lia. rewrite (wrap64_small (- h)) by lia.
  apply wrap64_small. lia.
Qed.

(** X9. The hours the sweep runs with are always positive, and for a
    configured value of at most 2562047 hours the cutoff is exactly that many
    hours before now: the [int64] product does not wrap.  The bound is the
    last one for which this holds; at 2562048 hours the product wraps and the
    cutoff lies after now. *)
Theorem cutoff_is_hours_before_now (s : OrderCancelService) (now : Z) :
  AutoCancelHours s <= 2562047 ->
  let h := getAutoCancelHours s in
  0 < h /\ cutoff now h = now - h * Go.Hour /\ cutoff now h < now /\
  now < cutoff now 2562048.
Proof.
  intros Hmax h. subst h. unfold getAutoCancelHours, defaultAutoCancelHours, cutoff, Go.time_Add.
  destruct (Z.ltb_spec 0 (AutoCancelHours s)) as [Hpos|Hneg].
  - rewrite minus_hours_exact by lia. unfold Go.Hour.
    split; [lia|]. split; [lia|]. split; [lia|].
    assert (Go.minus_hours 2562048 = 9223371273709551616) as -> by reflexivity. lia.
  - rewrite minus_hours_exact by lia. unfold Go.Hour.
    split; [lia|]. split; [lia|]. split; [lia|].
    assert (Go.minus_hours 2562048 = 9223371273709551616) as -> by reflexivity. lia.
Qed.

Lemma cutoff_is_hours_before_now_witness :
  cutoff Shop.now (getAutoCancelHours Shop.service) = 8 * Go.Hour.
Proof.
  destruct (cutoff_is_hours_before_now Shop.service Shop.now ltac:(simpl; lia))
    as (_ & Hcut & _).
  rewrite Hcut. reflexivity.
Defined.

(** *** What a sweep leaves alone *)

Lemma same_ID_same_order (rows : list Order) a b :
  NoDup (ID <$> rows) -> a ∈ rows -> b ∈ rows -> ID a = ID b -> a = b.
Proof.
  intros Hnd Ha Hb Hid.
  apply list_elem_of_lookup in Ha as [i Hi]. apply list_elem_of_lookup in Hb as [j Hj].
  assert (i = j) as ->.
  { apply (NoDup_lookup _ i j (ID a) Hnd); rewrite list_lookup_fmap.
    - rewrite Hi. reflexivity.
    - rewrite Hj, Hid. reflexivity. }
  congruence.
Qed.

Lemma sweptRow_cases remark processed row :
  sweptRow remark processed row = row \/
  (Status row = OrderStatusPendingPayment /\
   (exists o, o ∈ processed /\ ID row = ID o) /\
   sweptRow remark processed row = cancelled remark row).
Proof.
  unfold sweptRow.
  destruct (bool_decide_reflect (Status row = OrderStatusPendingPayment)) as [Hp|Hp];
    [|left; reflexivity].
  cbn [andb]. destruct (existsb _ processed) eqn:Hex; [|left; reflexivity].
  right. split; [exact Hp|]. split; [|reflexivity].
  apply existsb_exists in Hex as (o & Hin & Hid).
  exists o. split; [apply list_elem_of_In; exact Hin | apply N.eqb_eq; exact Hid].
Qed.


(** X11. When primary keys identify rows, a sweep leaves every order alone
    that its query does not select: a row that is not pending, or was created
    at or after the cutoff, is as it was after the sweep, whatever fails. *)
Theorem sweep_spares_unexpired_orders
    (s : OrderCancelService) (f : Faults) (now : Z) (rows : list Order)
    (k : nat) (row : Order) :
  NoDup (ID <$> rows) ->
  rows !! k = Some row ->
  ~ expired (cutoff now (getAutoCancelHours s)) row ->
  (cancelExpiredOrders s f now rows).1 !! k = Some row /\
  length (cancelExpiredOrders s f now rows).1 = length rows.
Proof.
  intros Hnd Hk Hfresh. rewrite cancelExpiredOrders_rows.
  destruct (queryError f); [split; [exact Hk | reflexivity]|].
  split; [|apply length_fmap].
  rewrite list_lookup_fmap, Hk. cbn [fmap option_fmap option_map]. f_equal.
  destruct (sweptRow_cases (adminRemark (getAutoCancelHours s))
              (updated f (expiredOrders (cutoff now (getAutoCancelHours s)) rows)) row)
    as [->|(_ & (o & Hin & Hid) & _)]; [reflexivity|].
  exfalso. apply Hfresh.
  apply list_elem_of_filter in Hin as [_ Hin].
  apply expiredOrders_elem in Hin as (Hrows & Hp & Hold).
  assert (row = o) as ->.
  { eapply same_ID_same_order; try eassumption. eapply list_elem_of_lookup_2; eassumption. }
  split; assumption.
Qed.

Lemma sweep_spares_unexpired_orders_witness :
  let fresh := mkOrder 3 "A-3" OrderStatusPendingPayment "" 700 "USD" (79 * Go.Hour)
                 [] ∅ None None in
  (cancelExpiredOrders Shop.service Shop.faults Shop.now [Shop.stale; fresh]).1 !! 1%nat
  = Some fresh.
Proof.
  intros fresh.
  apply (sweep_spares_unexpired_orders Shop.service Shop.faults Shop.now [Shop.stale; fresh]
           1 fresh).
  - apply (bool_decide_unpack (NoDup (ID <$> [Shop.stale; fresh]))). vm_compute. exact I.
  - reflexivity.
  - intros [_ Hold]. vm_compute in Hold. discriminate.
Defined.

(** *** What a sweep records *)

Lemma releases_app a b : releases (a ++ b) = (releases a ++ releases b)%list.
Proof. apply omap_app. Qed.

Lemma cancelledOrders_app a b :
  cancelledOrders (a ++ b) = (cancelledOrders a ++ cancelledOrders b)%list.
Proof. apply omap_app. Qed.

Lemma summaries_app a b : summaries (a ++ b) = (summaries a ++ summaries b)%list.
Proof. apply omap_app. Qed.

Lemma cancelledOrders_outcomes f order calls :
  cancelledOrders (calls ≫= outcome f order) = [].
Proof.
  induction calls as [|c calls IH]; [reflexivity|].
  cbn [mbind list_bind]. fold (calls ≫= outcome f order). rewrite cancelledOrders_app, IH.
  unfold outcome, attempt. destruct (callError f c); reflexivity.
Qed.

Lemma summaries_outcomes f order calls : summaries (calls ≫= outcome f order) = [].
Proof.
  induction calls as [|c calls IH]; [reflexivity|].
  cbn [mbind list_bind]. fold (calls ≫= outcome f order). rewrite summaries_app, IH.
  unfold outcome, attempt. destruct (callError f c); reflexivity.
Qed.

Lemma cancelledOrders_releaseResources s f order :
  cancelledOrders (releaseResources s f order) = [ID order].
Proof.
  rewrite releaseResources_planned, cancelledOrders_app, cancelledOrders_outcomes. reflexivity.
Qed.

Lemma summaries_releaseResources s f order : summaries (releaseResources s f order) = [].
Proof.
  rewrite releaseResources_planned, summaries_app, summaries_outcomes. reflexivity.
Qed.

(** The loop of a sweep, read through what it records: the orders recorded as
    cancelled ([done]) are some of those whose update did not fail, in order;
    the releases attempted are theirs; the counter grows by one for every
    order whose update did not fail. *)
Lemma fold_cancelNext_log s f hours orders : forall acc,
  exists done,
    done `sublist_of` updated f orders /\
    releases (fold_left (cancelNext s f hours) orders acc).1.2
      = (releases acc.1.2 ++ (done ≫= plannedReleases s))%list /\
    cancelledOrders (fold_left (cancelNext s f hours) orders acc).1.2
      = (cancelledOrders acc.1.2 ++ (ID <$> done))%list /\
    summaries (fold_left (cancelNext s f hours) orders acc).1.2 = summaries acc.1.2 /\
    (fold_left (cancelNext s f hours) orders acc).2
      = acc.2 + Z.of_nat (length (updated f orders)).
Proof.
  induction orders as [|order orders IH]; intros [[rows events] count].
  - exists []. cbn [fold_left fst snd fmap list_fmap mbind list_bind length].
    rewrite !app_nil_r. split; [constructor|]. repeat split. cbn. lia.
  - cbn [fold_left].
    destruct (IH (cancelNext s f hours (rows, events, count) order))
      as (done & Hsub & Hrel & Hcan & Hsum & Hcount).
    rewrite Hrel, Hcan, Hsum, Hcount. clear Hrel Hcan Hsum Hcount IH.
    unfold cancelNext, cancelOrder, updated. rewrite filter_cons. fold (updated f orders).
    destruct (updateError f order) as [e|] eqn:He.
    + rewrite decide_False by discriminate. cbn [fst snd]. exists done.
      split; [exact Hsub|].
      rewrite !releases_app, !cancelledOrders_app, !summaries_app.
      cbn [app releases cancelledOrders summaries omap list_omap cancelError attempted
           cancelledOrder summary].
      rewrite !app_nil_r. repeat split; reflexivity.
    + rewrite decide_True by reflexivity.
      destruct (Nat.eqb (RowsAffected order rows) 0); cbn [fst snd].
      * exists done. split; [apply sublist_cons; exact Hsub|].
        rewrite !app_nil_r. split; [reflexivity|]. split; [reflexivity|].
        split; [reflexivity|]. cbn [length]. lia.
      * exists (order :: done). split; [apply sublist_skip; exact Hsub|].
        rewrite !releases_app, !cancelledOrders_app, !summaries_app.
        rewrite releases_releaseResources, cancelledOrders_releaseResources,
          summaries_releaseResources.
        cbn [mbind list_bind fmap list_fmap]. rewrite !app_nil_r, <- !app_assoc.
        split; [reflexivity|]. split; [reflexivity|]. split; [reflexivity|].
        cbn [length]. lia.
Qed.

Lemma length_expiredOrders cutoffTime rows : (length (expiredOrders cutoffTime rows) <= 100)%nat.
Proof. unfold expiredOrders. rewrite length_take. lia. Qed.

Lemma length_updated f orders : (length (updated f orders) <= length orders)%nat.
Proof. apply length_filter. Qed.

(** The same for a whole sweep. *)
Lemma cancelExpiredOrders_log s f now rows :
  let hours := getAutoCancelHours s in
  let batch := expiredOrders (cutoff now hours) rows in
  let events := (cancelExpiredOrders s f now rows).2 in
  exists done,
    done `sublist_of` batch /\
    (queryError f = None -> done `sublist_of` updated f batch) /\
    (queryError f <> None -> done = []) /\
    releases events = done ≫= plannedReleases s /\
    cancelledOrders events = ID <$> done /\
    summaries events =
      match queryError f with
      | Some _ => []
      | None =>
          if Nat.eqb (length (updated f batch)) 0 then []
          else [("order_auto_cancel", Z.of_nat (length (updated f batch)), hours,
                 cutoff now hours)]
      end.
Proof.
  intros hours batch events. subst events. unfold cancelExpiredOrders. fold hours. cbv zeta.
  fold batch.
  destruct (queryError f) as [e|].
  { exists []. split; [apply sublist_nil_l|]. repeat split; try reflexivity. congruence. }
  destruct (Nat.eqb_spec (length batch) 0) as [Hz|Hnz].
  { exists []. split; [apply sublist_nil_l|]. split; [intros _; apply sublist_nil_l|].
    split; [congruence|]. split; [reflexivity|]. split; [reflexivity|].
    pose proof (length_updated f batch).
    destruct (Nat.eqb_spec (length (updated f batch)) 0); [reflexivity | lia]. }
  destruct (fold_cancelNext_log s f hours batch (rows, [], 0))
    as (done & Hsub & Hrel & Hcan & Hsum & Hcount).
  destruct (fold_left _ batch _) as [[rows' events] count]. cbn [fst snd] in *.
  exists done.
  split; [etransitivity; [exact Hsub | apply sublist_filter]|].
  split; [intros _; exact Hsub|]. split; [congruence|].
  rewrite Z.add_0_l in Hcount. subst count.
  destruct (Nat.eqb_spec (length (updated f batch)) 0) as [Hu|Hu].
  - rewrite Hu. cbn [Z.of_nat Z.ltb Z.compare]. auto.
  - destruct (Z.ltb_spec 0 (Z.of_nat (length (updated f batch)))) as [_|Hle]; [|lia].
    rewrite releases_app, cancelledOrders_app, summaries_app, Hrel, Hcan, Hsum.
    cbn [releases cancelledOrders summaries omap list_omap attempted cancelledOrder summary].
    rewrite !app_nil_r. auto.
Qed.

(** X12. One sweep records at most 100 orders as cancelled.  The count it
    writes in its [order_auto_cancel] summary is the number of selected orders
    whose status update returned no error, whether or not a row was affected:
    it is at least the number of orders recorded as cancelled, at most 100, and
    the summary is written once when it is positive and not at all otherwise,
    with the hours and the cutoff of the sweep. *)
Theorem sweep_summary_counts_updates_without_error
    (s : OrderCancelService) (f : Faults) (now : Z) (rows : list Order) :
  let hours := getAutoCancelHours s in
  let batch := expiredOrders (cutoff now hours) rows in
  let events := (cancelExpiredOrders s f now rows).2 in
  let n := match queryError f with Some _ => 0%nat | None => length (updated f batch) end in
  (length (cancelledOrders events) <= n)%nat /\ (n <= 100)%nat /\
  summaries events =
    (if Nat.eqb n 0 then []
     else [("order_auto_cancel", Z.of_nat n, hours, cutoff now hours)]).
Proof.
  intros hours batch events n.
  destruct (cancelExpiredOrders_log s f now rows) as (done & _ & Hok & Herr & _ & Hcan & Hsum).
  fold hours batch events in Hok, Herr, Hcan, Hsum.
  rewrite Hcan, Hsum, length_fmap. subst n.
  destruct (queryError f) as [e|].
  - rewrite Herr by discriminate. split; [reflexivity|]. split; [lia | reflexivity].
  - split; [apply sublist_length, Hok; reflexivity|]. split; [|reflexivity].
    pose proof (length_updated f batch). pose proof (length_expiredOrders (cutoff now hours) rows).
    fold batch in H0. lia.
Qed.

(** X13. A sweep releases nothing for an order it did not record as
    cancelled: every release call it attempts is one of the planned releases
    of an order that its query selected (pending and created before the
    cutoff), whose status update returned no error, and whose cancellation the
    sweep records. *)
Theorem sweep_releases_only_for_cancelled_orders
    (s : OrderCancelService) (f : Faults) (now : Z) (rows : list Order) (c : Call) :
  let hours := getAutoCancelHours s in
  let events := (cancelExpiredOrders s f now rows).2 in
  c ∈ releases events ->
  exists order,
    c ∈ plannedReleases s order /\
    order ∈ rows /\ Status order = OrderStatusPendingPayment /\
    CreatedAt order < cutoff now hours /\
    updateError f order = None /\ queryError f = None /\
    ID order ∈ cancelledOrders events.
Proof.
  intros hours events Hc.
  destruct (cancelExpiredOrders_log s f now rows) as (done & Hsub & Hok & Herr & Hrel & Hcan & _).
  fold hours events in Hsub, Hok, Herr, Hrel, Hcan.
  rewrite Hrel in Hc. apply list_elem_of_bind in Hc as (order & Hplanned & Hdone).
  exists order. split; [exact Hplanned|].
  destruct (queryError f) as [e|] eqn:Hq.
  { rewrite Herr in Hdone by discriminate. exfalso. eapply not_elem_of_nil. exact Hdone. }
  pose proof (elem_of_sublist _ _ _ Hdone (Hok eq_refl)) as Hup.
  apply list_elem_of_filter in Hup as [Hupd Hbatch].
  apply expiredOrders_elem in Hbatch as (Hrows & Hp & Hold).
  split; [exact Hrows|]. split; [exact Hp|]. split; [exact Hold|]. split; [exact Hupd|].
  split; [reflexivity|].
  rewrite Hcan. apply list_elem_of_fmap. exists order. auto.
Qed.

Lemma sweep_releases_only_for_cancelled_orders_witness :
  let events := (cancelExpiredOrders Shop.service Shop.faults Shop.now Shop.orders).2 in
  exists order,
    InventoryReleaseReserve 5 2 "A-1" ∈ plannedReleases Shop.service order /\
    order ∈ Shop.orders /\ Status order = OrderStatusPendingPayment /\
    CreatedAt order < cutoff Shop.now (getAutoCancelHours Shop.service) /\
    updateError Shop.faults order = None /\ queryError Shop.faults = None /\
    ID order ∈ cancelledOrders events.
Proof.
  intros events.
  apply (sweep_releases_only_for_cancelled_orders Shop.service Shop.faults Shop.now Shop.orders
           (InventoryReleaseReserve 5 2 "A-1")).
  vm_compute. left.
Defined.

(** *** The backlog *)

Lemma sweptRow_foreign remark processed row :
  (forall o, o ∈ processed -> ID row <> ID o) -> sweptRow remark processed row = row.
Proof.
  intros Hne. destruct (sweptRow_cases remark processed row) as [H|(_ & (o & Hin & Hid) & _)];
    [exact H|]. exfalso. exact (Hne o Hin Hid).
Qed.

Lemma sweptRow_skip remark o processed row :
  ID row <> ID o -> sweptRow remark (o :: processed) row = sweptRow remark processed row.
Proof.
  intros Hne. unfold sweptRow. cbn [existsb].
  destruct (N.eqb_spec (ID row) (ID o)); [contradiction | reflexivity].
Qed.

Lemma updated_all f orders : (forall o, updateError f o = None) -> updated f orders = orders.
Proof.
  intros Hok. unfold updated. induction orders as [|o orders IH]; [reflexivity|].
  rewrite filter_cons, decide_True by apply Hok. f_equal. exact IH.
Qed.

Lemma filter_expired_swept remark cutoffTime rows : forall n,
  NoDup (ID <$> rows) ->
  filter (expired cutoffTime)
    (sweptRow remark (take n (filter (expired cutoffTime) rows)) <$> rows)
  = drop n (filter (expired cutoffTime) rows).
Proof.
  induction rows as [|row rows IH]; intros n Hnd; [destruct n; reflexivity|].
  rewrite fmap_cons in Hnd. apply NoDup_cons in Hnd as [Hfresh Hnd].
  assert (forall o, o ∈ rows -> ID row <> ID o) as Hrow.
  { intros o Hin Hid. apply Hfresh. rewrite Hid. apply list_elem_of_fmap. eauto. }
  rewrite (filter_cons (expired cutoffTime) row rows).
  destruct (decide (expired cutoffTime row)) as [Hexp|Hexp].
  - destruct n as [|n].
    + cbn [take drop]. rewrite (list_fmap_ext _ id) by (intros; apply sweptRow_nil).
      rewrite list_fmap_id, filter_cons, decide_True by exact Hexp. reflexivity.
    + cbn [take drop]. rewrite fmap_cons, filter_cons.
      rewrite sweptRow_processed by (first [left | apply Hexp]).
      rewrite decide_False by (intros [Hs _]; discriminate).
      rewrite <- (IH n Hnd). f_equal. apply list_fmap_ext. intros i x Hx.
      apply sweptRow_skip. intros Hid. apply (Hrow x); [|congruence].
      eapply list_elem_of_lookup_2. exact Hx.
  - rewrite fmap_cons, filter_cons. rewrite sweptRow_foreign.
    + rewrite decide_False by exact Hexp. apply IH, Hnd.
    + intros o Hin. apply Hrow. apply elem_of_take in Hin as (i & Hi & _).
      apply list_elem_of_lookup_2, list_elem_of_filter in Hi as [_ Hi]. exact Hi.
Qed.

(** X14. When primary keys identify rows and neither the query nor a status
    update fails, a sweep works off the backlog in table order: the orders
    still pending and older than the cutoff afterwards are those of before
    without the first 100.  With a backlog of at most 100 none is left, and a
    second sweep at the same instant changes nothing and records nothing. *)
Theorem sweep_works_off_the_backlog
    (s : OrderCancelService) (f : Faults) (now : Z) (rows : list Order) :
  NoDup (ID <$> rows) ->
  queryError f = None ->
  (forall o, updateError f o = None) ->
  let cutoffTime := cutoff now (getAutoCancelHours s) in
  let after := (cancelExpiredOrders s f now rows).1 in
  filter (expired cutoffTime) after = drop 100 (filter (expired cutoffTime) rows) /\
  ((length (filter (expired cutoffTime) rows) <= 100)%nat ->
     filter (expired cutoffTime) after = [] /\
     cancelExpiredOrders s f now after = (after, [])).
Proof.
  intros Hnd Hq Hupd cutoffTime after.
  assert (filter (expired cutoffTime) after = drop 100 (filter (expired cutoffTime) rows)) as Hleft.
  { subst after. rewrite cancelExpiredOrders_rows, Hq, (updated_all f _ Hupd).
    apply filter_expired_swept, Hnd. }
  split; [exact Hleft|]. intros Hsmall.
  assert (filter (expired cutoffTime) after = []) as Hnone.
  { rewrite Hleft. apply drop_ge. exact Hsmall. }
  split; [exact Hnone|].
  unfold cancelExpiredOrders. rewrite Hq. cbv zeta. fold cutoffTime.
  unfold expiredOrders. rewrite Hnone. reflexivity.
Qed.

Lemma sweep_works_off_the_backlog_witness :
  let after := (cancelExpiredOrders Shop.service Shop.faults Shop.now Shop.orders).1 in
  filter (expired (cutoff Shop.now (getAutoCancelHours Shop.service))) after = [] /\
  cancelExpiredOrders Shop.service Shop.faults Shop.now after = (after, []).
Proof.
  intros after.
  destruct (sweep_works_off_the_backlog Shop.service Shop.faults Shop.now Shop.orders)
    as [_ Hdone].
  - apply (bool_decide_unpack (NoDup (ID <$> Shop.orders))). vm_compute. exact I.
  - reflexivity.
  - intros o. reflexivity.
  - apply Hdone. vm_compute. lia.
Defined.

End OrderCancelFacts.

(** ** Ticket auto-close *)

Module TicketAutoCloseFacts.

Import Models TicketAutoClose.

(** *** Closing one ticket *)

Lemma updateStatus_unaffected statuses ticket now rows :
  RowsAffected statuses ticket rows = 0%nat ->
  updateStatus statuses ticket now rows = rows.
Proof.
  unfold RowsAffected, updateStatus. induction rows as [|row rows IH]; [reflexivity|].
  rewrite filter_cons, fmap_cons.
  destruct (decide (stillActive statuses ticket row = true)) as [Ha|Ha]; [discriminate|].
  intros Hz. apply not_true_is_false in Ha. rewrite Ha, (IH Hz). reflexivity.
Qed.

Lemma closeTicket_cases f db ticket hours now :
  let r := closeTicket f db ticket hours now activeStatuses in
  (exists e, r = (db, Some e)) \/
  (RowsAffected activeStatuses ticket (tickets db) = 0%nat /\ r = (db, None)) \/
  ((0 < RowsAffected activeStatuses ticket (tickets db))%nat /\
   statusUpdateError f ticket = None /\ createError f ticket = None /\
   counterUpdateError f ticket = None /\ commitError f ticket = None /\
   r = (closedDB db ticket hours now, None)).
Proof.
  intros r. subst r. unfold closeTicket, Transaction, closeTicketTx.
  destruct (statusUpdateError f ticket) as [e|]; [left; eauto|].
  destruct (Nat.eqb_spec (RowsAffected activeStatuses ticket (tickets db)) 0) as [Hz|Hnz].
  - destruct (commitError f ticket) as [e|]; [left; eauto|].
    right; left. split; [assumption|].
    rewrite (updateStatus_unaffected _ _ _ _ Hz). destruct db; reflexivity.
  - cbv zeta. destruct (createError f ticket) as [e|]; [left; eauto|].
    destruct (counterUpdateError f ticket) as [e|]; [left; eauto|].
    destruct (commitError f ticket) as [e|]; [left; eauto|].
    right; right. repeat split; try reflexivity. lia.
Qed.

Lemma closedDB_row db ticket hours now (k : nat) row :
  tickets db !! k = Some row ->
  stillActive activeStatuses ticket row = true ->
  tickets (closedDB db ticket hours now) !! k
  = Some (noteMessage now (Go.truncate 200 (ticketAutoCloseMessage (TicketUser ticket) hours))
            (closeRow now row)).
Proof.
  intros Hk Ha. unfold closedDB, updateCounters, updateStatus. cbn [tickets].
  rewrite !list_lookup_fmap, Hk. cbn [fmap option_fmap option_map]. rewrite Ha. f_equal.
  unfold stillActive in Ha. apply andb_true_iff in Ha as [Hid _].
  cbn [closeRow TicketID]. rewrite Hid. reflexivity.
Qed.

(** C7. [closeTicket] is all or nothing.  Either it reports an error and the
    database is as before, or the status update affected no row and the
    database is as before (no system message, no counter change), or the
    matching rows are closed, one system message with the text for the user's
    locale is appended, and the unread counter of the ticket is increased by
    one, all in the database the one transaction commits.  The text is the
    Chinese sentence for locale "zh" and the English one otherwise. *)
Theorem closeTicket_is_one_atomic_unit
    (f : Faults) (db : DB) (ticket : Ticket) (hours now : Z) :
  let r := closeTicket f db ticket hours now activeStatuses in
  let affected := RowsAffected activeStatuses ticket (tickets db) in
  let msgContent := ticketAutoCloseMessage (TicketUser ticket) hours in
  (r.1 = db \/ ((0 < affected)%nat /\ r = (closedDB db ticket hours now, None))) /\
  (forall e, r.2 = Some e -> r.1 = db) /\
  (affected = 0%nat -> r.1 = db /\ messages r.1 = messages db) /\
  ((0 < affected)%nat -> r.2 = None ->
     messages r.1 = (messages db ++ [systemMessage ticket msgContent])%list /\
     forall (k : nat) row,
       tickets db !! k = Some row -> stillActive activeStatuses ticket row = true ->
       exists row', tickets r.1 !! k = Some row' /\
         TicketStatusOf row' = TicketStatusClosed /\ ClosedAt row' = Some now /\
         UnreadCountUser row' = UnreadCountUser row + 1 /\
         LastMessageAt row' = Some now /\ LastMessageBy row' = "admin") /\
  (statusUpdateError f ticket = None -> createError f ticket = None ->
   counterUpdateError f ticket = None -> commitError f ticket = None ->
   (0 < affected)%nat -> r = (closedDB db ticket hours now, None)) /\
  msgContent =
    (if decide (Locale <$> TicketUser ticket = Some "zh")
     then "工单已超过 " ++ Go.fmt_d hours ++ " 小时无回复，系统自动关闭。"
     else "Ticket automatically closed after " ++ Go.fmt_d hours ++ " hours with no reply.").
Proof.
  intros r affected msgContent.
  pose proof (closeTicket_cases f db ticket hours now) as Hcases. cbv zeta in Hcases.
  fold r affected in Hcases.
  split; [|split; [|split; [|split; [|split]]]].
  - destruct Hcases as [[e ->]|[[_ ->]|(Hpos & _ & _ & _ & _ & ->)]]; auto.
  - intros e He. destruct Hcases as [[e' ->]|[[_ ->]|(_ & _ & _ & _ & _ & Hr)]];
      try reflexivity. rewrite Hr in He. discriminate.
  - intros Hz. destruct Hcases as [[e ->]|[[_ ->]|(Hpos & _)]]; auto. lia.
  - intros Hpos Hnil. destruct Hcases as [[e Hr]|[[Hz _]|(_ & _ & _ & _ & _ & ->)]].
    + rewrite Hr in Hnil. discriminate.
    + lia.
    + split; [reflexivity|]. intros k row Hk Ha. eexists. split.
      * apply closedDB_row; eassumption.
      * repeat split.
  - intros H1 H2 H3 H4 Hpos.
    destruct Hcases as [[e Hr]|[[Hz _]|(_ & _ & _ & _ & _ & Hr)]]; [|lia|assumption].
    exfalso. revert Hr. subst r. unfold closeTicket, Transaction, closeTicketTx.
    rewrite H1, H2, H3, H4.
    destruct (RowsAffected activeStatuses ticket (tickets db) =? 0)%nat; discriminate.
  - subst msgContent. unfold ticketAutoCloseMessage.
    destruct (TicketUser ticket) as [u|]; cbn [fmap option_fmap option_map].
    + destruct (String.eqb_spec (Locale u) "zh") as [He|He].
      * rewrite decide_True by congruence. reflexivity.
      * rewrite decide_False by congruence. reflexivity.
    + rewrite decide_False by discriminate. reflexivity.
Qed.

(** *** The sweep's selection *)

Lemma inactiveTickets_elem cutoff rows ticket :
  ticket ∈ inactiveTickets cutoff rows -> ticket ∈ rows /\ inactive cutoff ticket.
Proof.
  unfold inactiveTickets. intros Hin.
  apply elem_of_take in Hin as (k & Hk & _).
  apply list_elem_of_lookup_2, list_elem_of_filter in Hk as [Hi Hin]. auto.
Qed.

Lemma closeTicket_other_rows f db ticket hours now (k : nat) row :
  tickets db !! k = Some row ->
  TicketID row <> TicketID ticket ->
  tickets (closeTicket f db ticket hours now activeStatuses).1 !! k = Some row.
Proof.
  intros Hk Hne.
  pose proof (closeTicket_cases f db ticket hours now) as Hcases. cbv zeta in Hcases.
  destruct Hcases as [[e ->]|[[_ ->]|(_ & _ & _ & _ & _ & ->)]]; try assumption.
  unfold closedDB, updateCounters, updateStatus, stillActive. cbn [fst tickets].
  rewrite !list_lookup_fmap, Hk. cbn [fmap option_fmap option_map].
  destruct (N.eqb_spec (TicketID row) (TicketID ticket)); [contradiction|]. cbn [andb].
  destruct (N.eqb_spec (TicketID row) (TicketID ticket)); [contradiction|]. reflexivity.
Qed.

Lemma fold_closeNext_other_rows f hours now (k : nat) row found : forall acc,
  (forall t, t ∈ found -> TicketID row <> TicketID t) ->
  tickets acc.1.1 !! k = Some row ->
  tickets (fold_left (closeNext f hours now) found acc).1.1 !! k = Some row.
Proof.
  induction found as [|t found IH]; intros acc Hne Hk; [assumption|].
  cbn [fold_left]. apply IH; [intros t' Hin; apply Hne; right; assumption|].
  destruct acc as [[db events] count]. unfold closeNext. cbn [fst] in *.
  pose proof (closeTicket_other_rows f db t hours now k row Hk (Hne t ltac:(left))) as Hrow.
  destruct (closeTicket f db t hours now activeStatuses) as [db' [e|]]; exact Hrow.
Qed.

Lemma same_ID_same_row (rows : list Ticket) a b :
  NoDup (TicketID <$> rows) -> a ∈ rows -> b ∈ rows -> TicketID a = TicketID b -> a = b.
Proof.
  intros Hnd Ha Hb Hid.
  apply list_elem_of_lookup in Ha as [i Hi]. apply list_elem_of_lookup in Hb as [j Hj].
  assert (i = j) as ->.
  { apply (NoDup_lookup _ i j (TicketID a) Hnd); rewrite list_lookup_fmap.
    - rewrite Hi. reflexivity.
    - rewrite Hj, Hid. reflexivity. }
  congruence.
Qed.

(** C10. The sweep selects only tickets in an active status whose
    [last_message_at] is set and lies before the cutoff; a ticket whose
    [last_message_at] is null is not among the selected ones, whatever its
    status and however old it is, and (with primary keys that identify rows)
    the sweep leaves its row as it was. *)
Theorem null_last_message_is_never_selected
    (hours : Z) (f : Faults) (clock1 clock2 cutoff : Z) (db : DB) (ticket : Ticket) :
  (ticket ∈ inactiveTickets cutoff (tickets db) ->
     exists t, LastMessageAt ticket = Some t /\ t < cutoff
               /\ TicketStatusOf ticket ∈ activeStatuses /\ ticket ∈ tickets db) /\
  (LastMessageAt ticket = None -> ticket ∉ inactiveTickets cutoff (tickets db)) /\
  (LastMessageAt ticket = None -> NoDup (TicketID <$> tickets db) ->
     forall k : nat, tickets db !! k = Some ticket ->
       tickets (closeInactiveTickets hours f clock1 clock2 db).1 !! k = Some ticket).
Proof.
  assert (forall c, ticket ∈ inactiveTickets c (tickets db) ->
     exists t, LastMessageAt ticket = Some t /\ t < c
               /\ TicketStatusOf ticket ∈ activeStatuses /\ ticket ∈ tickets db) as Hsel.
  { intros c Hin. apply inactiveTickets_elem in Hin as [Hin [Hs Ht]].
    destruct (LastMessageAt ticket) as [t|]; [eauto | contradiction]. }
  split; [apply Hsel|]. split.
  - intros Hnull Hin. apply Hsel in Hin as (t & Ht & _). congruence.
  - intros Hnull Hnd k Hk. unfold closeInactiveTickets.
    destruct (Z.leb hours 0); [assumption|]. cbv zeta.
    destruct (queryError f); [assumption|].
    set (found := inactiveTickets _ (tickets db)).
    destruct (Nat.eqb_spec (length found) 0) as [Hz|Hnz]; [assumption|].
    pose proof (fold_closeNext_other_rows f hours clock2 k ticket found (db, [], 0)) as Hfold.
    destruct (fold_left _ found _) as [[db' events] count]. cbn [fst] in *.
    apply Hfold; [|assumption].
    intros t Hin Hid.
    pose proof (inactiveTickets_elem _ _ _ Hin) as [Hrows _].
    assert (ticket = t) as <-.
    { eapply same_ID_same_row; try eassumption. eapply list_elem_of_lookup_2; eassumption. }
    apply Hsel in Hin as (t' & Ht' & _). congruence.
Qed.

(** *** A sweep over tickets that primary keys identify *)

Lemma stillActive_self ticket :
  TicketStatusOf ticket ∈ activeStatuses -> stillActive activeStatuses ticket ticket = true.
Proof.
  intros Ha. unfold stillActive. rewrite N.eqb_refl. cbn [andb].
  apply bool_decide_eq_true. exact Ha.
Qed.

Lemma RowsAffected_member ticket rows :
  ticket ∈ rows -> TicketStatusOf ticket ∈ activeStatuses ->
  (0 < RowsAffected activeStatuses ticket rows)%nat.
Proof.
  intros Hin Ha. unfold RowsAffected.
  assert (ticket ∈ filter (fun row => stillActive activeStatuses ticket row = true) rows) as Hf.
  { apply list_elem_of_filter. split; [apply stillActive_self, Ha | exact Hin]. }
  destruct (filter _ rows); [exfalso; eapply not_elem_of_nil; exact Hf | simpl; lia].
Qed.

Lemma closedDB_unique db ticket hours now :
  NoDup (TicketID <$> tickets db) ->
  ticket ∈ tickets db -> TicketStatusOf ticket ∈ activeStatuses ->
  closedDB db ticket hours now
  = mkDB ((fun row => if sameTicket row ticket then closedRow hours now row else row)
            <$> tickets db)
         (messages db ++ [autoCloseMessage hours ticket]).
Proof.
  intros Hnd Hin Ha. unfold closedDB, autoCloseMessage. f_equal.
  unfold updateCounters, updateStatus. rewrite <- list_fmap_compose.
  apply list_fmap_ext. intros i row Hi. cbn [compose]. unfold sameTicket, stillActive.
  destruct (N.eqb_spec (TicketID row) (TicketID ticket)) as [Hid|Hne]; cbn [andb].
  - assert (row = ticket) as ->.
    { eapply same_ID_same_row; try eassumption. eapply list_elem_of_lookup_2; eassumption. }
    rewrite bool_decide_eq_true_2 by exact Ha.
    cbn [closeRow TicketID]. rewrite N.eqb_refl. reflexivity.
  - destruct (N.eqb_spec (TicketID row) (TicketID ticket)); [contradiction | reflexivity].
Qed.

Lemma closeTicket_unique f db ticket hours now :
  NoDup (TicketID <$> tickets db) ->
  ticket ∈ tickets db -> TicketStatusOf ticket ∈ activeStatuses ->
  closeTicket f db ticket hours now activeStatuses
  = match closeError f ticket with
    | Some e => (db, Some e)
    | None =>
        (mkDB ((fun row => if sameTicket row ticket then closedRow hours now row else row)
                 <$> tickets db)
              (messages db ++ [autoCloseMessage hours ticket]), None)
    end.
Proof.
  intros Hnd Hin Ha. rewrite <- (closedDB_unique db ticket hours now Hnd Hin Ha).
  pose proof (RowsAffected_member ticket (tickets db) Hin Ha) as Hpos.
  unfold closeTicket, Transaction, closeTicketTx, closeError, closedDB.
  destruct (statusUpdateError f ticket); [reflexivity|].
  destruct (Nat.eqb_spec (RowsAffected activeStatuses ticket (tickets db)) 0) as [Hz|_]; [lia|].
  cbv zeta. destruct (createError f ticket); [reflexivity|].
  destruct (counterUpdateError f ticket); [reflexivity|].
  destruct (commitError f ticket); reflexivity.
Qed.

Lemma closedRow_ID hours now row : TicketID (closedRow hours now row) = TicketID row.
Proof. reflexivity. Qed.

Lemma sweptTicket_foreign hours now closed row :
  (forall t, t ∈ closed -> TicketID row <> TicketID t) -> sweptTicket hours now closed row = row.
Proof.
  intros Hne. unfold sweptTicket. destruct (existsb _ closed) eqn:Hex; [|reflexivity].
  apply existsb_exists in Hex as (t & Hin & Hid). exfalso.
  apply (Hne t); [apply list_elem_of_In; exact Hin | apply N.eqb_eq; exact Hid].
Qed.

Lemma closedTickets_elem f found t : t ∈ closedTickets f found -> t ∈ found /\ closeError f t = None.
Proof. unfold closedTickets. rewrite list_elem_of_filter. tauto. Qed.

Lemma fold_closeNext_unique f hours now found : forall db events count,
  NoDup (TicketID <$> tickets db) ->
  NoDup (TicketID <$> found) ->
  (forall t, t ∈ found -> t ∈ tickets db /\ TicketStatusOf t ∈ activeStatuses) ->
  fold_left (closeNext f hours now) found (db, events, count)
  = (mkDB (sweptTicket hours now (closedTickets f found) <$> tickets db)
          (messages db ++ (autoCloseMessage hours <$> closedTickets f found)),
     (events ++ errorLines f found)%list,
     count + Z.of_nat (length (closedTickets f found))).
Proof.
  induction found as [|t found IH]; intros db events count Hnd Hfound Hin.
  - cbn [fold_left closedTickets filter list_filter errorLines omap list_omap fmap list_fmap length].
    rewrite !app_nil_r, Z.add_0_r. f_equal. f_equal.
    rewrite (list_fmap_ext _ id (tickets db)) by reflexivity.
    rewrite list_fmap_id. destruct db; reflexivity.
  - rewrite fmap_cons in Hfound. apply NoDup_cons in Hfound as [Hfresh Hfound].
    assert (forall t', t' ∈ found -> TicketID t <> TicketID t') as Hother.
    { intros t' Ht' Hid. apply Hfresh. rewrite Hid. apply list_elem_of_fmap. eauto. }
    destruct (Hin t ltac:(left)) as [Ht Ha].
    cbn [fold_left]. unfold closeNext at 2.
    rewrite (closeTicket_unique f db t hours now Hnd Ht Ha).
    unfold closedTickets, errorLines. rewrite filter_cons. cbn [omap list_omap].
    fold (closedTickets f found) (errorLines f found). unfold errorLine.
    destruct (closeError f t) as [e|] eqn:He.
    + rewrite decide_False by discriminate.
      rewrite IH; [|assumption|assumption|intros t' Ht'; apply Hin; right; exact Ht'].
      rewrite <- app_assoc. reflexivity.
    + rewrite decide_True by reflexivity.
      set (h := fun row => if sameTicket row t then closedRow hours now row else row).
      assert (TicketID <$> (h <$> tickets db) = TicketID <$> tickets db) as Hids.
      { rewrite <- list_fmap_compose. apply list_fmap_ext. intros i row _. cbn [compose].
        unfold h. destruct (sameTicket row t); reflexivity. }
      rewrite IH; cbn [tickets messages].
      * f_equal; [f_equal|].
        -- f_equal.
           ++ rewrite <- list_fmap_compose. apply list_fmap_ext. intros i row Hi. cbn [compose].
              unfold h, sweptTicket. cbn [existsb].
              destruct (sameTicket row t) eqn:Hsame; cbn [orb]; [|reflexivity].
              fold (sweptTicket hours now (closedTickets f found) (closedRow hours now row)).
              apply sweptTicket_foreign. intros t' Ht'. rewrite closedRow_ID.
              apply N.eqb_eq in Hsame. rewrite Hsame. apply Hother.
              apply closedTickets_elem in Ht' as [Ht' _]. exact Ht'.
           ++ rewrite fmap_cons, <- app_assoc. reflexivity.
        -- cbn [length]. lia.
      * rewrite Hids. exact Hnd.
      * exact Hfound.
      * intros t' Ht'. destruct (Hin t' ltac:(right; exact Ht')) as [Hdb Hact].
        split; [|exact Hact]. apply list_elem_of_fmap. exists t'. split; [|exact Hdb].
        unfold h, sameTicket.
        destruct (N.eqb_spec (TicketID t') (TicketID t)) as [Hid|]; [|reflexivity].
        exfalso. apply (Hother t' Ht'). congruence.
Qed.

Lemma inactiveTickets_NoDup cutoff rows :
  NoDup (TicketID <$> rows) -> NoDup (TicketID <$> inactiveTickets cutoff rows).
Proof.
  intros Hnd. unfold inactiveTickets.
  eapply sublist_NoDup; [exact Hnd|].
  apply fmap_sublist. etransitivity; [apply sublist_take | apply sublist_filter].
Qed.

(** A whole sweep, when primary keys identify rows. *)
Lemma closeInactiveTickets_unique hours f clock1 clock2 db :
  0 < hours -> queryError f = None -> NoDup (TicketID <$> tickets db) ->
  let cutoff := Go.time_Add clock1 (Go.minus_hours hours) in
  let closed := closedTickets f (inactiveTickets cutoff (tickets db)) in
  closeInactiveTickets hours f clock1 clock2 db
  = (mkDB (sweptTicket hours clock2 closed <$> tickets db)
          (messages db ++ (autoCloseMessage hours <$> closed)),
     (errorLines f (inactiveTickets cutoff (tickets db))
      ++ (if Nat.eqb (length closed) 0 then []
          else [SystemOperation "ticket_auto_close" (Z.of_nat (length closed)) hours cutoff]))%list).
Proof.
  intros Hpos Hq Hnd cutoff closed. subst closed. unfold closeInactiveTickets.
  destruct (Z.leb_spec hours 0) as [Hle|_]; [lia|]. cbv zeta. fold cutoff. rewrite Hq.
  destruct (Nat.eqb_spec (length (inactiveTickets cutoff (tickets db))) 0) as [Hz|Hnz].
  - apply length_zero_iff_nil in Hz. rewrite Hz.
    cbn [closedTickets filter list_filter errorLines omap list_omap fmap list_fmap length Nat.eqb app].
    rewrite app_nil_r. f_equal.
    rewrite (list_fmap_ext _ id (tickets db)) by reflexivity.
    rewrite list_fmap_id. destruct db; reflexivity.
  - rewrite (fold_closeNext_unique f hours clock2 _ db [] 0 Hnd
               (inactiveTickets_NoDup cutoff _ Hnd)).
    + rewrite Z.add_0_l. cbn [app]. f_equal.
      destruct (length (closedTickets f (inactiveTickets cutoff (tickets db)))) as [|n];
        [rewrite app_nil_r; reflexivity|].
      reflexivity.
    + intros t Ht. apply inactiveTickets_elem in Ht as [Hin [Ha _]]. auto.
Qed.

Lemma closeInactiveTickets_closed hours f clock1 clock2 db :
  NoDup (TicketID <$> tickets db) ->
  let cutoff := Go.time_Add clock1 (Go.minus_hours hours) in
  let after := (closeInactiveTickets hours f clock1 clock2 db).1 in
  exists closed,
    closed `sublist_of` closedTickets f (inactiveTickets cutoff (tickets db)) /\
    tickets after = sweptTicket hours clock2 closed <$> tickets db /\
    messages after = (messages db ++ (autoCloseMessage hours <$> closed))%list.
Proof.
  intros Hnd cutoff after. subst after.
  assert (exists closed : list Ticket,
    closed `sublist_of` closedTickets f (inactiveTickets cutoff (tickets db)) /\
    tickets db = sweptTicket hours clock2 closed <$> tickets db /\
    messages db = (messages db ++ (autoCloseMessage hours <$> closed))%list) as Hsame.
  { exists []. split; [apply sublist_nil_l|]. cbn [fmap list_fmap]. rewrite app_nil_r.
    split; [|reflexivity].
    rewrite (list_fmap_ext _ id (tickets db)) by reflexivity. rewrite list_fmap_id. reflexivity. }
  destruct (Z.leb_spec hours 0) as [Hle|Hpos].
  { unfold closeInactiveTickets. destruct (Z.leb_spec hours 0); [exact Hsame | lia]. }
  destruct (queryError f) as [e|] eqn:Hq.
  { unfold closeInactiveTickets. destruct (Z.leb_spec hours 0); [exact Hsame|].
    rewrite Hq. exact Hsame. }
  pose proof (closeInactiveTickets_unique hours f clock1 clock2 db Hpos Hq Hnd) as Hr.
  cbv zeta in Hr. rewrite Hr. fold cutoff. cbn [fst tickets messages].
  eexists. split; [reflexivity|]. split; reflexivity.
Qed.

Lemma closedRow_not_inactive hours now cutoff row : ~ inactive cutoff (closedRow hours now row).
Proof.
  intros [Ha _]. cbn in Ha. unfold activeStatuses in Ha.
  repeat (apply elem_of_cons in Ha as [Ha|Ha]; [discriminate|]).
  eapply not_elem_of_nil. exact Ha.
Qed.

(** X15. When primary keys identify rows, a sweep leaves each ticket either
    exactly as it was or closed in full: status [closed], [closed_at] and
    [last_message_at] at the closing time, the unread counter of the user one
    higher, the preview taken from the system message, [last_message_by] set
    to [admin], and nothing else changed.  Only a ticket that the query
    selects and whose transaction does not fail is closed; a ticket that is
    not selected (not active, no last message, or a recent one) is as it was.
    A closed row is not selected again, whatever the cutoff. *)
Theorem ticket_sweep_closes_in_full_or_not_at_all
    (hours : Z) (f : Faults) (clock1 clock2 : Z) (db : DB) (k : nat) (row : Ticket) :
  NoDup (TicketID <$> tickets db) ->
  tickets db !! k = Some row ->
  let cutoff := Go.time_Add clock1 (Go.minus_hours hours) in
  let after := (closeInactiveTickets hours f clock1 clock2 db).1 in
  let row' := closedRow hours clock2 row in
  (tickets after !! k = Some row \/
   (inactive cutoff row /\ closeError f row = None /\ tickets after !! k = Some row')) /\
  (~ inactive cutoff row -> tickets after !! k = Some row) /\
  (TicketStatusOf row' = TicketStatusClosed /\ ClosedAt row' = Some clock2 /\
   LastMessageAt row' = Some clock2 /\ LastMessageBy row' = "admin" /\
   UnreadCountUser row' = UnreadCountUser row + 1 /\
   LastMessagePreview row'
     = Go.truncate 200 (ticketAutoCloseMessage (TicketUser row) hours) /\
   TicketID row' = TicketID row /\ TicketNo row' = TicketNo row /\
   TicketUser row' = TicketUser row) /\
  (forall c, ~ inactive c row').
Proof.
  intros Hnd Hk cutoff after row'.
  destruct (closeInactiveTickets_closed hours f clock1 clock2 db Hnd)
    as (closed & Hsub & Hrows & _).
  fold cutoff after in Hsub, Hrows.
  assert (tickets after !! k = Some row \/
    (inactive cutoff row /\ closeError f row = None /\ tickets after !! k = Some row')) as Hcases.
  { rewrite Hrows, list_lookup_fmap, Hk. cbn [fmap option_fmap option_map].
    unfold sweptTicket. destruct (existsb _ closed) eqn:Hex; [|left; reflexivity].
    right. apply existsb_exists in Hex as (t & Hin & Hid).
    apply list_elem_of_In in Hin. apply N.eqb_eq in Hid.
    pose proof (elem_of_sublist _ _ _ Hin Hsub) as Ht.
    apply closedTickets_elem in Ht as [Hfound Hok].
    apply inactiveTickets_elem in Hfound as [Hdb Hinactive].
    assert (row = t) as <-.
    { eapply same_ID_same_row; try eassumption. eapply list_elem_of_lookup_2; eassumption. }
    auto. }
  split; [exact Hcases|]. split.
  - intros Hfresh. destruct Hcases as [H|(Hinactive & _)]; [exact H | contradiction].
  - split; [repeat split|]. intros c. apply closedRow_not_inactive.
Qed.

Lemma ticket_sweep_closes_in_full_or_not_at_all_witness :
  tickets (closeInactiveTickets 48 Desk.faults Desk.later Desk.later Desk.db).1 !! 2%nat
  = Some Desk.closed.
Proof.
  destruct (ticket_sweep_closes_in_full_or_not_at_all 48 Desk.faults Desk.later Desk.later
              Desk.db 2 Desk.closed) as (_ & Hkept & _).
  - apply (bool_decide_unpack (NoDup (TicketID <$> tickets Desk.db))). vm_compute. exact I.
  - reflexivity.
  - apply Hkept. intros [Ha _]. vm_compute in Ha.
    repeat (apply elem_of_cons in Ha as [Ha|Ha]; [discriminate|]).
    eapply not_elem_of_nil. exact Ha.
Defined.

Lemma closed_or_logged f found :
  (length (closedTickets f found) + length (errorLines f found))%nat = length found.
Proof.
  unfold closedTickets, errorLines. induction found as [|t found IH]; [reflexivity|].
  rewrite filter_cons. cbn [omap list_omap]. unfold errorLine at 1.
  destruct (closeError f t).
  - rewrite decide_False by discriminate. cbn [length]. lia.
  - rewrite decide_True by reflexivity. cbn [length]. lia.
Qed.

Lemma length_inactiveTickets cutoff rows : (length (inactiveTickets cutoff rows) <= 100)%nat.
Proof. unfold inactiveTickets. rewrite length_take. lia. Qed.

(** X16. When primary keys identify rows and the query succeeds, every
    ticket a sweep selects (at most 100) is either closed or logged as an
    error, never both and never neither: the sweep appends exactly one system
    message per closed ticket, in the order of the query, writes one error line
    per ticket whose transaction failed, and ends with a
    [ticket_auto_close] summary whose count is the number of tickets closed,
    written only when that is positive.  Each closed ticket's row is in the
    table in its closed form. *)
Theorem ticket_sweep_closes_or_logs_each_ticket
    (hours : Z) (f : Faults) (clock1 clock2 : Z) (db : DB) :
  0 < hours -> queryError f = None -> NoDup (TicketID <$> tickets db) ->
  let cutoff := Go.time_Add clock1 (Go.minus_hours hours) in
  let found := inactiveTickets cutoff (tickets db) in
  let closed := closedTickets f found in
  let r := closeInactiveTickets hours f clock1 clock2 db in
  messages r.1 = (messages db ++ (autoCloseMessage hours <$> closed))%list /\
  r.2 = (errorLines f found
         ++ (if Nat.eqb (length closed) 0 then []
             else [SystemOperation "ticket_auto_close" (Z.of_nat (length closed))
                     hours cutoff]))%list /\
  (length closed + length (errorLines f found))%nat = length found /\
  (length found <= 100)%nat /\
  (forall t, t ∈ closed -> closedRow hours clock2 t ∈ tickets r.1).
Proof.
  intros Hpos Hq Hnd cutoff found closed r.
  pose proof (closeInactiveTickets_unique hours f clock1 clock2 db Hpos Hq Hnd) as Hr.
  cbv zeta in Hr. fold cutoff found closed r in Hr. rewrite Hr. cbn [fst snd tickets messages].
  split; [reflexivity|]. split; [reflexivity|]. split; [apply closed_or_logged|].
  split; [apply length_inactiveTickets|].
  intros t Ht. apply list_elem_of_fmap. exists t. split.
  - unfold sweptTicket.
    assert (existsb (sameTicket t) closed = true) as ->; [|reflexivity].
    apply existsb_exists. exists t. split; [apply list_elem_of_In, Ht | apply N.eqb_refl].
  - apply closedTickets_elem in Ht as [Ht _]. apply inactiveTickets_elem in Ht as [Ht _]. exact Ht.
Qed.

Lemma ticket_sweep_closes_or_logs_each_ticket_witness :
  let r := closeInactiveTickets 48 Desk.faults Desk.later Desk.later Desk.db in
  messages r.1 = [autoCloseMessage 48 Desk.quiet] /\
  r.2 = [SystemOperation "ticket_auto_close" 1 48 (2 * Go.Hour)].
Proof.
  intros r.
  destruct (ticket_sweep_closes_or_logs_each_ticket 48 Desk.faults Desk.later Desk.later Desk.db)
    as (Hmsg & Hlog & _).
  - reflexivity.
  - reflexivity.
  - apply (bool_decide_unpack (NoDup (TicketID <$> tickets Desk.db))). vm_compute. exact I.
  - split; [exact Hmsg | exact Hlog].
Defined.

(** X17. For every number of hours an [int] can hold, the system message
    of an auto-close is at most 75 bytes long in either language, so the cut
    of the preview at 200 bytes never applies: the preview a closed ticket
    carries is the whole message, and no multi-byte character of the Chinese
    text is split. *)
Theorem auto_close_preview_is_whole_message (user : option User) (hours : Z) :
  0 < hours < 2 ^ 63 ->
  let msg := ticketAutoCloseMessage user hours in
  (String.length msg <= 75)%nat /\
  Go.truncate 200 msg = msg /\
  (forall now row, TicketUser row = user ->
     LastMessagePreview (closedRow hours now row) = msg).
Proof.
  intros Hh msg.
  pose proof (FmtFacts.fmt_d_length hours 19 ltac:(cbn; lia)) as Hdigits.
  assert (String.length msg <= 75)%nat as Hlen.
  { subst msg. unfold ticketAutoCloseMessage.
    destruct (String.eqb _ "zh"); rewrite !FmtFacts.length_append.
    - change (String.length "工单已超过 ") with 16%nat.
      change (String.length " 小时无回复，系统自动关闭。") with 40%nat. lia.
    - change (String.length "Ticket automatically closed after ") with 34%nat.
      change (String.length " hours with no reply.") with 21%nat. lia. }
  assert (Go.truncate 200 msg = msg) as Hcut.
  { unfold Go.truncate. destruct (Nat.ltb_spec 200 (String.length msg)); [lia | reflexivity]. }
  split; [exact Hlen|]. split; [exact Hcut|].
  intros now row <-. unfold closedRow. cbn [noteMessage LastMessagePreview closeRow TicketUser].
  exact Hcut.
Qed.

Lemma auto_close_preview_is_whole_message_witness :
  LastMessagePreview (closedRow 48 Desk.later Desk.quiet)
  = "工单已超过 48 小时无回复，系统自动关闭。".
Proof.
  destruct (auto_close_preview_is_whole_message (Some Desk.reader) 48 ltac:(cbn; lia))
    as (_ & _ & Hrow).
  rewrite (Hrow Desk.later Desk.quiet eq_refl). reflexivity.
Defined.

Example sweep_closes_quiet_ticket_only :
  (closeInactiveTickets 48 Desk.faults Desk.later Desk.later Desk.db).1
  = mkDB
      [mkTicket 1 "T-1" TicketStatusClosed (Some Desk.later) (Some Desk.later)
         "工单已超过 48 小时无回复，系统自动关闭。" "admin" 1 (Some Desk.reader);
       Desk.silent; Desk.closed]
      [mkTicketMessage 1 "admin" 0 "System" "工单已超过 48 小时无回复，系统自动关闭。"
         "text" false true].
Proof. vm_compute. reflexivity. Qed.

Example sweep_disabled_when_hours_not_positive :
  closeInactiveTickets 0 Desk.faults Desk.later Desk.later Desk.db = (Desk.db, []).
Proof. reflexivity. Qed.

Lemma closeTicket_is_one_atomic_unit_witness :
  closeTicket Desk.faults Desk.db Desk.quiet 48 Desk.later activeStatuses
  = (closedDB Desk.db Desk.quiet 48 Desk.later, None).
Proof.
  destruct (closeTicket_is_one_atomic_unit Desk.faults Desk.db Desk.quiet 48 Desk.later)
    as (_ & _ & _ & _ & Hall & _).
  exact (Hall eq_refl eq_refl eq_refl eq_refl ltac:(vm_compute; lia)).
Defined.

Lemma null_last_message_is_never_selected_witness :
  tickets (closeInactiveTickets 48 Desk.faults Desk.later Desk.later Desk.db).1 !! 1%nat
  = Some Desk.silent.
Proof.
  destruct (null_last_message_is_never_selected 48 Desk.faults Desk.later Desk.later 0
    Desk.db Desk.silent) as (_ & _ & Hkept).
  apply (Hkept eq_refl); [|reflexivity].
  apply (bool_decide_unpack (NoDup (TicketID <$> tickets Desk.db))). vm_compute. exact I.
Defined.

End TicketAutoCloseFacts.

(** ** The response helpers *)

Module ResponseFacts.

Import response.

(** X18. [GetPagination] always answers with a page of at least 1 and a
    limit between 1 and 100, whatever the query holds and whatever
    [strconv.Atoi] makes of it: a page below 1 becomes 1, a limit below 1
    becomes 20 and one above 100 becomes 100, and values already in range are
    passed on.  [Paginated] therefore never divides by zero on them. *)
Theorem GetPagination_is_in_range (Atoi : string -> Z) (query : gmap string string) :
  let rawPage := Atoi (DefaultQuery query "page" "1") in
  let rawLimit := Atoi (DefaultQuery query "limit" "20") in
  let r := GetPagination Atoi query in
  1 <= r.1 /\ 1 <= r.2 <= 100 /\
  r.1 = Z.max 1 rawPage /\
  r.2 = (if decide (rawLimit < 1) then 20 else Z.min 100 rawLimit) /\
  (forall (A : Type) (items : A) total, is_Some (Paginated items r.1 r.2 total)).
Proof.
  intros rawPage rawLimit r. subst r. unfold GetPagination. fold rawPage rawLimit. cbn [fst snd].
  assert (1 <= (if Z.ltb rawLimit 1 then 20 else if Z.ltb 100 rawLimit then 100 else rawLimit) <= 100)
    as Hlimit.
  { destruct (Z.ltb_spec rawLimit 1); [lia|]. destruct (Z.ltb_spec 100 rawLimit); lia. }
  split; [destruct (Z.ltb_spec rawPage 1); lia|]. split; [exact Hlimit|].
  split; [destruct (Z.ltb_spec rawPage 1); lia|]. split.
  - destruct (Z.ltb_spec rawLimit 1); [rewrite decide_True by lia; reflexivity|].
    rewrite decide_False by lia. destruct (Z.ltb_spec 100 rawLimit); lia.
  - intros A items total. unfold Paginated.
    destruct (Z.eqb_spec (if Z.ltb rawLimit 1 then 20 else if Z.ltb 100 rawLimit then 100
                          else rawLimit) 0) as [Hz|_]; [lia | eauto].
Qed.

(** X19. For a positive limit and a total that is not negative, [Paginated]
    answers (it does not panic) with the number of pages that is just enough
    to hold the total, [(pages - 1) * limit < total <= pages * limit], so with
    no page when there is nothing; [has_next] is set exactly when rows remain
    beyond the page, [page * limit < total], and [has_prev] exactly when the
    page is beyond the first. *)
Theorem Paginated_counts_pages {A} (items : A) (page limit total : Z) :
  0 < limit -> 0 <= total < 2 ^ 63 ->
  exists pages,
    Paginated items page limit total
    = Some (Success (mkPaginatedResponse items
              (mkPagination page limit total pages (Z.ltb page pages) (Z.ltb 1 page)))) /\
    (pages - 1) * limit < total <= pages * limit /\
    (Z.ltb page pages = true <-> page * limit < total) /\
    (Z.ltb 1 page = true <-> 1 < page) /\
    (pages = 0 <-> total = 0).
Proof.
  intros Hlimit Htotal. unfold Paginated.
  destruct (Z.eqb_spec limit 0) as [Hz|_]; [lia|].
  rewrite Z.quot_div_nonneg, Z.rem_mod_nonneg by lia.
  pose proof (Z.div_mod total limit ltac:(lia)) as Hdm.
  pose proof (Z.mod_pos_bound total limit Hlimit) as Hmod.
  assert (0 <= total / limit <= total) as Hq.
  { split; [apply Z.div_pos; lia|]. apply Z.div_le_upper_bound; nia. }
  rewrite OrderCancelFacts.wrap64_small by lia.
  eexists. split; [reflexivity|].
  destruct (Z.ltb_spec 0 (total mod limit)) as [Hrem|Hrem].
  - split; [nia|]. split; [rewrite Z.ltb_lt; nia|]. split; [apply Z.ltb_lt | nia].
  - assert (total mod limit = 0) as Hzero by lia.
    split; [nia|]. split; [rewrite Z.ltb_lt; nia|]. split; [apply Z.ltb_lt | nia].
Qed.

Lemma Paginated_counts_pages_witness :
  Paginated [1; 2; 3] 2 10 21
  = Some (Success (mkPaginatedResponse [1; 2; 3] (mkPagination 2 10 21 3 true true))).
Proof.
  destruct (Paginated_counts_pages [1; 2; 3] 2 10 21 ltac:(lia) ltac:(lia))
    as (pages & Hr & Hpages & _).
  assert (pages = 3) as -> by lia. exact Hr.
Defined.

(** X20. [HandleError] puts no text of an error that is not a business
    error into the response.  With no business error in the chain the
    response is the 500 with the fallback message (the generic one when that is
    empty), the same whatever the error says, and the text of the error goes to
    the log only; with a business error the response is the 400 that carries
    the message, key and parameters of the first one in the chain, nothing is
    logged, and the texts of the errors that wrap it do not show. *)
Theorem HandleError_discloses_business_errors_only
    (method path fallbackMsg : string) (err : option bizerr.error) :
  let r := HandleError method path fallbackMsg err in
  (err ≫= bizerr.As = None ->
     r.1 = (HandleError method path fallbackMsg None).1 /\
     r.1 = mkResponse 500 CodeInternalError
             (if is_empty fallbackMsg then "Internal server error" else fallbackMsg) None /\
     length r.2 = (match err with Some _ => 1%nat | None => 0%nat end)) /\
  (forall bizErr, err ≫= bizerr.As = Some bizErr ->
     r = (mkResponse 400 CodeBusinessError (bizerr.Message bizErr)
            (Some (mkBizData (bizerr.Key bizErr) (bizerr.Params bizErr))), [])) /\
  (forall text inner, err = Some (bizerr.Wrap text inner) ->
     r.1 = (HandleError method path fallbackMsg (Some inner)).1).
Proof.
  intros r. subst r. unfold HandleError. split; [|split].
  - intros Hnone. rewrite Hnone. cbn [mbind option_bind]. unfold InternalServerError, Error.
    cbn [fst snd]. split; [reflexivity|]. split; [reflexivity|]. destruct err; reflexivity.
  - intros bizErr Hsome. rewrite Hsome. reflexivity.
  - intros text inner ->. cbn [mbind option_bind bizerr.As].
    destruct (bizerr.As inner); reflexivity.
Qed.

End ResponseFacts.

(** ** The order handler of a user *)

Module OrderHandlerFacts.

Import Models OrderHandler.

Lemma notOwner_false userID (order : OrderRow) :
  notOwner userID order = false <-> UserID order = Some userID.
Proof.
  unfold notOwner. destruct (UserID order) as [owner|]; [|split; discriminate].
  destruct (N.eqb_spec owner userID) as [->|Hne]; cbn [negb].
  - split; reflexivity.
  - split; [discriminate | intros [= H]; contradiction].
Qed.

(** X21. [ListOrders] passes a limit that is not positive on to
    [response.Paginated]: it only caps the limit at 100.  The handler panics,
    on the division by the limit, exactly when the [limit] parameter parses to
    0 (as every text that is not a number does) and the order service answers
    without error.  Otherwise it replies, with the 500 [Query failed] when the
    service fails, and else with status 200, a page of at least 1 and a limit of
    at most 100. *)
Theorem ListOrders_panics_on_a_zero_limit
    (h : Handler) (userID : N) (query : gmap string string) :
  let rawPage := Atoi h (response.DefaultQuery query "page" "1") in
  let rawLimit := Atoi h (response.DefaultQuery query "limit" "10") in
  let answer := service.ListUserOrders (orderService h) userID (Z.max 1 rawPage)
                  (Z.min 100 rawLimit) (default "" (query !! "status")) in
  (ListOrders h userID query = None <-> rawLimit = 0 /\ exists found, answer = inl found) /\
  ((exists e, answer = inr e) ->
     ListOrders h userID query = Some (response.InternalError "Query failed")) /\
  (forall r, ListOrders h userID query = Some r ->
     (exists e, answer = inr e) \/
     (response.HTTPStatus r = 200 /\
      exists d, response.Data r = Some d /\
        1 <= response.Page (response.PaginationOf d) /\
        response.Limit (response.PaginationOf d) <= 100 /\
        response.Limit (response.PaginationOf d) <> 0)).
Proof.
  intros rawPage rawLimit answer. unfold ListOrders. fold rawPage rawLimit.
  assert ((if Z.ltb rawPage 1 then 1 else rawPage) = Z.max 1 rawPage) as ->
    by (destruct (Z.ltb_spec rawPage 1); lia).
  assert ((if Z.ltb 100 rawLimit then 100 else rawLimit) = Z.min 100 rawLimit) as ->
    by (destruct (Z.ltb_spec 100 rawLimit); lia).
  cbv zeta. fold answer. destruct answer as [[orders total]|e].
  - unfold response.Paginated.
    destruct (Z.eqb_spec (Z.min 100 rawLimit) 0) as [Hz|Hnz].
    + split; [split; [intros _; split; [lia | eauto] | reflexivity]|].
      split; [intros [e [=]] | intros r [=]].
    + split; [split; [discriminate | intros [Hz _]; lia]|].
      split; [intros [e [=]]|]. intros r [= <-]. right. split; [reflexivity|].
      eexists. split; [reflexivity|]. cbn. lia.
  - split; [split; [discriminate | intros (_ & found & [=])]|].
    split; [reflexivity|]. intros r _. left. eauto.
Qed.

Example ListOrders_with_a_limit_that_is_no_number :
  ListOrders Front.handler 7 {["limit" := "ten"]} = None /\
  (exists r, ListOrders Front.handler 7 {["limit" := "10"]} = Some r).
Proof. split; [reflexivity | eexists; reflexivity]. Qed.

Lemma listed_base sharedMap (order : OrderRow) :
  base (Listed (listed sharedMap order)) = base order.
Proof. unfold listed. destruct (_ || _); reflexivity. Qed.

(** X22. In the list [ListOrders] returns, the orders are those the service
    found, in its order and with their columns, except that the blind-box
    result ([ActualAttributes]) of every order that is pending payment, a
    draft, awaiting resubmission or cancelled is blanked, and only of those;
    each carries its flag from the shared-order map, false when the map has
    no entry. *)
Theorem ListOrders_hides_unpaid_blind_box_results
    (h : Handler) (userID : N) (query : gmap string string)
    (r : response.Response (response.PaginatedResponse (list OrderWithShared)))
    (d : response.PaginatedResponse (list OrderWithShared)) :
  ListOrders h userID query = Some r ->
  response.Data r = Some d ->
  exists orders total sharedMap,
    service.ListUserOrders (orderService h) userID (response.Page (response.PaginationOf d))
      (response.Limit (response.PaginationOf d)) (default "" (query !! "status"))
    = inl (orders, total) /\
    response.Total (response.PaginationOf d) = total /\
    sharedMap = service.GetSharedOrderIDs (orderService h) (ID <$> (base <$> orders)) /\
    length (response.Items d) = length orders /\
    forall (i : nat) order, orders !! i = Some order ->
      exists item, response.Items d !! i = Some item /\
        base (Listed item) = base order /\
        CompletedAt (Listed item) = CompletedAt order /\
        SharedToSupport item = default false (sharedMap !! ID order) /\
        ActualAttributes (Listed item)
        = (if decide (Status order ∈ [OrderStatusPendingPayment; OrderStatusDraft;
                                      OrderStatusNeedResubmit; OrderStatusCancelled])
           then "" else ActualAttributes order).
Proof.
  unfold ListOrders. cbv zeta.
  destruct (service.ListUserOrders _ _ _ _ _) as [[orders total]|e] eqn:Hanswer.
  2:{ intros [= <-]. discriminate. }
  unfold response.Paginated. destruct (Z.eqb _ 0); [discriminate|].
  intros [= <-] [= <-]. cbn [response.PaginationOf response.Page response.Limit response.Total
                             response.Items].
  exists orders, total, (service.GetSharedOrderIDs (orderService h) (ID <$> (base <$> orders))).
  split; [exact Hanswer|]. split; [reflexivity|]. split; [reflexivity|].
  split; [apply length_fmap|].
  intros i order Hi. eexists. split; [rewrite list_lookup_fmap, Hi; reflexivity|].
  split; [apply listed_base|]. unfold listed.
  destruct (bool_decide_reflect (Status order = OrderStatusPendingPayment)) as [Hp|Hp];
    [rewrite decide_True by (rewrite Hp; repeat constructor); repeat split|].
  destruct (bool_decide_reflect (Status order = OrderStatusDraft)) as [Hd|Hd];
    [rewrite decide_True by (rewrite Hd; repeat constructor); repeat split|].
  destruct (bool_decide_reflect (Status order = OrderStatusNeedResubmit)) as [Hn|Hn];
    [rewrite decide_True by (rewrite Hn; repeat constructor); repeat split|].
  destruct (bool_decide_reflect (Status order = OrderStatusCancelled)) as [Hc|Hc];
    [rewrite decide_True by (rewrite Hc; repeat constructor); repeat split|].
  cbn [orb]. rewrite decide_False; [repeat split|].
  intros Hin. repeat (apply elem_of_cons in Hin as [Hin|Hin]; [congruence|]).
  eapply not_elem_of_nil. exact Hin.
Qed.

Lemma ListOrders_hides_unpaid_blind_box_results_witness :
  let d := response.mkPaginatedResponse
             [mkOrderWithShared Front.mine true;
              mkOrderWithShared (mkOrderRow (base Front.unpaid) "" None) false]
             (response.mkPagination 1 10 2 1 false false) in
  ListOrders Front.handler 7 ∅ = Some (response.Success d) /\
  exists orders,
    service.ListUserOrders Front.orders 7 1 10 "" = inl (orders, 2) /\
    length (response.Items d) = length orders.
Proof.
  intros d. split; [reflexivity|].
  destruct (ListOrders_hides_unpaid_blind_box_results Front.handler 7 ∅ (response.Success d) d)
    as (orders & total & sharedMap & Hfound & Htotal & _ & Hlength & _);
    [reflexivity | reflexivity |].
  exists orders. cbn in Htotal. subst total. split; [exact Hfound | exact Hlength].
Defined.

(** X23. [GetVirtualProducts] discloses the delivered content only to the
    owner of an order that is past payment: it asks the inventory service for
    the stocks, and answers with success, only when the order number is not
    empty, the order exists, belongs to the requesting user, and is not
    pending payment, a draft or awaiting resubmission (a cancelled order is
    not excluded).  For the order of somebody else it answers 403 and asks
    nothing; content that it returns is what the inventory service gave for
    this order number. *)
Theorem virtual_products_only_for_the_owner_past_payment
    (h : Handler) (userID : N) (orderNo : string) :
  let r := GetVirtualProducts h userID orderNo in
  ((r.2 <> [] \/ response.Code r.1 = response.CodeSuccess) ->
     orderNo <> "" /\
     exists order : OrderRow,
       service.GetOrderByNo (orderService h) orderNo = inl order /\
       UserID order = Some userID /\
       Status order ∉ [OrderStatusPendingPayment; OrderStatusDraft; OrderStatusNeedResubmit]) /\
  (forall order : OrderRow,
     orderNo <> "" -> service.GetOrderByNo (orderService h) orderNo = inl order ->
     UserID order <> Some userID ->
     r = (response.Forbidden "No permission to access this order", [])) /\
  (forall stocks, response.Data r.1 = Some stocks -> stocks <> [] ->
     exists GetStockByOrderNo,
       virtualInventoryService h = Some GetStockByOrderNo /\
       GetStockByOrderNo orderNo = inl stocks /\ r.2 = [CallGetStockByOrderNo orderNo]).
Proof.
  intros r. subst r. unfold GetVirtualProducts, is_empty.
  destruct (String.eqb_spec orderNo "") as [He|Hne].
  { cbn. split; [intros [H|H]; [contradiction | discriminate]|].
    split; [intros order H; contradiction | intros stocks [=]]. }
  destruct (service.GetOrderByNo (orderService h) orderNo) as [order|e].
  2:{ cbn. split; [intros [H|H]; [contradiction | discriminate]|].
      split; [intros order _ [=] | intros stocks [=]]. }
  destruct (notOwner userID order) eqn:Howner.
  { cbn. split; [intros [H|H]; [contradiction | discriminate]|].
    split; [reflexivity | intros stocks [=]]. }
  apply notOwner_false in Howner.
  assert (forall P : Prop, (forall o : OrderRow, orderNo <> "" ->
            @inl OrderRow string order = inl o -> UserID o <> Some userID -> P)) as Hmine.
  { intros P o _ [= <-] Hno. contradiction. }
  destruct (bool_decide_reflect (Status order = OrderStatusPendingPayment)) as [Hp|Hp].
  { cbn. split; [intros [H|H]; [contradiction | discriminate]|].
    split; [apply Hmine | intros stocks [=]]. }
  destruct (bool_decide_reflect (Status order = OrderStatusDraft)) as [Hd|Hd].
  { cbn. split; [intros [H|H]; [contradiction | discriminate]|].
    split; [apply Hmine | intros stocks [=]]. }
  destruct (bool_decide_reflect (Status order = OrderStatusNeedResubmit)) as [Hn|Hn].
  { cbn. split; [intros [H|H]; [contradiction | discriminate]|].
    split; [apply Hmine | intros stocks [=]]. }
  cbn [orb].
  assert (orderNo <> "" /\
     exists o : OrderRow, @inl OrderRow string order = inl o /\ UserID o = Some userID /\
       Status o ∉ [OrderStatusPendingPayment; OrderStatusDraft; OrderStatusNeedResubmit]) as Hok.
  { split; [exact Hne|]. exists order. split; [reflexivity|]. split; [exact Howner|].
    intros Hin. repeat (apply elem_of_cons in Hin as [Hin|Hin]; [congruence|]).
    eapply not_elem_of_nil. exact Hin. }
  destruct (virtualInventoryService h) as [GetStockByOrderNo|].
  - destruct (GetStockByOrderNo orderNo) as [stocks|e] eqn:Hstock; cbn [fst snd].
    + split; [intros _; exact Hok|]. split; [apply Hmine|].
      intros stocks' [= <-] _. exists GetStockByOrderNo. auto.
    + split; [intros _; exact Hok|]. split; [apply Hmine | intros stocks [=]].
  - cbn [fst snd]. split; [intros _; exact Hok|]. split; [apply Hmine|].
    intros stocks [= <-] Hnil. contradiction.
Qed.

Example GetVirtualProducts_examples :
  GetVirtualProducts Front.handler 7 "A-1"
    = (response.Success [VString "KEY-001"], [CallGetStockByOrderNo "A-1"]) /\
  GetVirtualProducts Front.handler 7 "A-2"
    = (response.BadRequest "Virtual products are not available yet", []) /\
  GetVirtualProducts Front.handler 7 "B-1"
    = (response.Forbidden "No permission to access this order", []) /\
  GetVirtualProducts Front.handler 7 "C-9" = (response.NotFound "Order not found", []).
Proof. repeat split; reflexivity. Qed.

(** X24. [CompleteOrder] and [GetOrRefreshFormToken] reach the order
    service's operation only behind their checks.  [CompleteOrder] calls it at
    most once, for an existing order of the requesting user, with the feedback
    that was bound and an empty admin remark; it answers with success only
    after that call; it panics only when the call succeeded and the order
    cannot be read again; and when the call fails with an error that is no
    business error the answer is the 500 [Failed to complete order] and the
    text of the error is in the log only.  [GetOrRefreshFormToken] asks for a
    token, and answers with success, only for an order of the requesting user
    that is a draft or awaits resubmission. *)
Theorem order_operations_only_behind_the_owner_check
    (h : Handler) (method path : string) (userID : N) (orderNo : string) (req : option string) :
  let done := CompleteOrder h method path userID orderNo req in
  let token := GetOrRefreshFormToken h userID orderNo in
  (done.1.2 <> [] ->
     exists (order : OrderRow) feedback,
       orderNo <> "" /\ req = Some feedback /\
       service.GetOrderByNo (orderService h) orderNo = inl order /\
       UserID order = Some userID /\
       done.1.2 = [CallCompleteOrder (ID order) userID feedback ""]) /\
  (forall r, done.1.1 = Some r -> response.Code r = response.CodeSuccess -> done.1.2 <> []) /\
  (done.1.1 = None ->
     exists (order : OrderRow) feedback,
       done.1.2 = [CallCompleteOrder (ID order) userID feedback ""] /\
       service.CompleteOrder (orderService h) (ID order) userID feedback "" = None /\
       service.GetOrderByID (orderService h) (ID order) = None) /\
  (done.2 <> [] ->
     done.1.1 = Some (response.InternalError "Failed to complete order") /\ length done.2 = 1%nat) /\
  ((token.2 <> [] \/ response.Code token.1 = response.CodeSuccess) ->
     exists order : OrderRow,
       orderNo <> "" /\
       service.GetOrderByNo (orderService h) orderNo = inl order /\
       UserID order = Some userID /\
       Status order ∈ [OrderStatusDraft; OrderStatusNeedResubmit] /\
       token.2 = [CallGetOrRefreshFormToken (ID order)]).
Proof.
  intros done token. subst done token.
  split; [|split; [|split; [|split]]].
  - unfold CompleteOrder, is_empty.
    destruct (String.eqb_spec orderNo "") as [He|Hne]; [intros H; contradiction|].
    destruct req as [feedback|]; [|intros H; contradiction].
    destruct (service.GetOrderByNo (orderService h) orderNo) as [order|e];
      [|intros H; contradiction].
    destruct (notOwner userID order) eqn:Howner; [intros H; contradiction|].
    apply notOwner_false in Howner. intros _. exists order, feedback.
    split; [exact Hne|]. split; [reflexivity|]. split; [reflexivity|]. split; [exact Howner|].
    destruct (service.CompleteOrder _ _ _ _ _) as [err|].
    + destruct (response.HandleError _ _ _ _) as [r lines]. reflexivity.
    + destruct (service.GetOrderByID _ _); reflexivity.
  - unfold CompleteOrder, is_empty. intros r.
    destruct (String.eqb_spec orderNo "") as [He|Hne]; [intros [= <-]; discriminate|].
    destruct req as [feedback|]; [|intros [= <-]; discriminate].
    destruct (service.GetOrderByNo (orderService h) orderNo) as [order|e];
      [|intros [= <-]; discriminate].
    destruct (notOwner userID order); [intros [= <-]; discriminate|].
    destruct (service.CompleteOrder _ _ _ _ _) as [err|].
    + destruct (response.HandleError _ _ _ _) as [r' lines]. intros _ _. discriminate.
    + destruct (service.GetOrderByID _ _); intros _ _; discriminate.
  - unfold CompleteOrder, is_empty.
    destruct (String.eqb_spec orderNo "") as [He|Hne]; [discriminate|].
    destruct req as [feedback|]; [|discriminate].
    destruct (service.GetOrderByNo (orderService h) orderNo) as [order|e]; [|discriminate].
    destruct (notOwner userID order); [discriminate|].
    destruct (service.CompleteOrder _ _ _ _ _) as [err|] eqn:Hcall.
    + destruct (response.HandleError _ _ _ _) as [r' lines]. discriminate.
    + destruct (service.GetOrderByID _ _) eqn:Hagain; [discriminate|].
      intros _. exists order, feedback. auto.
  - unfold CompleteOrder, is_empty.
    destruct (String.eqb_spec orderNo "") as [He|Hne]; [intros H; contradiction|].
    destruct req as [feedback|]; [|intros H; contradiction].
    destruct (service.GetOrderByNo (orderService h) orderNo) as [order|e];
      [|intros H; contradiction].
    destruct (notOwner userID order); [intros H; contradiction|].
    destruct (service.CompleteOrder _ _ _ _ _) as [err|].
    + unfold response.HandleError. cbn [mbind option_bind].
      destruct (bizerr.As err); cbn [fst snd]; [intros H; contradiction|].
      intros _. split; reflexivity.
    + destruct (service.GetOrderByID _ _); intros H; contradiction.
  - unfold GetOrRefreshFormToken, is_empty.
    destruct (String.eqb_spec orderNo "") as [He|Hne];
      [intros [H|H]; [contradiction | discriminate]|].
    destruct (service.GetOrderByNo (orderService h) orderNo) as [order|e];
      [|intros [H|H]; [contradiction | discriminate]].
    destruct (notOwner userID order) eqn:Howner;
      [intros [H|H]; [contradiction | discriminate]|].
    apply notOwner_false in Howner.
    destruct (bool_decide_reflect (Status order = OrderStatusDraft)) as [Hd|Hd].
    + cbn [negb andb]. intros _. exists order.
      split; [exact Hne|]. split; [reflexivity|]. split; [exact Howner|].
      split; [rewrite Hd; left|].
      destruct (service.GetOrRefreshFormToken _ _) as [[formToken expiresAt]|e]; reflexivity.
    + destruct (bool_decide_reflect (Status order = OrderStatusNeedResubmit)) as [Hn|Hn].
      * cbn [negb andb]. intros _. exists order.
        split; [exact Hne|]. split; [reflexivity|]. split; [exact Howner|].
        split; [rewrite Hn; right; left|].
        destruct (service.GetOrRefreshFormToken _ _) as [[formToken expiresAt]|e]; reflexivity.
      * cbn [negb andb]. intros [H|H]; [contradiction | discriminate].
Qed.

Example CompleteOrder_examples :
  CompleteOrder Front.handler "POST" "/api/orders/A-1/complete" 7 "A-1" (Some "fine")
    = (Some (response.Success (Completed "A-1" OrderStatusCompleted (Some 5))),
       [CallCompleteOrder 1 7 "fine" ""], []) /\
  CompleteOrder Front.handler "POST" "/api/orders/B-1/complete" 7 "B-1" (Some "fine")
    = (Some (response.Forbidden "No permission to operate this order"), [], []) /\
  CompleteOrder Front.handler "POST" "/api/orders/A-1/complete" 7 "A-1" None
    = (Some (response.BadRequest "Invalid request parameters"), [], []).
Proof. repeat split; reflexivity. Qed.

End OrderHandlerFacts.
